(** * Paysera gateway codec: request builder, callback verifier, client

    A shallow embedding of [src/modules/paysera] (request builder, callback
    handler, client, errors, types) together with the platform primitives the
    TypeScript code calls (strings of UTF-16 code units, [Buffer] conversions,
    [encodeURIComponent] / [decodeURIComponent], [parseInt], [Math.round],
    [String(number)], MD5, UUID v7 formatting), followed by the properties of
    the codec. *)

From Stdlib Require Import ZArith List String Ascii Bool Lia Floats.
From stdpp Require Import gmap list.

Open Scope Z_scope.

(* ===================================================================== *)
(** * Platform: JavaScript strings and byte buffers *)
(* ===================================================================== *)

Module JS.

(** A JavaScript string is a sequence of 16-bit code units; a buffer is a
    sequence of octets.  Both are lists of [Z]; [code_units] and [octets]
    state the range. *)
Abbreviation jsstring := (list Z).
Abbreviation bytes := (list Z).

Definition code (a : ascii) : Z := Z.of_N (N_of_ascii a).

Definition js (s : string) : jsstring := map code (list_ascii_of_string s).

Definition between (lo hi c : Z) : bool := (lo <=? c) && (c <=? hi).

Definition is_code_unit (c : Z) : bool := between 0 0xFFFF c.
Definition is_octet (b : Z) : bool := between 0 0xFF b.
Definition code_units (s : jsstring) : bool := forallb is_code_unit s.
Definition octets (bs : bytes) : bool := forallb is_octet bs.

Definition is_lead_surrogate (c : Z) : bool := between 0xD800 0xDBFF c.
Definition is_trail_surrogate (c : Z) : bool := between 0xDC00 0xDFFF c.
Definition is_surrogate (c : Z) : bool := between 0xD800 0xDFFF c.

(** [s === t] on strings. *)
Definition str_eqb (s t : jsstring) : bool := bool_decide (s = t).

(** Truthiness of a string: [!s] holds exactly for the empty string. *)
Definition truthy (s : jsstring) : bool :=
  match s with [] => false | _ => true end.

(** The code points of a string, as the string iterator yields them: a lead
    surrogate followed by a trail surrogate is one supplementary code point,
    any other code unit (an unpaired surrogate included) is its own code
    point. *)
Fixpoint code_points (s : jsstring) : list Z :=
  match s with
  | [] => []
  | c :: s' =>
      match s' with
      | d :: s'' =>
          if is_lead_surrogate c && is_trail_surrogate d
          then (0x10000 + (c - 0xD800) * 0x400 + (d - 0xDC00)) :: code_points s''
          else c :: code_points s'
      | [] => [c]
      end
  end.

(** [String.prototype.isWellFormed]: no unpaired surrogate. *)
Definition isWellFormed (s : jsstring) : bool :=
  forallb (fun cp => negb (is_surrogate cp)) (code_points s).

Definition utf16_encode_cp (cp : Z) : jsstring :=
  if cp <? 0x10000 then [cp]
  else [0xD800 + (cp - 0x10000) / 0x400; 0xDC00 + (cp - 0x10000) mod 0x400].

(** UTF-8 encoding of one scalar value. *)
Definition utf8_encode_cp (cp : Z) : bytes :=
  if cp <? 0x80 then [cp]
  else if cp <? 0x800 then [0xC0 + cp / 0x40; 0x80 + cp mod 0x40]
  else if cp <? 0x10000 then
    [0xE0 + cp / 0x1000; 0x80 + (cp / 0x40) mod 0x40; 0x80 + cp mod 0x40]
  else
    [0xF0 + cp / 0x40000; 0x80 + (cp / 0x1000) mod 0x40;
     0x80 + (cp / 0x40) mod 0x40; 0x80 + cp mod 0x40].

(** [Buffer.from(str, "utf-8")]: an unpaired surrogate is written as the
    replacement character U+FFFD. *)
Definition Buffer_from_utf8 (s : jsstring) : bytes :=
  flat_map (fun cp => utf8_encode_cp (if is_surrogate cp then 0xFFFD else cp))
           (code_points s).

(** The UTF-8 decoder of the Encoding Standard, which [buf.toString("utf-8")]
    follows: each ill-formed subsequence yields one U+FFFD, and the byte that
    broke a sequence is looked at again as the start of a new one. *)
Inductive utf8_lead_kind :=
| LeadAscii
| LeadMulti (cp : Z) (needed : nat) (lo hi : Z)
| LeadInvalid.

Definition utf8_lead (b : Z) : utf8_lead_kind :=
  if between 0x00 0x7F b then LeadAscii
  else if between 0xC2 0xDF b then LeadMulti (b - 0xC0) 1 0x80 0xBF
  else if between 0xE0 0xEF b then
    LeadMulti (b - 0xE0) 2 (if b =? 0xE0 then 0xA0 else 0x80)
              (if b =? 0xED then 0x9F else 0xBF)
  else if between 0xF0 0xF4 b then
    LeadMulti (b - 0xF0) 3 (if b =? 0xF0 then 0x90 else 0x80)
              (if b =? 0xF4 then 0x8F else 0xBF)
  else LeadInvalid.

Fixpoint utf8_decode_loop (st : option (Z * nat * Z * Z)) (bs : bytes) : list Z :=
  match bs with
  | [] => match st with None => [] | Some _ => [0xFFFD] end
  | b :: bs' =>
      let fresh :=
        match utf8_lead b with
        | LeadAscii => b :: utf8_decode_loop None bs'
        | LeadMulti cp n lo hi => utf8_decode_loop (Some (cp, n, lo, hi)) bs'
        | LeadInvalid => 0xFFFD :: utf8_decode_loop None bs'
        end in
      match st with
      | None => fresh
      | Some (cp, n, lo, hi) =>
          if between lo hi b then
            let cp' := cp * 0x40 + (b - 0x80) in
            match n with
            | S (S n') => utf8_decode_loop (Some (cp', S n', 0x80, 0xBF)) bs'
            | _ => cp' :: utf8_decode_loop None bs'
            end
          else 0xFFFD :: fresh
      end
  end.

Definition utf8_decode (bs : bytes) : list Z := utf8_decode_loop None bs.

(** [buf.toString("utf-8")]. *)
Definition Buffer_toString_utf8 (bs : bytes) : jsstring :=
  flat_map utf16_encode_cp (utf8_decode bs).

(** ** Base64 *)

Definition b64char (n : Z) : Z :=
  if n <? 26 then code "A" + n
  else if n <? 52 then code "a" + (n - 26)
  else if n <? 62 then code "0" + (n - 52)
  else if n =? 62 then code "+"
  else code "/".

(** The decoder's table accepts the URL-safe alphabet as well. *)
Definition unbase64 (c : Z) : option Z :=
  if between (code "A") (code "Z") c then Some (c - code "A")
  else if between (code "a") (code "z") c then Some (c - code "a" + 26)
  else if between (code "0") (code "9") c then Some (c - code "0" + 52)
  else if (c =? code "+") || (c =? code "-") then Some 62
  else if (c =? code "/") || (c =? code "_") then Some 63
  else None.

(** [buf.toString("base64")]: standard alphabet, padded with [=]. *)
Fixpoint Buffer_toString_base64 (bs : bytes) : jsstring :=
  match bs with
  | [] => []
  | [a] => [b64char (a / 4); b64char ((a mod 4) * 16); code "="; code "="]
  | [a; b] =>
      [b64char (a / 4); b64char ((a mod 4) * 16 + b / 16);
       b64char ((b mod 16) * 4); code "="]
  | a :: b :: c :: rest =>
      b64char (a / 4) :: b64char ((a mod 4) * 16 + b / 16)
      :: b64char ((b mod 16) * 4 + c / 64) :: b64char (c mod 64)
      :: Buffer_toString_base64 rest
  end.

(** [Buffer.from(str, "base64")] is lenient: a code unit is read by its
    low eight bits, decoding stops at the first [=], characters outside the
    alphabet are skipped, and a trailing group of two or three sextets gives
    one or two octets. *)
Fixpoint b64_sextets (s : jsstring) : list Z :=
  match s with
  | [] => []
  | c :: s' =>
      let c := Z.land c 0xFF in
      if c =? code "=" then []
      else match unbase64 c with
           | Some n => n :: b64_sextets s'
           | None => b64_sextets s'
           end
  end.

Fixpoint b64_octets (ns : list Z) : bytes :=
  match ns with
  | a :: b :: c :: d :: rest =>
      (a * 4 + b / 16) :: ((b mod 16) * 16 + c / 4) :: ((c mod 4) * 64 + d)
      :: b64_octets rest
  | [a; b; c] => [a * 4 + b / 16; (b mod 16) * 16 + c / 4]
  | [a; b] => [a * 4 + b / 16]
  | _ => []
  end.

Definition Buffer_from_base64 (s : jsstring) : bytes := b64_octets (b64_sextets s).

(** ** String helpers *)

(** [s.replace(/[class]/g, r)] for a one-code-unit character class. *)
Definition replaceAll (p : Z -> bool) (r : jsstring) (s : jsstring) : jsstring :=
  flat_map (fun c => if p c then r else [c]) s.

Definition is_char (a : ascii) (c : Z) : bool := c =? code a.

(** [toLowerCase] as it acts on Basic Latin: [A-Z] to [a-z].  The handler
    takes the conversion as a parameter; this one instantiates it on
    concrete inputs. *)
Definition toLowerCase_latin (s : jsstring) : jsstring :=
  map (fun c => if between (code "A") (code "Z") c then c + 32 else c) s.

End JS.

(* ===================================================================== *)
(** * paysera-errors.ts, and exceptions as results *)
(* ===================================================================== *)

Module Errors.
Import JS.

(** The thrown values that can occur: the four classes of
    [paysera-errors.ts], each with its message, and the platform's
    [URIError]. *)
Inductive exn :=
| PayseraError (message : jsstring)
| PayseraSignatureError (message : jsstring)
| PayseraConfigError (message : jsstring)
| PayseraCallbackDataError (message : jsstring)
| URIError.

(** Default constructor arguments. *)
Definition default_signature_message : jsstring := js "Invalid callback signature".
Definition default_config_message : jsstring := js "Invalid or missing Paysera configuration".
Definition default_callback_data_message : jsstring := js "Invalid callback data".

(** A computation either returns or throws. *)
Inductive result (A : Type) :=
| Ok (a : A)
| Throw (e : exn).
Arguments Ok {A} a.
Arguments Throw {A} e.

Definition bind {A B} (r : result A) (k : A -> result B) : result B :=
  match r with
  | Ok a => k a
  | Throw e => Throw e
  end.

Definition rmap {A B} (f : A -> B) (r : result A) : result B :=
  bind r (fun a => Ok (f a)).

Fixpoint mapM {A B} (f : A -> result B) (l : list A) : result (list B) :=
  match l with
  | [] => Ok []
  | a :: l' => bind (f a) (fun b => bind (mapM f l') (fun bs => Ok (b :: bs)))
  end.

Definition is_signature_error {A} (r : result A) : bool :=
  match r with Throw (PayseraSignatureError _) => true | _ => false end.
Definition is_config_error {A} (r : result A) : bool :=
  match r with Throw (PayseraConfigError _) => true | _ => false end.
Definition is_callback_data_error {A} (r : result A) : bool :=
  match r with Throw (PayseraCallbackDataError _) => true | _ => false end.

End Errors.

(** [x ← r; k] sequences two computations; [f <$> r] maps over the result. *)
#[global] Instance result_bind : MBind Errors.result := fun A B k r => Errors.bind r k.
#[global] Instance result_ret : MRet Errors.result := fun A a => Errors.Ok a.
#[global] Instance result_fmap : FMap Errors.result := fun A B f r => Errors.rmap f r.

(* ===================================================================== *)
(** * Platform: encodeURIComponent and decodeURIComponent *)
(* ===================================================================== *)

Module URI.
Import JS Errors.

Definition is_digit (c : Z) : bool := between (code "0") (code "9") c.
Definition is_alpha (c : Z) : bool :=
  between (code "a") (code "z") c || between (code "A") (code "Z") c.
Definition is_alnum (c : Z) : bool := is_alpha c || is_digit c.

(** uriUnescaped: alphanumerics and the marks [- _ . ! ~ * ' ( )]. *)
Definition uriMark (c : Z) : bool :=
  existsb (Z.eqb c) (js "-_.!~*'()").
Definition uriUnescaped (c : Z) : bool := is_alnum c || uriMark c.

Definition hex_upper (n : Z) : Z :=
  if n <? 10 then code "0" + n else code "A" + (n - 10).

Definition pct_octet (b : Z) : jsstring :=
  [code "%"; hex_upper ((b / 16) mod 16); hex_upper (b mod 16)].

Definition encode_code_point (cp : Z) : result jsstring :=
  if is_surrogate cp then Throw URIError
  else if uriUnescaped cp then Ok [cp]
  else Ok (flat_map pct_octet (utf8_encode_cp cp)).

(** [encodeURIComponent]: throws [URIError] on an unpaired surrogate. *)
Definition encodeURIComponent (s : jsstring) : result jsstring :=
  @List.concat Z <$> mapM encode_code_point (code_points s).

Definition hex_value (c : Z) : option Z :=
  if is_digit c then Some (c - code "0")
  else if between (code "a") (code "f") c then Some (c - code "a" + 10)
  else if between (code "A") (code "F") c then Some (c - code "A" + 10)
  else None.

(** Number of octets announced by the first octet of an escape sequence. *)
Definition sequence_length (b : Z) : option nat :=
  if b <? 0x80 then Some 1%nat
  else if b <? 0xC0 then None
  else if b <? 0xE0 then Some 2%nat
  else if b <? 0xF0 then Some 3%nat
  else if b <? 0xF8 then Some 4%nat
  else None.

(** The octets are the UTF-8 encoding of one code point. *)
Definition utf8_code_point (octs : bytes) : option Z :=
  match utf8_decode octs with
  | [cp] => if bool_decide (utf8_encode_cp cp = octs) then Some cp else None
  | _ => None
  end.

(** [decodeURIComponent]: [st] holds the octets of an escape sequence read
    so far and the number of octets still to come.  Every malformed input
    throws [URIError]. *)
Fixpoint decode_loop (st : option (bytes * nat)) (s : jsstring) : result jsstring :=
  match s with
  | [] => match st with None => Ok [] | Some _ => Throw URIError end
  | c :: rest =>
      if c =? code "%" then
        match rest with
        | h1 :: h2 :: rest2 =>
            match hex_value h1, hex_value h2 with
            | Some a, Some b =>
                let B := 16 * a + b in
                match st with
                | None =>
                    match sequence_length B with
                    | Some 1%nat => r ← decode_loop None rest2; Ok (B :: r)
                    | Some (S n) => decode_loop (Some ([B], n)) rest2
                    | _ => Throw URIError
                    end
                | Some (octs, n) =>
                    match n with
                    | S (S n') => decode_loop (Some (octs ++ [B], S n')) rest2
                    | _ =>
                        match utf8_code_point (octs ++ [B]) with
                        | Some cp =>
                            r ← decode_loop None rest2; Ok (utf16_encode_cp cp ++ r)
                        | None => Throw URIError
                        end
                    end
                end
            | _, _ => Throw URIError
            end
        | _ => Throw URIError
        end
      else
        match st with
        | None => r ← decode_loop None rest; Ok (c :: r)
        | Some _ => Throw URIError
        end
  end.

Definition decodeURIComponent (s : jsstring) : result jsstring := decode_loop None s.

End URI.

(* ===================================================================== *)
(** * Platform: numbers *)
(* ===================================================================== *)

Module Num.
Import JS URI.

(** A JavaScript number is an IEEE 754 binary64 value, here in the
    specification form of the standard library ([prec = 53], [emax = 1024]);
    the numbers proper are those with [valid_binary]. *)
Abbreviation number := spec_float.

Definition NaN : number := S754_nan.
Definition pos_zero : number := S754_zero false.
Definition neg_zero : number := S754_zero true.

(** [x === y] and [x * y] on numbers. *)
Definition num_eqb (x y : number) : bool := SFeqb x y.
Definition num_mul (x y : number) : number := SFmul prec emax x y.

Definition isNaN (x : number) : bool :=
  match x with S754_nan => true | _ => false end.

(** The number nearest to an integer (ties to even, infinite beyond the
    largest finite value). *)
Definition Number_of_Z (n : Z) : number := binary_normalize prec emax n 0 false.

(** WhiteSpace and LineTerminator code units, stripped by [parseInt]. *)
Definition is_white_space (c : Z) : bool :=
  existsb (Z.eqb c)
    [0x9; 0xA; 0xB; 0xC; 0xD; 0x20; 0xA0; 0x1680; 0x2028; 0x2029; 0x202F;
     0x205F; 0x3000; 0xFEFF]
  || between 0x2000 0x200A c.

Fixpoint trim_start (s : jsstring) : jsstring :=
  match s with
  | c :: s' => if is_white_space c then trim_start s' else s
  | [] => []
  end.

(** The values of the leading decimal digits. *)
Fixpoint digits_prefix (s : jsstring) : list Z :=
  match s with
  | c :: s' => if is_digit c then (c - code "0") :: digits_prefix s' else []
  | [] => []
  end.

Definition digits_value (ds : list Z) : Z :=
  fold_left (fun acc d => 10 * acc + d) ds 0.

(** The optional sign of [parseInt]: [(negative, rest)]. *)
Definition strip_sign (s : jsstring) : bool * jsstring :=
  match s with
  | c :: r =>
      if c =? code "-" then (true, r)
      else if c =? code "+" then (false, r)
      else (false, s)
  | [] => (false, [])
  end.

(** [parseInt(s, 10)]. *)
Definition parseInt10 (s : jsstring) : number :=
  let '(negative, body) := strip_sign (trim_start s) in
  match digits_prefix body with
  | [] => NaN
  | ds =>
      let n := digits_value ds in
      if n =? 0 then (if negative then neg_zero else pos_zero)
      else Number_of_Z (if negative then - n else n)
  end.

(** [Math.round]: the nearest integer, a tie going towards +∞; the sign of
    a zero result is that of the argument. *)
Definition Math_round (x : number) : number :=
  match x with
  | S754_finite s m e =>
      if 0 <=? e then x
      else
        let d := 2 ^ (- e) in
        let q := Z.pos m / d in
        let r := Z.pos m mod d in
        let n := if s then (if d <? 2 * r then q + 1 else q)
                 else (if d <=? 2 * r then q + 1 else q) in
        if n =? 0 then (if s then neg_zero else pos_zero)
        else Number_of_Z (if s then - n else n)
  | _ => x
  end.

(** ** [String(number)] *)

Fixpoint uint_digits (u : Decimal.uint) : list Z :=
  match u with
  | Decimal.Nil => []
  | Decimal.D0 u => 0 :: uint_digits u
  | Decimal.D1 u => 1 :: uint_digits u
  | Decimal.D2 u => 2 :: uint_digits u
  | Decimal.D3 u => 3 :: uint_digits u
  | Decimal.D4 u => 4 :: uint_digits u
  | Decimal.D5 u => 5 :: uint_digits u
  | Decimal.D6 u => 6 :: uint_digits u
  | Decimal.D7 u => 7 :: uint_digits u
  | Decimal.D8 u => 8 :: uint_digits u
  | Decimal.D9 u => 9 :: uint_digits u
  end.

(** Decimal digit values of a non-negative integer, most significant first;
    zero is the single digit 0. *)
Definition decimal_digits (n : Z) : list Z :=
  match n with
  | Z.pos p => uint_digits (Pos.to_uint p)
  | _ => [0]
  end.

Definition digit_chars (ds : list Z) : jsstring := map (fun d => code "0" + d) ds.

(** The shortest decimal [s × 10^(n-k)] that reads back as [m × 2^e]: the
    digits of [s] and the exponent [n].  All quantities are integers in
    units of [10^q]; [lo] and [hi] are the midpoints to the neighbouring
    numbers, which belong to the rounding interval when [m] is even. *)
Fixpoint shortest_search (fuel : nat) (k len N lo hi : Z) (even : bool) : Z * Z :=
  let u := 10 ^ (len - k) in
  let c1 := (N / u) * u in
  let c2 := c1 + u in
  let inside c :=
    if even then (lo <=? c) && (c <=? hi) else (lo <? c) && (c <? hi) in
  let found c := if c / u =? 10 ^ k then (1, len + 1) else (c / u, len) in
  match fuel with
  | O => (N, len)
  | S fuel' =>
      if len <=? k then (N, len)
      else if inside c1 && inside c2 then
        if N - c1 <? c2 - N then found c1
        else if c2 - N <? N - c1 then found c2
        else if Z.even (c1 / u) then found c1 else found c2
      else if inside c1 then found c1
      else if inside c2 then found c2
      else shortest_search fuel' (k + 1) len N lo hi even
  end.

Definition shortest (m : positive) (e : Z) : list Z * Z :=
  let boundary := (Z.pos m =? 2 ^ 52) && (-1074 <? e) in
  let V := 4 * Z.pos m in
  let LO := if boundary then V - 1 else V - 2 in
  let HI := V + 2 in
  let E := e - 2 in
  let scale := if 0 <=? E then 2 ^ E else 5 ^ (- E) in
  let q := Z.min E 0 in
  let N := V * scale in
  let len := Z.of_nat (length (decimal_digits N)) in
  let '(s, n) := shortest_search 17 1 len N (LO * scale) (HI * scale) (Z.even (Z.pos m)) in
  (decimal_digits s, n + q).

Definition zeros (n : Z) : jsstring := repeat (code "0") (Z.to_nat n).

(** Number::toString for a positive finite value given by its digits. *)
Definition format_decimal (ds : list Z) (n : Z) : jsstring :=
  let k := Z.of_nat (length ds) in
  let cs := digit_chars ds in
  if (k <=? n) && (n <=? 21) then cs ++ zeros (n - k)
  else if (0 <? n) && (n <=? 21) then
    take (Z.to_nat n) cs ++ js "." ++ drop (Z.to_nat n) cs
  else if (-6 <? n) && (n <=? 0) then js "0." ++ zeros (- n) ++ cs
  else
    let ex := n - 1 in
    let sign := if ex <? 0 then js "-" else js "+" in
    let expo := digit_chars (decimal_digits (Z.abs ex)) in
    match cs with
    | [d] => [d] ++ js "e" ++ sign ++ expo
    | d :: rest => [d] ++ js "." ++ rest ++ js "e" ++ sign ++ expo
    | [] => []
    end.

(** [String(x)] for a number [x]. *)
Definition Number_toString (x : number) : jsstring :=
  match x with
  | S754_nan => js "NaN"
  | S754_zero _ => js "0"
  | S754_infinity s => if s then js "-Infinity" else js "Infinity"
  | S754_finite s m e =>
      let '(ds, n) := shortest m e in
      (if s then js "-" else []) ++ format_decimal ds n
  end.

End Num.

(* ===================================================================== *)
(** * Platform: MD5 ([createHash("md5")]) *)
(* ===================================================================== *)

Module Crypto.
Import JS.

Definition w32 (x : Z) : Z := x mod 2 ^ 32.

Definition rotl32 (x c : Z) : Z :=
  w32 (Z.lor (Z.shiftl x c) (Z.shiftr x (32 - c))).

Definition not32 (x : Z) : Z := Z.lxor x 0xFFFFFFFF.

(** [floor(abs(sin(i + 1)) * 2^32)] for [i = 0 .. 63]. *)
Definition md5_K : list Z :=
  [0xd76aa478; 0xe8c7b756; 0x242070db; 0xc1bdceee; 0xf57c0faf; 0x4787c62a;
   0xa8304613; 0xfd469501; 0x698098d8; 0x8b44f7af; 0xffff5bb1; 0x895cd7be;
   0x6b901122; 0xfd987193; 0xa679438e; 0x49b40821; 0xf61e2562; 0xc040b340;
   0x265e5a51; 0xe9b6c7aa; 0xd62f105d; 0x02441453; 0xd8a1e681; 0xe7d3fbc8;
   0x21e1cde6; 0xc33707d6; 0xf4d50d87; 0x455a14ed; 0xa9e3e905; 0xfcefa3f8;
   0x676f02d9; 0x8d2a4c8a; 0xfffa3942; 0x8771f681; 0x6d9d6122; 0xfde5380c;
   0xa4beea44; 0x4bdecfa9; 0xf6bb4b60; 0xbebfbc70; 0x289b7ec6; 0xeaa127fa;
   0xd4ef3085; 0x04881d05; 0xd9d4d039; 0xe6db99e5; 0x1fa27cf8; 0xc4ac5665;
   0xf4292244; 0x432aff97; 0xab9423a7; 0xfc93a039; 0x655b59c3; 0x8f0ccc92;
   0xffeff47d; 0x85845dd1; 0x6fa87e4f; 0xfe2ce6e0; 0xa3014314; 0x4e0811a1;
   0xf7537e82; 0xbd3af235; 0x2ad7d2bb; 0xeb86d391].

Definition md5_S : list Z :=
  [7; 12; 17; 22; 7; 12; 17; 22; 7; 12; 17; 22; 7; 12; 17; 22;
   5; 9; 14; 20; 5; 9; 14; 20; 5; 9; 14; 20; 5; 9; 14; 20;
   4; 11; 16; 23; 4; 11; 16; 23; 4; 11; 16; 23; 4; 11; 16; 23;
   6; 10; 15; 21; 6; 10; 15; 21; 6; 10; 15; 21; 6; 10; 15; 21].

Definition le_bytes (n : nat) (x : Z) : bytes :=
  map (fun i => (x / 2 ^ (8 * Z.of_nat i)) mod 256) (seq 0 n).

Definition le_word (bs : bytes) : Z :=
  fold_right (fun b acc => b + 256 * acc) 0 bs.

(** The message, a 1 bit, zeros up to 56 modulo 64, and the bit length on
    64 bits. *)
Definition md5_pad (msg : bytes) : bytes :=
  let len := Z.of_nat (length msg) in
  let fill := (55 - len) mod 64 in
  msg ++ [0x80] ++ repeat 0 (Z.to_nat fill) ++ le_bytes 8 ((8 * len) mod 2 ^ 64).

Fixpoint chunks (fuel : nat) (n : nat) (bs : bytes) : list bytes :=
  match fuel, bs with
  | _, [] => []
  | O, _ => []
  | S fuel', _ => take n bs :: chunks fuel' n (drop n bs)
  end.

Definition md5_step (M : list Z) (st : Z * Z * Z * Z) (i : nat) : Z * Z * Z * Z :=
  let '(A, B, C, D) := st in
  let zi := Z.of_nat i in
  let '(F, g) :=
    if zi <? 16 then (Z.lor (Z.land B C) (Z.land (not32 B) D), zi)
    else if zi <? 32 then (Z.lor (Z.land D B) (Z.land (not32 D) C), (5 * zi + 1) mod 16)
    else if zi <? 48 then (Z.lxor (Z.lxor B C) D, (3 * zi + 5) mod 16)
    else (Z.lxor C (Z.lor B (not32 D)), (7 * zi) mod 16) in
  let F' := w32 (F + A + nth i md5_K 0 + nth (Z.to_nat g) M 0) in
  (D, w32 (B + rotl32 F' (nth i md5_S 0)), B, C).

Definition md5_block (st : Z * Z * Z * Z) (block : bytes) : Z * Z * Z * Z :=
  let M := map le_word (chunks 16 4 block) in
  let '(A0, B0, C0, D0) := st in
  let '(A, B, C, D) := fold_left (md5_step M) (seq 0 64) st in
  (w32 (A0 + A), w32 (B0 + B), w32 (C0 + C), w32 (D0 + D)).

Definition md5 (msg : bytes) : bytes :=
  let padded := md5_pad msg in
  let '(A, B, C, D) :=
    fold_left md5_block (chunks (length padded) 64 padded)
              (0x67452301, 0xefcdab89, 0x98badcfe, 0x10325476) in
  le_bytes 4 A ++ le_bytes 4 B ++ le_bytes 4 C ++ le_bytes 4 D.

Definition hex_lower (n : Z) : Z :=
  if n <? 10 then code "0" + n else code "a" + (n - 10).

(** Two lowercase hexadecimal digits of an octet. *)
Definition byteToHex (b : Z) : jsstring :=
  [hex_lower ((b / 16) mod 16); hex_lower (b mod 16)].

(** [createHash("md5").update(s).digest("hex")]: the string is hashed in its
    UTF-8 encoding. *)
Definition md5_hex (s : jsstring) : jsstring :=
  flat_map byteToHex (md5 (Buffer_from_utf8 s)).

End Crypto.

(* ===================================================================== *)
(** * Platform: time-ordered unique identifiers ([uuid] v7) *)
(* ===================================================================== *)

Module Uuid.
Import JS Crypto.

(** What one call of [uuidv7()] draws from its environment: the clock and
    the random bits. *)
Record entropy := {
  unix_ts_ms : Z;
  rand_a : Z;
  rand_b : Z
}.

(** The sixteen octets: 48 bits of time, version 7, 12 random bits, variant
    [10], 62 random bits. *)
Definition v7Bytes (e : entropy) : bytes :=
  map (fun i => (unix_ts_ms e / 2 ^ (8 * (5 - Z.of_nat i))) mod 256) (seq 0 6)
  ++ [0x70 + (rand_a e / 256) mod 16; rand_a e mod 256;
      0x80 + (rand_b e / 2 ^ 56) mod 64]
  ++ map (fun i => (rand_b e / 2 ^ (8 * (6 - Z.of_nat i))) mod 256) (seq 0 7).

(** The textual form [8-4-4-4-12] in lowercase hexadecimal. *)
Definition stringify (bs : bytes) : jsstring :=
  flat_map byteToHex (take 4 bs) ++ js "-"
  ++ flat_map byteToHex (take 2 (drop 4 bs)) ++ js "-"
  ++ flat_map byteToHex (take 2 (drop 6 bs)) ++ js "-"
  ++ flat_map byteToHex (take 2 (drop 8 bs)) ++ js "-"
  ++ flat_map byteToHex (take 6 (drop 10 bs)).

Definition uuidv7 (e : entropy) : jsstring := stringify (v7Bytes e).

End Uuid.

(* ===================================================================== *)
(** * paysera-types.ts *)
(* ===================================================================== *)

Module Types.
Import JS Num.

Record PayseraConfig := {
  projectId : jsstring;
  password : jsstring;
  testMode : bool
}.

(** A property value of a request-parameter object. *)
Inductive value :=
| VUndefined
| VNull
| VString (s : jsstring)
| VNumber (x : number).

(** A request-parameter object, given by its own properties in the order
    [Object.entries] lists them (insertion order; the protocol's field names
    are not array indices). *)
Abbreviation PayseraRequestParams := (list (jsstring * value)).

Record PayseraCallbackData := {
  projectid : jsstring;
  orderid : jsstring;
  amount : number;
  currency : jsstring;
  status : number;
  requestid : jsstring;
  paytext : option jsstring;
  name : option jsstring;
  surename : option jsstring;
  payment : option jsstring;
  country : option jsstring;
  test : option Z
}.

Record PayseraCallbackUrls := {
  acceptUrl : jsstring;
  cancelUrl : jsstring;
  callbackUrl : jsstring
}.

Record PayseraPaymentRequest := {
  redirectUrl : jsstring;
  orderId : jsstring
}.

Module PayseraStatus.
Definition PENDING : number := Number_of_Z 0.
Definition SUCCESS : number := Number_of_Z 1.
Definition ACCEPTED_NOT_EXECUTED : number := Number_of_Z 2.
Definition ADDITIONAL_INFO_REQUIRED : number := Number_of_Z 3.
End PayseraStatus.

End Types.

(* ===================================================================== *)
(** * paysera-request-builder.ts *)
(* ===================================================================== *)

Module RequestBuilder.
Import JS Errors URI Num Crypto Types.

Definition PAYSERA_PAYMENT_URL : jsstring := js "https://www.paysera.com/pay/".

Definition toUrlSafeBase64 (str : jsstring) : jsstring :=
  replaceAll (is_char "+") (js "-")
    (replaceAll (is_char "/") (js "_")
       (Buffer_toString_base64 (Buffer_from_utf8 str))).

Definition fromUrlSafeBase64 (str : jsstring) : jsstring :=
  let standardBase64 :=
    replaceAll (is_char "-") (js "+") (replaceAll (is_char "_") (js "/") str) in
  Buffer_toString_utf8 (Buffer_from_base64 standardBase64).

Definition generateSignature (data password : jsstring) : jsstring :=
  md5_hex (data ++ password).

(** The filter of [encodeParams]: the value is neither undefined, nor null,
    nor the empty string. *)
Definition present (v : value) : bool :=
  match v with
  | VUndefined | VNull | VString [] => false
  | _ => true
  end.

(** [String(value)]. *)
Definition String_ (v : value) : jsstring :=
  match v with
  | VUndefined => js "undefined"
  | VNull => js "null"
  | VString s => s
  | VNumber x => Number_toString x
  end.

(** [entries.join(sep)]. *)
Definition join (sep : jsstring) (l : list jsstring) : jsstring :=
  match l with
  | [] => []
  | x :: xs => x ++ flat_map (fun y => sep ++ y) xs
  end.

Definition encodeEntry (kv : jsstring * value) : result jsstring :=
  k ← encodeURIComponent (fst kv);
  v ← encodeURIComponent (String_ (snd kv));
  Ok (k ++ js "=" ++ v).

Definition encodeParams (params : PayseraRequestParams) : result jsstring :=
  entries ← mapM encodeEntry (List.filter (fun kv => present (snd kv)) params);
  Ok (join (js "&") entries).

Definition buildRequest (params : PayseraRequestParams) (password : jsstring)
  : result (jsstring * jsstring) :=
  encodedParams ← encodeParams params;
  let data := toUrlSafeBase64 encodedParams in
  let sign := generateSignature data password in
  Ok (data, sign).

Definition getPaymentUrl (data sign : jsstring) : jsstring :=
  PAYSERA_PAYMENT_URL ++ js "?data=" ++ data ++ js "&sign=" ++ sign.

Definition buildPaymentUrl (params : PayseraRequestParams) (password : jsstring)
  : result jsstring :=
  '(data, sign) ← buildRequest params password;
  Ok (getPaymentUrl data sign).

End RequestBuilder.

(* ===================================================================== *)
(** * paysera-callback-handler.ts *)
(* ===================================================================== *)

Module CallbackHandler.
Import JS Errors URI Num Types RequestBuilder.

Record PayseraRawCallback := {
  data : jsstring;
  ss1 : jsstring;
  ss2 : option jsstring
}.

(** [s.split(sep)] for a separator of one code unit: never empty. *)
Fixpoint split (sep : Z) (s : jsstring) : list jsstring :=
  match s with
  | [] => [[]]
  | c :: s' =>
      if c =? sep then [] :: split sep s'
      else match split sep s' with
           | p :: ps => (c :: p) :: ps
           | [] => [[c]]
           end
  end.

(** [params[key] = value] on an object created by [{}]: the name
    [__proto__] is an accessor inherited from [Object.prototype], whose
    setter ignores a string, so no own property is created for it. *)
Definition set_property (key value : jsstring) (params : gmap jsstring jsstring)
  : gmap jsstring jsstring :=
  if bool_decide (key = js "__proto__") then params else <[key := value]> params.

(** The body of the [forEach] callback of [parseQueryString]:
    [const [key, value] = pair.split("=")] keeps the first two pieces. *)
Definition parsePair (params : gmap jsstring jsstring) (pair : jsstring)
  : result (gmap jsstring jsstring) :=
  let pieces := split (code "=") pair in
  let key := hd [] pieces in
  let value := pieces !! 1%nat in
  if truthy key then
    k ← decodeURIComponent key;
    v ← match value with
        | Some v => if truthy v then decodeURIComponent v else Ok []
        | None => Ok []
        end;
    Ok (set_property k v params)
  else Ok params.

Fixpoint forEach_pairs (params : gmap jsstring jsstring) (pairs : list jsstring)
  : result (gmap jsstring jsstring) :=
  match pairs with
  | [] => Ok params
  | p :: rest => params' ← parsePair params p; forEach_pairs params' rest
  end.

Definition parseQueryString (queryString : jsstring) : result (gmap jsstring jsstring) :=
  forEach_pairs ∅ (split (code "&") queryString).

Definition decodeCallbackData (data : jsstring) : result (gmap jsstring jsstring) :=
  let decoded := fromUrlSafeBase64 data in
  parseQueryString decoded.

Definition required : list jsstring :=
  [js "projectid"; js "orderid"; js "amount"; js "currency"; js "status";
   js "requestid"].

(** The loop over [required]: [field in rawData], for these names, is the
    presence of an own property. *)
Fixpoint check_required (fields : list jsstring) (rawData : gmap jsstring jsstring)
  : result unit :=
  match fields with
  | [] => Ok tt
  | field :: rest =>
      if bool_decide (is_Some (rawData !! field)) then check_required rest rawData
      else Throw (PayseraCallbackDataError (js "Missing required field: " ++ field))
  end.

Definition parseCallbackData (rawData : gmap jsstring jsstring)
  : result PayseraCallbackData :=
  _ ← check_required required rawData;
  let amount := parseInt10 (rawData !!! js "amount") in
  if isNaN amount then Throw (PayseraCallbackDataError (js "Invalid amount value"))
  else
    let status := parseInt10 (rawData !!! js "status") in
    if isNaN status then Throw (PayseraCallbackDataError (js "Invalid status value"))
    else
      Ok {| projectid := rawData !!! js "projectid";
            orderid := rawData !!! js "orderid";
            amount := amount;
            currency := rawData !!! js "currency";
            status := status;
            requestid := rawData !!! js "requestid";
            paytext := rawData !! js "paytext";
            name := rawData !! js "name";
            surename := rawData !! js "surename";
            payment := rawData !! js "payment";
            country := rawData !! js "country";
            test := if bool_decide (rawData !! js "test" = Some (js "1")) then Some 1
                    else if bool_decide (rawData !! js "test" = Some (js "0")) then Some 0
                    else None |}.

Section Locale.

(** [String.prototype.toLowerCase], the Unicode default case conversion, is
    a parameter of the handler. *)
Variable toLowerCase : jsstring -> jsstring.

Definition verifySignature (data ss1 password : jsstring) : bool :=
  let expectedSignature := generateSignature data password in
  str_eqb (toLowerCase expectedSignature) (toLowerCase ss1).

Definition verifyAndDecodeCallback (rawCallback : PayseraRawCallback) (password : jsstring)
  : result PayseraCallbackData :=
  let data := data rawCallback in
  let ss1 := ss1 rawCallback in
  if negb (truthy data) || negb (truthy ss1) then
    Throw (PayseraCallbackDataError (js "Missing data or signature in callback"))
  else if negb (verifySignature data ss1 password) then
    Throw (PayseraSignatureError default_signature_message)
  else
    decodedData ← decodeCallbackData data;
    parseCallbackData decodedData.

End Locale.

End CallbackHandler.

(* ===================================================================== *)
(** * paysera-client.ts *)
(* ===================================================================== *)

Module Client.
Import JS Errors URI Num Uuid Types RequestBuilder CallbackHandler.

Definition PAYSERA_API_VERSION : jsstring := js "1.6".

Record CreatePaymentOptions := {
  transactionId : jsstring;
  amount : number;
  currency : jsstring;
  urls : PayseraCallbackUrls;
  customerEmail : option jsstring;
  customerFirstName : option jsstring;
  customerLastName : option jsstring;
  paymentDescription : option jsstring;
  language : option jsstring
}.

Record PayseraClient := { config : PayseraConfig }.

(** [new PayseraClient(config)]. *)
Definition new_PayseraClient (config : PayseraConfig) : result PayseraClient :=
  if negb (truthy (projectId config)) || negb (truthy (password config)) then
    Throw (PayseraConfigError (js "Project ID and password are required"))
  else Ok {| config := config |}.

Definition toMinorUnits (amount : number) : number :=
  Math_round (num_mul amount (Number_of_Z 100)).

(** [fresh] is what the call of [uuidv7()] draws. *)
Definition generateOrderId (fresh : entropy) (transactionId : jsstring) : jsstring :=
  let shortTxId := take 8 (replaceAll (fun c => negb (is_alnum c)) [] transactionId) in
  let shortUuid := take 24 (replaceAll (is_char "-") [] (uuidv7 fresh)) in
  take 40 (shortTxId ++ shortUuid).

(** [if (option) { params.key = option; }]: a new last property. *)
Definition add_optional (key : jsstring) (option : option jsstring)
  (params : PayseraRequestParams) : PayseraRequestParams :=
  match option with
  | Some s => if truthy s then params ++ [(key, VString s)] else params
  | None => params
  end.

Definition requestParams (this : PayseraClient) (orderId : jsstring)
  (options : CreatePaymentOptions) : PayseraRequestParams :=
  let params :=
    [(js "projectid", VString (projectId (config this)));
     (js "orderid", VString orderId);
     (js "accepturl", VString (acceptUrl (urls options)));
     (js "cancelurl", VString (cancelUrl (urls options)));
     (js "callbackurl", VString (callbackUrl (urls options)));
     (js "version", VString PAYSERA_API_VERSION);
     (js "amount", VNumber (toMinorUnits (amount options)));
     (js "currency", VString (currency options));
     (js "test", VNumber (if testMode (config this) then Number_of_Z 1 else Number_of_Z 0))] in
  add_optional (js "lang") (language options)
    (add_optional (js "paytext") (paymentDescription options)
       (add_optional (js "p_lastname") (customerLastName options)
          (add_optional (js "p_firstname") (customerFirstName options)
             (add_optional (js "p_email") (customerEmail options) params)))).

Definition createPaymentRequest (this : PayseraClient) (fresh : entropy)
  (options : CreatePaymentOptions) : result PayseraPaymentRequest :=
  let orderId := generateOrderId fresh (transactionId options) in
  let params := requestParams this orderId options in
  redirectUrl ← buildPaymentUrl params (password (config this));
  Ok {| redirectUrl := redirectUrl; orderId := orderId |}.

Definition processCallback (toLowerCase : jsstring -> jsstring) (this : PayseraClient)
  (rawCallback : PayseraRawCallback) : result PayseraCallbackData :=
  verifyAndDecodeCallback toLowerCase rawCallback (password (config this)).

Definition isPaymentSuccessful (callbackData : PayseraCallbackData) : bool :=
  num_eqb (status callbackData) PayseraStatus.SUCCESS.

Definition isPaymentPending (callbackData : PayseraCallbackData) : bool :=
  num_eqb (status callbackData) PayseraStatus.PENDING
  || num_eqb (status callbackData) PayseraStatus.ACCEPTED_NOT_EXECUTED.

End Client.

(* ===================================================================== *)
(** * Vocabulary of the properties *)
(* ===================================================================== *)

Module Props.
Import JS Errors URI Num Crypto Uuid Types RequestBuilder CallbackHandler Client.

(** A Unicode scalar value. *)
Definition scalar (cp : Z) : Prop :=
  0 <= cp <= 0x10FFFF /\ is_surrogate cp = false.

(** A computation throws nothing but exceptions satisfying [P]. *)
Definition throws_only {A} (P : exn -> Prop) (r : result A) : Prop :=
  match r with
  | Throw e => P e
  | Ok _ => True
  end.

Definition uri_error (e : exn) : Prop := e = URIError.

Definition callback_error (e : exn) : Prop :=
  e = URIError \/ exists m, e = PayseraCallbackDataError m.

(** The integer that [parseInt(s, 10)] reads: after leading white space and
    an optional sign, the longest run of decimal digits; [None] when that
    run is empty.  What follows the digits is ignored. *)
Definition integer_prefix (s : jsstring) : option Z :=
  let '(negative, body) := strip_sign (trim_start s) in
  match digits_prefix body with
  | [] => None
  | ds => Some (if negative then - digits_value ds else digits_value ds)
  end.

(** The value of a run of decimal digits, each taken with its weight. *)
Fixpoint decimal (ds : jsstring) : Z :=
  match ds with
  | [] => 0
  | c :: rest => (c - code "0") * 10 ^ Z.of_nat (length rest) + decimal rest
  end.

(** [reads_integer s n]: the string [s] is leading white space, an optional
    sign [+] or [-], a longest run of decimal digits, at least one, and a
    rest that is not looked at; [n] is the value of the digits taken with
    the sign. *)
Definition reads_integer (s : jsstring) (n : Z) : Prop :=
  exists ws sign ds rest,
    s = ws ++ sign ++ ds ++ rest
    /\ Forall (fun c => is_white_space c = true) ws
    /\ (sign = [] \/ sign = js "+" \/ sign = js "-")
    /\ ds <> []
    /\ Forall (fun c => is_digit c = true) ds
    /\ match rest with [] => True | c :: _ => is_digit c = false end
    /\ n = if bool_decide (sign = js "-") then - decimal ds else decimal ds.

(** A string that is a base-10 integer and nothing else: an optional sign
    and then decimal digits, at least one, up to the end. *)
Definition base10_integer (s : jsstring) : bool :=
  let digits := match s with
                | c :: rest =>
                    if (c =? code "-") || (c =? code "+") then rest else s
                | [] => []
                end in
  match digits with
  | [] => false
  | _ => forallb is_digit digits
  end.

(** [x] is the number of the integer [n]: the nearest number, and for
    [n = 0] also the negative zero. *)
Definition number_of (n : Z) (x : number) : Prop :=
  x = Number_of_Z n \/ (n = 0 /\ x = neg_zero).

(** Percent-encoding as a total function: every code point outside the
    unescaped set is replaced by the escaped octets of its UTF-8 encoding. *)
Definition percent_encode (s : jsstring) : jsstring :=
  flat_map (fun cp => if uriUnescaped cp then [cp]
                      else flat_map pct_octet (utf8_encode_cp cp))
           (code_points s).

(** A code unit that percent-encoding can produce: Basic Latin, and neither
    of the two separators of a query string. *)
Definition plain (c : Z) : Prop :=
  0 <= c < 128 /\ c <> code "&" /\ c <> code "=".

(** Neither the key nor the text of the value has an unpaired surrogate. *)
Definition well_formed_field (kv : jsstring * value) : bool :=
  isWellFormed (fst kv) && isWellFormed (String_ (snd kv)).

(** The text [key=value] of one field. *)
Definition entry_text (kv : jsstring * value) : jsstring :=
  percent_encode (fst kv) ++ js "=" ++ percent_encode (String_ (snd kv)).

(** The keys of an encoded payload: what stands before the first [=] in
    each piece between [&]. *)
Definition emitted_keys (out : jsstring) : list jsstring :=
  map (fun piece => hd [] (split (code "=") piece)) (split (code "&") out).

(** An optional field of a request description that is not set. *)
Definition unset (o : option jsstring) : Prop := o = None \/ o = Some [].

(** The optional fields of a request description with their protocol keys. *)
Definition optional_fields (options : CreatePaymentOptions)
  : list (jsstring * option jsstring) :=
  [(js "p_email", customerEmail options);
   (js "p_firstname", customerFirstName options);
   (js "p_lastname", customerLastName options);
   (js "paytext", paymentDescription options);
   (js "lang", language options)].

(** The integer a number denotes, when it denotes one. *)
Definition integer_value (x : number) : option Z :=
  match x with
  | S754_zero _ => Some 0
  | S754_finite s m e =>
      let sign := if s then -1 else 1 in
      if 0 <=? e then Some (sign * (Z.pos m * 2 ^ e))
      else if Z.pos m mod 2 ^ (- e) =? 0 then Some (sign * (Z.pos m / 2 ^ (- e)))
      else None
  | _ => None
  end.

(** The integer nearest to [m × 2^e] taken with sign [s], a tie going
    towards +∞: the floor of the value plus one half. *)
Definition round_half_up (s : bool) (m : positive) (e : Z) : Z :=
  let sign := if s then -1 else 1 in
  if 0 <=? e then sign * (Z.pos m * 2 ^ e)
  else (sign * (2 * Z.pos m) + 2 ^ (- e)) / (2 * 2 ^ (- e)).

(** The number 10.5, that is 5910974510923776 / 2^49. *)
Definition ten_and_a_half : number := S754_finite false 5910974510923776 (-49).

(** The 32 hexadecimal digits of an identifier. *)
Definition uuid_hex (e : entropy) : jsstring := flat_map byteToHex (v7Bytes e).

Definition is_hex_lower (c : Z) : bool :=
  is_digit c || between (code "a") (code "f") c.

End Props.

(* ===================================================================== *)
(** * Vocabulary of the wire format *)
(* ===================================================================== *)

Module Wire.
Import JS Errors URI Num Crypto Uuid Types RequestBuilder CallbackHandler Client Props.

(** A string proper: 16-bit code units and no unpaired surrogate. *)
Definition text (s : jsstring) : Prop :=
  code_units s = true /\ isWellFormed s = true.

(** A field whose key and string value are strings proper. *)
Definition field_text (kv : jsstring * value) : Prop :=
  text (fst kv) /\ match snd kv with VString s => text s | _ => True end.

(** What the callback parser keeps of one field: nothing under an empty
    key, otherwise the text of the value under the key. *)
Definition stored (m : gmap jsstring jsstring) (kv : jsstring * value)
  : gmap jsstring jsstring :=
  if truthy (fst kv) then set_property (fst kv) (String_ (snd kv)) m else m.

(** The mapping a parameter object reads back as: its present fields, in
    order, a later field replacing an earlier one of the same key. *)
Definition fields_map (params : PayseraRequestParams) : gmap jsstring jsstring :=
  fold_left stored (List.filter (fun kv => present (snd kv)) params) ∅.

(** The alphabet of URL-safe Base64, without the padding. *)
Definition is_base64url (c : Z) : bool :=
  is_alnum c || (c =? code "-") || (c =? code "_").

(** The padding after the digits of [n] octets. *)
Definition padding (n : nat) : jsstring :=
  match (n mod 3)%nat with
  | 1%nat => js "=="
  | 2%nat => js "="
  | _ => []
  end.

(** A string field as the request carries it: absent when empty. *)
Definition nonempty (s : jsstring) : option jsstring :=
  if truthy s then Some s else None.

(** The strings of a request description are strings proper. *)
Definition request_text (this : PayseraClient) (options : CreatePaymentOptions) : Prop :=
  text (projectId (config this))
  /\ text (currency options)
  /\ text (acceptUrl (urls options))
  /\ text (cancelUrl (urls options))
  /\ text (callbackUrl (urls options))
  /\ Forall (fun ko => match snd ko with Some s => text s | None => True end)
            (optional_fields options).

(** The keys a payment request can carry. *)
Definition request_keys : list jsstring :=
  [js "projectid"; js "orderid"; js "accepturl"; js "cancelurl"; js "callbackurl";
   js "version"; js "amount"; js "currency"; js "test";
   js "p_email"; js "p_firstname"; js "p_lastname"; js "paytext"; js "lang"].

(** [toUpperCase] as it acts on Basic Latin: [a-z] to [A-Z]. *)
Definition toUpperCase_latin (s : jsstring) : jsstring :=
  map (fun c => if between (code "a") (code "z") c then c - 32 else c) s.

(** Basic Latin. *)
Definition is_ascii (c : Z) : Prop := 0 <= c < 128.

(** The fields of a callback that [parseCallbackData] reads. *)
Definition callback_keys : list jsstring :=
  required ++ [js "paytext"; js "name"; js "surename"; js "payment"; js "country";
               js "test"].

End Wire.

(* ===================================================================== *)
(** * Platform: JSON.parse and JSON.stringify *)
(* ===================================================================== *)

Module Json.
Import JS Errors URI Crypto.

(** The values [JSON.parse] returns.  An object is the list of its members
    as the text gives them; reading a property takes the last member of
    that name, since a later member replaces the value of an earlier one.
    A number is kept as its literal: the code below looks at a number only
    to tell its type. *)
Inductive json :=
| JNull
| JBool (b : bool)
| JNumber (literal : jsstring)
| JString (s : jsstring)
| JArray (items : list json)
| JObject (members : list (jsstring * json)).

(** [object[key]] for an own property. *)
Fixpoint get (members : list (jsstring * json)) (key : jsstring) : option json :=
  match members with
  | [] => None
  | (k, v) :: rest =>
      match get rest key with
      | Some later => Some later
      | None => if bool_decide (k = key) then Some v else None
      end
  end.

Definition quotation_mark : Z := 0x22.
Definition reverse_solidus : Z := 0x5C.

(** JSONWhiteSpace: tab, line feed, carriage return, space. *)
Definition is_ws (c : Z) : bool :=
  (c =? 0x09) || (c =? 0x0A) || (c =? 0x0D) || (c =? 0x20).

Fixpoint skip_ws (s : jsstring) : jsstring :=
  match s with
  | c :: s' => if is_ws c then skip_ws s' else s
  | [] => []
  end.

(** The character a one-letter escape stands for. *)
Definition escape_char (e : Z) : option Z :=
  if e =? quotation_mark then Some quotation_mark
  else if e =? reverse_solidus then Some reverse_solidus
  else if e =? code "/" then Some (code "/")
  else if e =? code "b" then Some 0x08
  else if e =? code "f" then Some 0x0C
  else if e =? code "n" then Some 0x0A
  else if e =? code "r" then Some 0x0D
  else if e =? code "t" then Some 0x09
  else None.

(** The characters of a JSONString after its opening quotation mark, up to
    the closing one: the string denoted and the text that follows. *)
Fixpoint parse_chars (s : jsstring) : option (jsstring * jsstring) :=
  match s with
  | [] => None
  | c :: s' =>
      if c =? quotation_mark then Some ([], s')
      else if c =? reverse_solidus then
        match s' with
        | [] => None
        | e :: s'' =>
            if e =? code "u" then
              match s'' with
              | h1 :: h2 :: h3 :: h4 :: s3 =>
                  match hex_value h1, hex_value h2, hex_value h3, hex_value h4 with
                  | Some a, Some b, Some c', Some d =>
                      match parse_chars s3 with
                      | Some (r, rest) =>
                          Some ((((a * 16 + b) * 16 + c') * 16 + d) :: r, rest)
                      | None => None
                      end
                  | _, _, _, _ => None
                  end
              | _ => None
              end
            else
              match escape_char e with
              | Some x =>
                  match parse_chars s'' with
                  | Some (r, rest) => Some (x :: r, rest)
                  | None => None
                  end
              | None => None
              end
        end
      else if c <? 0x20 then None
      else
        match parse_chars s' with
        | Some (r, rest) => Some (c :: r, rest)
        | None => None
        end
  end.

(** The longest run of decimal digits at the start. *)
Fixpoint digits_run (s : jsstring) : jsstring * jsstring :=
  match s with
  | c :: s' =>
      if is_digit c then let '(ds, rest) := digits_run s' in (c :: ds, rest)
      else ([], s)
  | [] => ([], [])
  end.

(** JSONNumber: an optional minus sign; then a zero, or a digit from 1 to
    9 followed by any digits; then optionally a point and one digit or
    more; then optionally [e] or [E], an optional sign, and one digit or
    more.  The literal read and the text that follows. *)
Definition parse_number (s : jsstring) : option (jsstring * jsstring) :=
  let '(sign, s1) :=
    match s with
    | c :: r => if c =? code "-" then ([c], r) else ([], s)
    | [] => ([], [])
    end in
  match s1 with
  | [] => None
  | c :: r =>
      if is_digit c then
        let '(int, s2) := if c =? code "0" then ([c], r) else digits_run s1 in
        let frac :=
          match s2 with
          | p :: r2 =>
              if p =? code "." then
                match digits_run r2 with
                | ([], _) => None
                | (ds, s3) => Some (p :: ds, s3)
                end
              else Some ([], s2)
          | [] => Some ([], [])
          end in
        match frac with
        | None => None
        | Some (fr, s3) =>
            let expo :=
              match s3 with
              | e :: r3 =>
                  if (e =? code "e") || (e =? code "E") then
                    let '(sg, r4) :=
                      match r3 with
                      | g :: r4 =>
                          if (g =? code "+") || (g =? code "-") then ([g], r4)
                          else ([], r3)
                      | [] => ([], [])
                      end in
                    match digits_run r4 with
                    | ([], _) => None
                    | (ds, s4) => Some (e :: sg ++ ds, s4)
                    end
                  else Some ([], s3)
              | [] => Some ([], [])
              end in
            match expo with
            | None => None
            | Some (ex, s4) => Some (sign ++ int ++ fr ++ ex, s4)
            end
        end
      else None
  end.

(** [s] starts with the word [w]: what follows the word. *)
Fixpoint after_word (w s : jsstring) : option jsstring :=
  match w with
  | [] => Some s
  | a :: w' =>
      match s with
      | c :: s' => if c =? a then after_word w' s' else None
      | [] => None
      end
  end.

(** JSONValue, the members of an object after its opening brace or a comma,
    and the elements of an array after its opening bracket or a comma.
    A nested array or object takes two units of [fuel] and has two
    characters at least, a further member or element takes one unit and
    has two characters at least, so the length of the text is enough
    fuel. *)
Fixpoint parse_value (fuel : nat) (s : jsstring) : option (json * jsstring) :=
  match fuel with
  | O => None
  | S fuel' =>
      match skip_ws s with
      | [] => None
      | c :: r =>
          if c =? quotation_mark then
            match parse_chars r with
            | Some (str, rest) => Some (JString str, rest)
            | None => None
            end
          else if c =? code "{" then
            match skip_ws r with
            | d :: r' =>
                if d =? code "}" then Some (JObject [], r')
                else
                  match parse_members fuel' (d :: r') with
                  | Some (ms, rest) => Some (JObject ms, rest)
                  | None => None
                  end
            | [] => None
            end
          else if c =? code "[" then
            match skip_ws r with
            | d :: r' =>
                if d =? code "]" then Some (JArray [], r')
                else
                  match parse_elements fuel' (d :: r') with
                  | Some (vs, rest) => Some (JArray vs, rest)
                  | None => None
                  end
            | [] => None
            end
          else if c =? code "t" then
            match after_word (js "rue") r with
            | Some rest => Some (JBool true, rest)
            | None => None
            end
          else if c =? code "f" then
            match after_word (js "alse") r with
            | Some rest => Some (JBool false, rest)
            | None => None
            end
          else if c =? code "n" then
            match after_word (js "ull") r with
            | Some rest => Some (JNull, rest)
            | None => None
            end
          else
            match parse_number (c :: r) with
            | Some (lit, rest) => Some (JNumber lit, rest)
            | None => None
            end
      end
  end

with parse_members (fuel : nat) (s : jsstring)
  : option (list (jsstring * json) * jsstring) :=
  match fuel with
  | O => None
  | S fuel' =>
      match skip_ws s with
      | c :: r =>
          if c =? quotation_mark then
            match parse_chars r with
            | Some (key, s1) =>
                match skip_ws s1 with
                | colon :: s2 =>
                    if colon =? code ":" then
                      match parse_value fuel' s2 with
                      | Some (v, s3) =>
                          match skip_ws s3 with
                          | d :: s4 =>
                              if d =? code "}" then Some ([(key, v)], s4)
                              else if d =? code "," then
                                match parse_members fuel' s4 with
                                | Some (ms, rest) => Some ((key, v) :: ms, rest)
                                | None => None
                                end
                              else None
                          | [] => None
                          end
                      | None => None
                      end
                    else None
                | [] => None
                end
            | None => None
            end
          else None
      | [] => None
      end
  end

with parse_elements (fuel : nat) (s : jsstring) : option (list json * jsstring) :=
  match fuel with
  | O => None
  | S fuel' =>
      match parse_value fuel' s with
      | Some (v, s1) =>
          match skip_ws s1 with
          | d :: s2 =>
              if d =? code "]" then Some ([v], s2)
              else if d =? code "," then
                match parse_elements fuel' s2 with
                | Some (vs, rest) => Some (v :: vs, rest)
                | None => None
                end
              else None
          | [] => None
          end
      | None => None
      end
  end.

(** [JSON.parse(text)]; [None] stands for the [SyntaxError] it throws. *)
Definition JSON_parse (text : jsstring) : option json :=
  match parse_value (S (length text)) text with
  | Some (v, rest) => match skip_ws rest with [] => Some v | _ => None end
  | None => None
  end.

(** Four lowercase hexadecimal digits of a code unit. *)
Definition hex4 (c : Z) : jsstring :=
  [hex_lower ((c / 4096) mod 16); hex_lower ((c / 256) mod 16);
   hex_lower ((c / 16) mod 16); hex_lower (c mod 16)].

(** QuoteJSONString, one code point: the two-character escapes, a [\u]
    escape for the other control characters and for an unpaired surrogate,
    the code point itself otherwise. *)
Definition quote_code_point (cp : Z) : jsstring :=
  if cp =? 0x08 then [reverse_solidus; code "b"]
  else if cp =? 0x09 then [reverse_solidus; code "t"]
  else if cp =? 0x0A then [reverse_solidus; code "n"]
  else if cp =? 0x0C then [reverse_solidus; code "f"]
  else if cp =? 0x0D then [reverse_solidus; code "r"]
  else if cp =? quotation_mark then [reverse_solidus; quotation_mark]
  else if cp =? reverse_solidus then [reverse_solidus; reverse_solidus]
  else if (cp <? 0x20) || is_surrogate cp then [reverse_solidus; code "u"] ++ hex4 cp
  else utf16_encode_cp cp.

Definition quote (s : jsstring) : jsstring :=
  [quotation_mark] ++ flat_map quote_code_point (code_points s) ++ [quotation_mark].

End Json.

(* ===================================================================== *)
(** * Platform: the schema library, as far as the configuration uses it *)
(* ===================================================================== *)

Module Zod.
Import JS Errors Json RequestBuilder.

(** The name of the type of a value as the library reports it; [None] is
    [undefined]. *)
Definition parsed_type (v : option json) : jsstring :=
  match v with
  | None => js "undefined"
  | Some JNull => js "null"
  | Some (JBool _) => js "boolean"
  | Some (JNumber _) => js "number"
  | Some (JString _) => js "string"
  | Some (JArray _) => js "array"
  | Some (JObject _) => js "object"
  end.

(** The message of an [invalid_type] issue. *)
Definition invalid_type (expected : jsstring) (v : option json) : jsstring :=
  match v with
  | None => js "Required"
  | Some _ => js "Expected " ++ expected ++ js ", received " ++ parsed_type v
  end.

(** The outcome of parsing one value: the data, or the messages of the
    issues found. *)
Definition parsed (A : Type) : Type := A + list jsstring.

Definition issues {A} (r : parsed A) : list jsstring :=
  match r with inl _ => [] | inr ms => ms end.

(** [z.string().min(1, message)]. *)
Definition string_min_1 (message : jsstring) (v : option json) : parsed jsstring :=
  match v with
  | Some (JString s) =>
      if Z.of_nat (length s) <? 1 then inr [message] else inl s
  | _ => inr [invalid_type (js "string") v]
  end.

(** [z.boolean().default(d)]. *)
Definition boolean_default (d : bool) (v : option json) : parsed bool :=
  match v with
  | None => inl d
  | Some (JBool b) => inl b
  | _ => inr [invalid_type (js "boolean") v]
  end.

End Zod.

(* ===================================================================== *)
(** * paysera-config.ts *)
(* ===================================================================== *)

Module Config.
Import JS Errors Json Zod Types RequestBuilder.

Definition PAYSERA_CONFIG_KEY : jsstring := js "paysera_config".

(** [payseraConfigSchema.safeParse(input)]: the fields are parsed in the
    order of the schema and the issues of all of them are reported; keys
    the schema does not name are dropped. *)
Definition payseraConfigSchema (input : json) : parsed PayseraConfig :=
  match input with
  | JObject members =>
      let projectId := string_min_1 (js "Project ID is required")
                         (get members (js "projectId")) in
      let password := string_min_1 (js "Password is required")
                        (get members (js "password")) in
      let testMode := boolean_default true (get members (js "testMode")) in
      match projectId, password, testMode with
      | inl p, inl w, inl t =>
          inl {| Types.projectId := p; Types.password := w; Types.testMode := t |}
      | _, _, _ => inr (issues projectId ++ issues password ++ issues testMode)
      end
  | _ => inr [invalid_type (js "object") (Some input)]
  end.

Record MetadataItem := {
  key : jsstring;
  value : jsstring
}.

(** [privateMetadata] is [None] when it is [null] or [undefined]. *)
Definition getPayseraConfigFromMetadata (privateMetadata : option (list MetadataItem))
  : result PayseraConfig :=
  match privateMetadata with
  | None | Some [] => Throw (PayseraConfigError (js "No private metadata found"))
  | Some items =>
      match List.find (fun item => str_eqb (key item) PAYSERA_CONFIG_KEY) items with
      | None =>
          Throw (PayseraConfigError (js "Paysera configuration not found in metadata"))
      | Some configEntry =>
          match JSON_parse (value configEntry) with
          | None => Throw (PayseraConfigError (js "Invalid JSON in Paysera configuration"))
          | Some parsed =>
              match payseraConfigSchema parsed with
              | inr errors =>
                  let errorMessages := join (js ", ") errors in
                  Throw (PayseraConfigError
                           (js "Invalid Paysera configuration: " ++ errorMessages))
              | inl data => Ok data
              end
          end
      end
  end.

(** [JSON.stringify(config)] for a configuration object: its three
    properties in the order the callers create them. *)
Definition JSON_stringify (config : PayseraConfig) : jsstring :=
  js "{" ++ quote (js "projectId") ++ js ":" ++ quote (projectId config)
  ++ js "," ++ quote (js "password") ++ js ":" ++ quote (password config)
  ++ js "," ++ quote (js "testMode") ++ js ":"
  ++ (if testMode config then js "true" else js "false") ++ js "}".

Definition serializePayseraConfig (config : PayseraConfig) : MetadataItem :=
  {| key := PAYSERA_CONFIG_KEY; value := JSON_stringify config |}.

Definition getPayseraConfigKey : jsstring := PAYSERA_CONFIG_KEY.

(** [s.slice(start, end)]; [end_] is [None] when the argument is left out. *)
Definition slice (start : Z) (end_ : option Z) (s : jsstring) : jsstring :=
  let len := Z.of_nat (length s) in
  let clamp i := if i <? 0 then Z.max (len + i) 0 else Z.min i len in
  let from := clamp start in
  let to := match end_ with Some e => clamp e | None => len end in
  take (Z.to_nat (Z.max (to - from) 0)) (drop (Z.to_nat from) s).

Definition maskPassword (password : jsstring) : jsstring :=
  if Z.of_nat (length password) <=? 4 then js "****"
  else slice 0 (Some 2) password ++ js "****" ++ slice (-2) None password.

End Config.

(* ===================================================================== *)
(** * pages/api/paysera/callback.ts *)
(* ===================================================================== *)

Module CallbackRoute.
Import JS Errors URI Num Uuid Types RequestBuilder CallbackHandler Client Json Config.

(** A value of [req.query]: a string, or an array of strings when the name
    occurs more than once. *)
Inductive QueryValue :=
| QString (s : jsstring)
| QArray (l : list jsstring).

(** The request, as far as the route reads it: [query name] is
    [req.query[name]], [None] when it is [undefined]. *)
Record NextApiRequest := {
  query : jsstring -> option QueryValue
}.

(** What the route answers. *)
Inductive Response :=
| Send (status : Z) (body : jsstring)
| Redirect (status : Z) (url : jsstring).

Inductive TransactionEventTypeEnum :=
| ChargeSuccess
| ChargeRequest
| ChargeFailure.

Inductive TransactionActionEnum :=
| Refund.

(** The variables of the [TransactionEventReport] mutation. *)
Record ReportVariables := {
  id : jsstring;
  amount : number;
  type : TransactionEventTypeEnum;
  pspReference : jsstring;
  message : jsstring;
  availableActions : list TransactionActionEnum
}.

Record AuthData := {
  token : jsstring
}.

Record App := {
  privateMetadata : option (list MetadataItem)
}.

(** The result of the [FetchAppDetails] query: the error, when there is
    one, and [data.app], [None] when [data] or [app] is missing. *)
Record AppDetailsResult := {
  query_error : option jsstring;
  app : option App
}.

(** The result of the mutation: the transport error, when there is one,
    and what [data.transactionEventReport] holds. *)
Record ReportResult := {
  report_error : option jsstring;
  errors : list jsstring;
  alreadyProcessed : bool
}.

(** What the route meets outside itself: the environment variable, the
    store of authentication data, the two GraphQL operations of the client
    made for a Saleor API URL and a token, and what [uuidv7()] draws. *)
Record World := {
  STOREFRONT_URL : option jsstring;
  apl_get : jsstring -> option AuthData;
  fetchAppDetails : jsstring -> jsstring -> AppDetailsResult;
  transactionEventReport : jsstring -> jsstring -> ReportVariables -> ReportResult;
  fresh : entropy
}.

(** The calls made to the outside, in order. *)
Inductive Call :=
| AplGet (saleorApiUrl : jsstring)
| FetchAppDetails (saleorApiUrl token : jsstring)
| TransactionEventReport (saleorApiUrl token : jsstring) (variables : ReportVariables).

(** A run of the route: the calls it made, and the response it sent or the
    exception its promise was rejected with.  Writing to the log is left
    out. *)
Definition Outcome : Type := list Call * result Response.

Definition num_div (x y : number) : number := SFdiv prec emax x y.

Definition getRedirectUrl (w : World) (success : bool) : jsstring :=
  let storefrontUrl :=
    match STOREFRONT_URL w with
    | Some s => if truthy s then s else []
    | None => []
    end in
  if success then storefrontUrl ++ js "/checkout/success"
  else storefrontUrl ++ js "/checkout/cancel".

Definition handleAcceptRedirect (w : World) (req : NextApiRequest)
  (transactionId : jsstring) : Outcome :=
  ([], Ok (Redirect 302 (getRedirectUrl w true))).

Definition handleCancelRedirect (w : World) (req : NextApiRequest)
  (transactionId : jsstring) : Outcome :=
  ([], Ok (Redirect 302 (getRedirectUrl w false))).

(** [!v] for a value of the query: an array is truthy, even an empty one. *)
Definition falsy (v : option QueryValue) : bool :=
  match v with
  | None => true
  | Some (QString s) => negb (truthy s)
  | Some (QArray _) => false
  end.

(** [Array.isArray(v) ? v[0] : v]. *)
Definition first (v : option QueryValue) : option jsstring :=
  match v with
  | None => None
  | Some (QString s) => Some s
  | Some (QArray l) => head l
  end.

(** The event type and the message for a decoded callback. *)
Definition classify (payseraClient : PayseraClient) (callbackData : PayseraCallbackData)
  : TransactionEventTypeEnum * jsstring :=
  if isPaymentSuccessful callbackData then
    (ChargeSuccess, js "Payment completed successfully")
  else if num_eqb (status callbackData) PayseraStatus.PENDING then
    (ChargeRequest, js "Payment pending")
  else if num_eqb (status callbackData) PayseraStatus.ACCEPTED_NOT_EXECUTED then
    (ChargeRequest, js "Payment accepted, waiting for execution")
  else (ChargeFailure, js "Payment failed").

Section Locale.

Variable toLowerCase : jsstring -> jsstring.

(** An [undefined] first element is passed on as it is; [processCallback]
    tests it for falsiness first, as it does the empty string, which stands
    for it here. *)
Definition handleServerCallback (w : World) (req : NextApiRequest)
  (transactionId saleorApiUrl : jsstring) : Outcome :=
  match apl_get w saleorApiUrl with
  | None => ([AplGet saleorApiUrl], Ok (Send 400 (js "Invalid Saleor API URL")))
  | Some authData =>
      let appResult := fetchAppDetails w saleorApiUrl (token authData) in
      let calls := [AplGet saleorApiUrl; FetchAppDetails saleorApiUrl (token authData)] in
      match query_error appResult, app appResult with
      | Some _, _ | None, None =>
          (calls, Ok (Send 500 (js "Failed to fetch app configuration")))
      | None, Some theApp =>
          match getPayseraConfigFromMetadata (privateMetadata theApp) with
          | Throw _ => (calls, Ok (Send 500 (js "Paysera not configured")))
          | Ok payseraConfig =>
              match new_PayseraClient payseraConfig with
              | Throw e => (calls, Throw e)
              | Ok payseraClient =>
                  let data := query req (js "data") in
                  let ss1 := query req (js "ss1") in
                  if falsy data || falsy ss1 then
                    (calls, Ok (Send 400 (js "Missing callback data")))
                  else
                    match processCallback toLowerCase payseraClient
                            {| CallbackHandler.data := default [] (first data);
                               CallbackHandler.ss1 := default [] (first ss1);
                               CallbackHandler.ss2 := None |} with
                    | Throw (PayseraSignatureError _) =>
                        (calls, Ok (Send 400 (js "Invalid signature")))
                    | Throw (PayseraCallbackDataError _) =>
                        (calls, Ok (Send 400 (js "Invalid callback data")))
                    | Throw e => (calls, Throw e)
                    | Ok callbackData =>
                        let '(eventType, message) := classify payseraClient callbackData in
                        let pspReference := uuidv7 (fresh w) in
                        let amount := num_div (Types.amount callbackData) (Number_of_Z 100) in
                        let availableActions :=
                          match eventType with
                          | ChargeSuccess => [Refund]
                          | _ => []
                          end in
                        let variables :=
                          {| id := transactionId; amount := amount; type := eventType;
                             pspReference := pspReference; message := message;
                             availableActions := availableActions |} in
                        let reportResult :=
                          transactionEventReport w saleorApiUrl (token authData) variables in
                        let calls' :=
                          calls ++ [TransactionEventReport saleorApiUrl (token authData)
                                      variables] in
                        match report_error reportResult with
                        | Some _ => (calls', Ok (Send 500 (js "Failed to report event")))
                        | None => (calls', Ok (Send 200 (js "OK")))
                        end
                    end
              end
          end
      end
  end.

(** The default export.  [decodeURIComponent] is applied to the Saleor API
    URL before anything is checked; of an empty array its argument is
    [undefined], which it reads as the text "undefined". *)
Definition handler (w : World) (req : NextApiRequest) : Outcome :=
  let action := query req (js "action") in
  let transactionId := query req (js "transactionId") in
  let saleorApiUrl := query req (js "saleorApiUrl") in
  let actionStr := first action in
  let transactionIdStr := first transactionId in
  let saleorApiUrlStr : result (option jsstring) :=
    match saleorApiUrl with
    | Some (QArray l) => Some <$> decodeURIComponent (default (js "undefined") (head l))
    | Some (QString s) => if truthy s then Some <$> decodeURIComponent s else Ok None
    | None => Ok None
    end in
  match saleorApiUrlStr with
  | Throw e => ([], Throw e)
  | Ok saleorApiUrlStr =>
      match transactionIdStr with
      | None | Some [] => ([], Ok (Send 400 (js "Missing transactionId")))
      | Some transactionIdStr =>
          if bool_decide (actionStr = Some (js "accept")) then
            handleAcceptRedirect w req transactionIdStr
          else if bool_decide (actionStr = Some (js "cancel")) then
            handleCancelRedirect w req transactionIdStr
          else if bool_decide (actionStr = Some (js "callback")) then
            match saleorApiUrlStr with
            | None | Some [] => ([], Ok (Send 400 (js "Missing saleorApiUrl")))
            | Some saleorApiUrlStr =>
                handleServerCallback w req transactionIdStr saleorApiUrlStr
            end
          else ([], Ok (Send 400 (js "Unknown action")))
      end
  end.

End Locale.

End CallbackRoute.

(* ===================================================================== *)
(** * pages/api/webhooks/transaction-initialize-session.ts *)
(* ===================================================================== *)

Module InitializeSession.
Import JS Errors URI Num Uuid Types RequestBuilder CallbackHandler Client Json Config.

(** [process.env], as far as the webhook reads it. *)
Record Env := {
  APP_API_BASE_URL : option jsstring;
  NODE_ENV : option jsstring
}.

(** [req.headers.host]. *)
Record Request := {
  host : option jsstring
}.

Inductive TransactionFlowStrategyEnum :=
| Authorization
| Charge.

Record Action := {
  actionType : TransactionFlowStrategyEnum;
  amount : number;
  currency : jsstring
}.

Record Address := {
  firstName : jsstring;
  lastName : jsstring
}.

(** The checkout or order the payment is for.  A property the object does
    not have, or has as [null], is [None]. *)
Record SourceObject := {
  email : option jsstring;
  userEmail : option jsstring;
  billingAddress : option Address;
  languageCode : option jsstring
}.

Record Recipient := {
  privateMetadata : option (list MetadataItem)
}.

(** The payload of the event; [transaction_id] is [payload.transaction.id]. *)
Record Payload := {
  action : Action;
  recipient : option Recipient;
  transaction_id : jsstring;
  sourceObject : option SourceObject;
  merchantReference : option jsstring
}.

(** The context of the call; [saleorApiUrl] is [ctx.authData.saleorApiUrl]. *)
Record Context := {
  saleorApiUrl : jsstring;
  payload : Payload
}.

Inductive ResponseData :=
| ErrorData (error : jsstring)
| OrderData (payseraOrderId : jsstring).

Record ResponseType := {
  pspReference : jsstring;
  result_ : jsstring;
  message : jsstring;
  response_amount : number;
  actions : list jsstring;
  externalUrl : option jsstring;
  data : ResponseData
}.

(** [`${v}`] for a string that may be [undefined]. *)
Definition template (v : option jsstring) : jsstring := default (js "undefined") v.

(** [v] when it is a string that is not empty. *)
Definition truthy_string (v : option jsstring) : option jsstring :=
  match v with
  | Some s => if truthy s then Some s else None
  | None => None
  end.

Definition getExternalApiBaseUrl (env : Env) (req : Request) : jsstring :=
  match truthy_string (APP_API_BASE_URL env) with
  | Some url => url
  | None =>
      let protocol :=
        if bool_decide (NODE_ENV env = Some (js "production")) then js "https"
        else js "http" in
      protocol ++ js "://" ++ template (host req)
  end.

Definition customerEmail (sourceObject : option SourceObject) : option jsstring :=
  match sourceObject with
  | Some so =>
      match truthy_string (email so) with
      | Some e => Some e
      | None => truthy_string (userEmail so)
      end
  | None => None
  end.

(** The three URLs given to the gateway differ by the action only. *)
Definition callbackUrlFor (action baseUrl transactionId saleorApiUrl : jsstring) : jsstring :=
  baseUrl ++ js "/api/paysera/callback?action=" ++ action ++ js "&transactionId="
  ++ transactionId ++ js "&saleorApiUrl=" ++ saleorApiUrl.

Section Outside.

(** [String.prototype.toLowerCase], [getTransactionActions] of
    [lib/transaction-actions], and the message of the [URIError] the engine
    throws are parameters. *)
Variable toLowerCase : jsstring -> jsstring.
Variable getTransactionActions : jsstring -> list jsstring.
Variable uri_error_message : jsstring.

(** [error.message]. *)
Definition message_of (e : exn) : jsstring :=
  match e with
  | PayseraError m | PayseraSignatureError m | PayseraConfigError m
  | PayseraCallbackDataError m => m
  | URIError => uri_error_message
  end.

(** [languageCode.toString().split("_")[0].toLowerCase()]. *)
Definition language (sourceObject : option SourceObject) : option jsstring :=
  match sourceObject with
  | Some so =>
      match truthy_string (languageCode so) with
      | Some code_ => Some (toLowerCase (hd [] (split (code "_") code_)))
      | None => None
      end
  | None => None
  end.

Definition failure (action : Action) : jsstring :=
  match actionType action with
  | Charge => js "CHARGE_FAILURE"
  | Authorization => js "AUTHORIZATION_FAILURE"
  end.

(** The argument of [createPaymentRequest]; [saleorApiUrl] is the Saleor
    API URL after [encodeURIComponent]. *)
Definition paymentOptions (env : Env) (req : Request) (ctx : Context)
  (saleorApiUrl : jsstring) : CreatePaymentOptions :=
  let payload := payload ctx in
  let baseUrl := getExternalApiBaseUrl env req in
  let transactionId := transaction_id payload in
  let billing := sourceObject payload ≫= billingAddress in
  {| Client.transactionId := transactionId;
     Client.amount := amount (action payload);
     Client.currency := currency (action payload);
     urls := {| acceptUrl := callbackUrlFor (js "accept") baseUrl
                               transactionId saleorApiUrl;
                cancelUrl := callbackUrlFor (js "cancel") baseUrl
                               transactionId saleorApiUrl;
                callbackUrl := callbackUrlFor (js "callback") baseUrl
                                 transactionId saleorApiUrl |};
     Client.customerEmail := customerEmail (sourceObject payload);
     customerFirstName := firstName <$> billing;
     customerLastName := lastName <$> billing;
     paymentDescription :=
       Some (js "Payment for order "
             ++ default transactionId (truthy_string (merchantReference payload)));
     Client.language := language (sourceObject payload) |}.

(** The handler given to [createHandler]: the status and the body of the
    answer, or the exception thrown.  [fresh1] is drawn by the webhook for
    the reference, [fresh2] by the client for the order id. *)
Definition handler (env : Env) (req : Request) (ctx : Context) (fresh1 fresh2 : entropy)
  : result (Z * ResponseType) :=
  let payload := payload ctx in
  let pspReference := uuidv7 fresh1 in
  match getPayseraConfigFromMetadata
          (match recipient payload with
           | Some r => privateMetadata r
           | None => None
           end) with
  | Throw error =>
      Ok (200,
          {| pspReference := pspReference;
             result_ := failure (action payload);
             message := match error with
                        | PayseraConfigError m => m
                        | _ => js "Paysera payment gateway is not configured"
                        end;
             response_amount := amount (action payload);
             actions := [];
             externalUrl := None;
             data := ErrorData (js "CONFIGURATION_ERROR") |})
  | Ok payseraConfig =>
      payseraClient ← new_PayseraClient payseraConfig;
      saleorApiUrl ← encodeURIComponent (saleorApiUrl ctx);
      match createPaymentRequest payseraClient fresh2
              (paymentOptions env req ctx saleorApiUrl) with
      | Ok paymentRequest =>
          Ok (200,
              {| pspReference := pspReference;
                 result_ := js "CHARGE_ACTION_REQUIRED";
                 message := js "Redirect to Paysera to complete payment";
                 response_amount := amount (action payload);
                 actions := getTransactionActions (js "CHARGE_ACTION_REQUIRED");
                 externalUrl := Some (redirectUrl paymentRequest);
                 data := OrderData (orderId paymentRequest) |})
      | Throw error =>
          Ok (200,
              {| pspReference := pspReference;
                 result_ := failure (action payload);
                 message := message_of error;
                 response_amount := amount (action payload);
                 actions := [];
                 externalUrl := None;
                 data := ErrorData (js "PAYMENT_REQUEST_ERROR") |})
      end
  end.

End Outside.

End InitializeSession.

(* ===================================================================== *)
(** * server/routers/configuration.router.ts *)
(* ===================================================================== *)

Module ConfigurationRouter.
Import JS Errors Json Zod Types RequestBuilder Config.

(** [data.app] of the [FetchAppDetails] query, as far as the router reads
    it: [id] and [privateMetadata] are [None] when they are missing. *)
Record App := {
  id : option jsstring;
  privateMetadata : option (list MetadataItem)
}.

(** The result of the query: the error, when there is one, and [data.app],
    [None] when [data] or [app] is missing. *)
Record AppDetailsResult := {
  query_error : option jsstring;
  app : option App
}.

(** One of [data.updatePrivateMetadata.errors]; the message is [None] when
    it is [null]. *)
Record MetadataError := {
  message : option jsstring
}.

(** The result of the [UpdateAppPrivateMetadata] mutation: the transport
    error, when there is one, and [data?.updatePrivateMetadata?.errors],
    [None] when it is missing. *)
Record UpdateResult := {
  update_error : option jsstring;
  errors : option (list MetadataError)
}.

(** [ctx.apiClient], as the two procedures use it. *)
Record ApiClient := {
  fetchAppDetails : AppDetailsResult;
  updateAppPrivateMetadata : jsstring -> list MetadataItem -> UpdateResult
}.

(** The operations sent through the client, in order. *)
Inductive Call :=
| FetchAppDetails
| UpdateAppPrivateMetadata (id : jsstring) (input : list MetadataItem).

(** The errors of the procedures: the ones the router throws, with their
    message and cause, and the one the input parser throws, with the
    messages of the issues of its cause. *)
Inductive TRPCError :=
| INTERNAL_SERVER_ERROR (message : jsstring) (cause : option jsstring)
| BAD_REQUEST (issues : list jsstring).

Inductive reply (A : Type) :=
| Return (a : A)
| Rejected (e : TRPCError).
Arguments Return {A} a.
Arguments Rejected {A} e.

(** A run of a procedure: the operations it sent and what it answered.
    Writing to the log is left out. *)
Definition Outcome (A : Type) : Type := list Call * reply A.

Record ConfigView := {
  projectId : jsstring;
  testMode : bool;
  isConfigured : bool
}.

Definition getConfig (ctx : ApiClient) : Outcome ConfigView :=
  let result := fetchAppDetails ctx in
  ([FetchAppDetails],
   match query_error result with
   | Some error =>
       Rejected (INTERNAL_SERVER_ERROR (js "Failed to fetch app configuration")
                   (Some error))
   | None =>
       let privateMetadata := app result ≫= privateMetadata in
       match getPayseraConfigFromMetadata privateMetadata with
       | Ok config =>
           Return {| projectId := Types.projectId config;
                     testMode := Types.testMode config;
                     isConfigured := true |}
       | Throw _ =>
           Return {| projectId := []; testMode := true; isConfigured := false |}
       end
   end).

Record SaveResult := {
  success : bool
}.

(** The input parser of [saveConfig]: an object schema of the three field
    schemas of [payseraConfigSchema]. *)
Definition saveConfig_input : json -> parsed PayseraConfig := payseraConfigSchema.

(** [errors.map((e) => e.message).join(", ")]; [join] writes nothing for
    an element that is [null]. *)
Definition error_messages (errors : list MetadataError) : jsstring :=
  join (js ", ") (map (fun e => default [] (message e)) errors).

(** [saveConfig]: the input is parsed first, and the mutation runs on the
    parsed input. *)
Definition saveConfig (ctx : ApiClient) (rawInput : json) : Outcome SaveResult :=
  match saveConfig_input rawInput with
  | inr issues => ([], Rejected (BAD_REQUEST issues))
  | inl input =>
      let appResult := fetchAppDetails ctx in
      match query_error appResult with
      | Some error =>
          ([FetchAppDetails],
           Rejected (INTERNAL_SERVER_ERROR (js "Failed to fetch app details")
                       (Some error)))
      | None =>
          match app appResult ≫= id with
          | None | Some [] =>
              ([FetchAppDetails],
               Rejected (INTERNAL_SERVER_ERROR (js "App ID not found") None))
          | Some appId =>
              let configMetadata :=
                serializePayseraConfig
                  {| Types.projectId := Types.projectId input;
                     Types.password := Types.password input;
                     Types.testMode := Types.testMode input |} in
              let updateResult :=
                updateAppPrivateMetadata ctx appId [configMetadata] in
              let calls :=
                [FetchAppDetails; UpdateAppPrivateMetadata appId [configMetadata]] in
              match update_error updateResult with
              | Some error =>
                  (calls,
                   Rejected (INTERNAL_SERVER_ERROR
                               (js "Failed to save configuration") (Some error)))
              | None =>
                  match errors updateResult with
                  | Some (e :: es) =>
                      (calls,
                       Rejected (INTERNAL_SERVER_ERROR
                                   (error_messages (e :: es)) None))
                  | _ => (calls, Return {| success := true |})
                  end
              end
          end
      end
  end.

End ConfigurationRouter.

(* ===================================================================== *)
(** * The configuration page *)
(* ===================================================================== *)

Module ConfigurationPage.
Import JS Json.

(** The code units [String.prototype.trim] strips: white space (the
    tabulations, the form feed, the spaces of category Zs and the byte
    order mark) and the line terminators. *)
Definition is_white_space (c : Z) : bool :=
  (c =? 0x09) || (c =? 0x0B) || (c =? 0x0C) || (c =? 0x20) || (c =? 0xA0)
  || (c =? 0x1680) || between 0x2000 0x200A c || (c =? 0x202F)
  || (c =? 0x205F) || (c =? 0x3000) || (c =? 0xFEFF).

Definition is_line_terminator (c : Z) : bool :=
  (c =? 0x0A) || (c =? 0x0D) || (c =? 0x2028) || (c =? 0x2029).

Definition stripped (c : Z) : bool := is_white_space c || is_line_terminator c.

Fixpoint trimStart (s : jsstring) : jsstring :=
  match s with
  | [] => []
  | c :: rest => if stripped c then trimStart rest else s
  end.

Definition trimEnd (s : jsstring) : jsstring := rev (trimStart (rev s)).

Definition trim (s : jsstring) : jsstring := trimEnd (trimStart s).

Inductive SaveStatus :=
| idle
| saving
| success
| error.

(** The state of the component. *)
Record State := {
  projectId : jsstring;
  password : jsstring;
  testMode : bool;
  saveStatus : SaveStatus;
  errorMessage : jsstring
}.

(** What a rejected [mutateAsync] throws: an [Error] with its message, or
    something else. *)
Inductive Thrown :=
| AnError (message : jsstring)
| NotAnError.

(** What [handleSave] starts outside the component. *)
Inductive Effect :=
| MutateAsync (input : json)
| Refetch
| SetTimeout (ms : Z).

(** [handleSave], up to the moment the timer is set: [isConfigured] is
    [configQuery.data?.isConfigured], [None] when there is no data;
    [mutateAsync input] is [None] when the promise is fulfilled.  The
    result is what was started and the state the setters leave. *)
Definition handleSave (isConfigured : option bool)
  (mutateAsync : json -> option Thrown) (s : State) : list Effect * State :=
  if negb (truthy (trim (projectId s))) then
    ([], {| projectId := projectId s; password := password s;
            testMode := testMode s; saveStatus := error;
            errorMessage := js "Project ID is required" |})
  else if negb (truthy (trim (password s))) && negb (default false isConfigured) then
    ([], {| projectId := projectId s; password := password s;
            testMode := testMode s; saveStatus := error;
            errorMessage := js "Password is required" |})
  else
    let input :=
      JObject [(js "projectId", JString (trim (projectId s)));
               (js "password",
                JString (if truthy (trim (password s)) then trim (password s)
                         else js "unchanged"));
               (js "testMode", JBool (testMode s))] in
    match mutateAsync input with
    | None =>
        ([MutateAsync input; Refetch; SetTimeout 3000],
         {| projectId := projectId s; password := [];
            testMode := testMode s; saveStatus := success;
            errorMessage := [] |})
    | Some thrown =>
        ([MutateAsync input],
         {| projectId := projectId s; password := password s;
            testMode := testMode s; saveStatus := error;
            errorMessage := match thrown with
                            | AnError message => message
                            | NotAnError => js "Failed to save configuration"
                            end |})
    end.

End ConfigurationPage.

Import JS Errors URI Num Crypto Uuid Types RequestBuilder CallbackHandler Client Props.

(* ===================================================================== *)
(** * Properties: URL-safe base64 *)
(* ===================================================================== *)

(** Character constants as numbers. *)
Ltac codes :=
  repeat match goal with
    | |- context [code ?a] =>
        let v := eval vm_compute in (code a) in change (code a) with v
    | H : context [code ?a] |- _ =>
        let v := eval vm_compute in (code a) in change (code a) with v in H
    end.

(** Case analysis on every integer comparison in the goal, innermost first. *)
Ltac zcase1 a sp :=
  lazymatch a with
  | context [if _ then _ else _] => fail
  | _ => destruct sp; cbv iota
  end.

Ltac zcases :=
  repeat match goal with
    | |- context [?a <? ?b] => zcase1 a (Z.ltb_spec a b)
    | |- context [?a <=? ?b] => zcase1 a (Z.leb_spec a b)
    | |- context [?a =? ?b] => zcase1 a (Z.eqb_spec a b)
    end.

Ltac zfinish := cbn; try reflexivity; try discriminate; try (exfalso; lia).

(** Linear arithmetic with division and remainder by constants. *)
Ltac zdiv := Z.to_euclidean_division_equations; lia.

Lemma between_spec lo hi c : between lo hi c = true <-> lo <= c <= hi.
Proof. unfold between. rewrite andb_true_iff, !Z.leb_le. tauto. Qed.

Lemma between_false lo hi c : between lo hi c = false <-> (c < lo \/ hi < c).
Proof. unfold between. rewrite andb_false_iff, !Z.leb_gt. tauto. Qed.

Lemma unbase64_b64char n : 0 <= n < 64 -> unbase64 (b64char n) = Some n.
Proof.
  intros Hn. unfold unbase64, b64char, between. codes.
  zcases; zfinish; f_equal; lia.
Qed.

Lemma b64char_plain n :
  0 <= n < 64 ->
  b64char n <> code "=" /\ b64char n <> code "-" /\ b64char n <> code "_".
Proof.
  intros Hn. unfold b64char. codes. zcases; lia.
Qed.

Lemma low_octet c : 0 <= c < 256 -> Z.land c 0xFF = c.
Proof.
  intros Hc. change 0xFF with (Z.ones 8).
  rewrite Z.land_ones by lia. now apply Z.mod_small.
Qed.

Lemma b64char_octet n : 0 <= n < 64 -> 0 <= b64char n < 256.
Proof.
  intros Hn. unfold b64char. codes. zcases; lia.
Qed.

Lemma b64_sextets_char n s :
  0 <= n < 64 -> b64_sextets (b64char n :: s) = n :: b64_sextets s.
Proof.
  intros Hn. cbn [b64_sextets]. cbv zeta.
  rewrite (low_octet _ (b64char_octet n Hn)).
  destruct (b64char_plain n Hn) as (He & _).
  destruct (Z.eqb_spec (b64char n) (code "=")); [contradiction|].
  now rewrite unbase64_b64char.
Qed.

Lemma b64_sextets_pad s : b64_sextets (code "=" :: s) = [].
Proof. reflexivity. Qed.

(** The decoder reads a code unit by its low octet: the four code units
    0x159, 0x157, 0x14A, 0x16A are read as "YWJj", and 0x13D ends the
    decoding as [=] does. *)
Example Buffer_from_base64_low_octets :
  Buffer_from_base64 [0x159; 0x157; 0x14A; 0x16A] = Buffer_from_base64 (js "YWJj")
  /\ Buffer_from_base64 (js "YWJj") = [0x61; 0x62; 0x63]
  /\ Buffer_from_base64 (js "YW" ++ [0x13D] ++ js "Jj") = [0x61].
Proof. repeat split. Qed.

(** Induction on byte lists three octets at a time. *)
Lemma list_ind3 {A} (P : list A -> Prop) :
  P [] -> (forall a, P [a]) -> (forall a b, P [a; b]) ->
  (forall a b c l, P l -> P (a :: b :: c :: l)) ->
  forall l, P l.
Proof.
  intros H0 H1 H2 H3 l.
  enough (P l /\ (forall a, P (a :: l)) /\ (forall a b, P (a :: b :: l))) by tauto.
  induction l as [|x l (IH0 & IH1 & IH2)]; [auto|].
  split; [apply IH1|]. split; [intros; apply IH2|]. intros; now apply H3.
Qed.

Lemma octets_cons b bs : octets (b :: bs) = true <-> 0 <= b <= 255 /\ octets bs = true.
Proof.
  unfold octets; cbn [forallb]. rewrite andb_true_iff. unfold is_octet.
  now rewrite between_spec.
Qed.

Lemma Buffer_base64_roundtrip bs :
  octets bs = true -> Buffer_from_base64 (Buffer_toString_base64 bs) = bs.
Proof.
  unfold Buffer_from_base64.
  induction bs as [|a|a b|a b c l IH] using list_ind3; intros Hb.
  - reflexivity.
  - apply octets_cons in Hb as (Ha & _).
    cbn [Buffer_toString_base64].
    rewrite !b64_sextets_char, b64_sextets_pad by zdiv.
    cbn [b64_octets]. f_equal. zdiv.
  - apply octets_cons in Hb as (Ha & Hb). apply octets_cons in Hb as (Hb & _).
    cbn [Buffer_toString_base64].
    rewrite !b64_sextets_char, b64_sextets_pad by zdiv.
    cbn [b64_octets]. repeat f_equal; zdiv.
  - apply octets_cons in Hb as (Ha & Hb). apply octets_cons in Hb as (Hb & Hc).
    apply octets_cons in Hc as (Hc & Hl).
    cbn [Buffer_toString_base64].
    rewrite !b64_sextets_char by zdiv.
    cbn [b64_octets]. rewrite (IH Hl). repeat f_equal; zdiv.
Qed.

(** The standard alphabet has neither [-] nor [_]. *)
Lemma Buffer_toString_base64_plain bs :
  octets bs = true ->
  Forall (fun c => c <> code "-" /\ c <> code "_") (Buffer_toString_base64 bs).
Proof.
  assert (Hpad : code "=" <> code "-" /\ code "=" <> code "_")
    by (split; discriminate).
  assert (Hc : forall n, 0 <= n < 64 ->
                    b64char n <> code "-" /\ b64char n <> code "_")
    by (intros n Hn; destruct (b64char_plain n Hn); tauto).
  induction bs as [|a|a b|a b c l IH] using list_ind3; intros Hb.
  - constructor.
  - apply octets_cons in Hb as (Ha & _). cbn [Buffer_toString_base64].
    repeat constructor; try apply Hc; try apply Hpad; zdiv.
  - apply octets_cons in Hb as (Ha & Hb). apply octets_cons in Hb as (Hb & _).
    cbn [Buffer_toString_base64].
    repeat constructor; try apply Hc; try apply Hpad; zdiv.
  - apply octets_cons in Hb as (Ha & Hb). apply octets_cons in Hb as (Hb & Hc').
    apply octets_cons in Hc' as (Hc' & Hl).
    cbn [Buffer_toString_base64].
    repeat (constructor; [apply Hc; zdiv|]). now apply IH.
Qed.

Lemma replaceAll_one p r s :
  replaceAll p [r] s = map (fun c => if p c then r else c) s.
Proof.
  unfold replaceAll. induction s as [|c s IH]; [reflexivity|].
  cbn [flat_map map]. rewrite IH. now destruct (p c).
Qed.

(** Undoing the two substitutions gives back a string of the standard
    alphabet. *)
Lemma urlsafe_substitutions_cancel t :
  Forall (fun c => c <> code "-" /\ c <> code "_") t ->
  replaceAll (is_char "-") (js "+")
    (replaceAll (is_char "_") (js "/")
       (replaceAll (is_char "+") (js "-")
          (replaceAll (is_char "/") (js "_") t))) = t.
Proof.
  intros Ht. change (js "+") with [code "+"]. change (js "/") with [code "/"].
  change (js "-") with [code "-"]. change (js "_") with [code "_"].
  rewrite !replaceAll_one, !map_map.
  rewrite <- (map_id t) at 2. apply map_ext_Forall.
  eapply Forall_impl; [exact Ht|]. intros c (H1 & H2). cbv beta.
  unfold is_char. codes. zcases; lia.
Qed.

(** ** UTF-16 and UTF-8 *)

Lemma code_units_cons c s :
  code_units (c :: s) = true <-> 0 <= c <= 0xFFFF /\ code_units s = true.
Proof.
  unfold code_units; cbn [forallb]. rewrite andb_true_iff. unfold is_code_unit.
  now rewrite between_spec.
Qed.

(** Strong induction following the recursion of [code_points]. *)
Lemma code_points_ind (P : jsstring -> Prop) :
  P [] ->
  (forall c, P [c]) ->
  (forall c d s, is_lead_surrogate c && is_trail_surrogate d = true ->
                 P s -> P (c :: d :: s)) ->
  (forall c d s, is_lead_surrogate c && is_trail_surrogate d = false ->
                 P (d :: s) -> P (c :: d :: s)) ->
  forall s, P s.
Proof.
  intros H0 H1 Hp Hs s.
  enough (P s /\ forall c, P (c :: s)) by tauto.
  induction s as [|d s (IH0 & IH1)]; [auto|].
  split; [apply IH1|]. intros c.
  destruct (is_lead_surrogate c && is_trail_surrogate d) eqn:E; auto.
Qed.

Lemma code_points_pair c d s :
  is_lead_surrogate c && is_trail_surrogate d = true ->
  code_points (c :: d :: s) =
  (0x10000 + (c - 0xD800) * 0x400 + (d - 0xDC00)) :: code_points s.
Proof. intros E. cbn [code_points]. now rewrite E. Qed.

Lemma code_points_single c d s :
  is_lead_surrogate c && is_trail_surrogate d = false ->
  code_points (c :: d :: s) = c :: code_points (d :: s).
Proof. intros E. cbn [code_points]. now rewrite E. Qed.

(** Re-encoding the code points of a string gives the string back, unpaired
    surrogates included. *)
Lemma utf16_code_points s :
  code_units s = true -> flat_map utf16_encode_cp (code_points s) = s.
Proof.
  induction s as [|c|c d s E IH|c d s E IH] using code_points_ind; intros Hs.
  - reflexivity.
  - apply code_units_cons in Hs as (Hc & _). cbn. unfold utf16_encode_cp.
    destruct (Z.ltb_spec c 0x10000); [reflexivity|lia].
  - rewrite code_points_pair by assumption.
    apply code_units_cons in Hs as (Hc & Hs). apply code_units_cons in Hs as (Hd & Hs).
    cbn [flat_map]. rewrite (IH Hs).
    apply andb_true_iff in E as (E1 & E2).
    apply between_spec in E1, E2. unfold utf16_encode_cp.
    destruct (Z.ltb_spec (0x10000 + (c - 0xD800) * 0x400 + (d - 0xDC00)) 0x10000);
      [lia|]. cbn [app]. f_equal; [zdiv|]. f_equal. zdiv.
  - rewrite code_points_single by assumption.
    pose proof Hs as Hs'. apply code_units_cons in Hs' as (Hc & Hs').
    cbn [flat_map]. rewrite (IH Hs'). unfold utf16_encode_cp.
    destruct (Z.ltb_spec c 0x10000); [reflexivity|lia].
Qed.

Lemma code_points_scalar s :
  code_units s = true -> isWellFormed s = true -> Forall scalar (code_points s).
Proof.
  unfold isWellFormed.
  induction s as [|c|c d s E IH|c d s E IH] using code_points_ind; intros Hs Hw.
  - constructor.
  - apply code_units_cons in Hs as (Hc & _). cbn in Hw.
    rewrite andb_true_r, negb_true_iff in Hw.
    repeat constructor; [lia | lia | exact Hw].
  - rewrite code_points_pair in * by assumption.
    apply code_units_cons in Hs as (Hc & Hs). apply code_units_cons in Hs as (Hd & Hs).
    cbn [forallb] in Hw. apply andb_true_iff in Hw as (Hw1 & Hw2).
    apply negb_true_iff in Hw1.
    apply andb_true_iff in E as (E1 & E2). apply between_spec in E1, E2.
    constructor; [|now apply IH]. split; [lia|exact Hw1].
  - rewrite code_points_single in * by assumption.
    pose proof Hs as Hs'. apply code_units_cons in Hs' as (Hc & Hs').
    cbn [forallb] in Hw. apply andb_true_iff in Hw as (Hw1 & Hw2).
    apply negb_true_iff in Hw1.
    constructor; [|now apply IH]. split; [lia|exact Hw1].
Qed.

Lemma utf8_lead_ascii b : 0 <= b <= 0x7F -> utf8_lead b = LeadAscii.
Proof.
  intros H. unfold utf8_lead.
  now replace (between 0 0x7F b) with true by (symmetry; apply between_spec; lia).
Qed.

Lemma utf8_lead_2 x :
  2 <= x <= 0x1F -> utf8_lead (0xC0 + x) = LeadMulti x 1 0x80 0xBF.
Proof.
  intros H. unfold utf8_lead.
  replace (between 0 0x7F (0xC0 + x)) with false
    by (symmetry; apply between_false; lia).
  replace (between 0xC2 0xDF (0xC0 + x)) with true
    by (symmetry; apply between_spec; lia).
  f_equal. lia.
Qed.

Lemma utf8_lead_3 x :
  0 <= x <= 0xF ->
  utf8_lead (0xE0 + x) =
  LeadMulti x 2 (if x =? 0 then 0xA0 else 0x80) (if x =? 0xD then 0x9F else 0xBF).
Proof.
  intros H. unfold utf8_lead.
  replace (between 0 0x7F (0xE0 + x)) with false
    by (symmetry; apply between_false; lia).
  replace (between 0xC2 0xDF (0xE0 + x)) with false
    by (symmetry; apply between_false; lia).
  replace (between 0xE0 0xEF (0xE0 + x)) with true
    by (symmetry; apply between_spec; lia).
  replace (0xE0 + x =? 0xE0) with (x =? 0)
    by (destruct (Z.eqb_spec x 0); symmetry; [apply Z.eqb_eq | apply Z.eqb_neq]; lia).
  replace (0xE0 + x =? 0xED) with (x =? 0xD)
    by (destruct (Z.eqb_spec x 0xD); symmetry; [apply Z.eqb_eq | apply Z.eqb_neq]; lia).
  f_equal. lia.
Qed.

Lemma utf8_lead_4 x :
  0 <= x <= 4 ->
  utf8_lead (0xF0 + x) =
  LeadMulti x 3 (if x =? 0 then 0x90 else 0x80) (if x =? 4 then 0x8F else 0xBF).
Proof.
  intros H. unfold utf8_lead.
  replace (between 0 0x7F (0xF0 + x)) with false
    by (symmetry; apply between_false; lia).
  replace (between 0xC2 0xDF (0xF0 + x)) with false
    by (symmetry; apply between_false; lia).
  replace (between 0xE0 0xEF (0xF0 + x)) with false
    by (symmetry; apply between_false; lia).
  replace (between 0xF0 0xF4 (0xF0 + x)) with true
    by (symmetry; apply between_spec; lia).
  replace (0xF0 + x =? 0xF0) with (x =? 0)
    by (destruct (Z.eqb_spec x 0); symmetry; [apply Z.eqb_eq | apply Z.eqb_neq]; lia).
  replace (0xF0 + x =? 0xF4) with (x =? 4)
    by (destruct (Z.eqb_spec x 4); symmetry; [apply Z.eqb_eq | apply Z.eqb_neq]; lia).
  f_equal. lia.
Qed.

Lemma utf8_start b rest :
  utf8_decode_loop None (b :: rest) =
  match utf8_lead b with
  | LeadAscii => b :: utf8_decode_loop None rest
  | LeadMulti cp n lo hi => utf8_decode_loop (Some (cp, n, lo, hi)) rest
  | LeadInvalid => 0xFFFD :: utf8_decode_loop None rest
  end.
Proof. reflexivity. Qed.

(** A continuation byte inside the window is consumed. *)
Lemma utf8_continue cp n lo hi y rest :
  lo <= 0x80 + y <= hi ->
  utf8_decode_loop (Some (cp, n, lo, hi)) ((0x80 + y) :: rest) =
  match n with
  | S (S n') => utf8_decode_loop (Some (cp * 0x40 + y, S n', 0x80, 0xBF)) rest
  | _ => (cp * 0x40 + y) :: utf8_decode_loop None rest
  end.
Proof.
  intros H. cbn [utf8_decode_loop].
  replace (between lo hi (0x80 + y)) with true by (symmetry; apply between_spec; lia).
  replace (0x80 + y - 0x80) with y by lia. reflexivity.
Qed.

(** Splitting a number into its base-64 digits. *)
Lemma split64 n : exists q r, n = 0x40 * q + r /\ 0 <= r < 0x40 /\ q = n / 0x40 /\ r = n mod 0x40.
Proof.
  exists (n / 0x40), (n mod 0x40). pose proof (Z.div_mod n 0x40).
  pose proof (Z.mod_pos_bound n 0x40). repeat split; lia.
Qed.

(** One scalar value, encoded, is decoded to itself and leaves the decoder
    in its initial state. *)
Lemma utf8_decode_encode_cp cp rest :
  scalar cp ->
  utf8_decode_loop None (utf8_encode_cp cp ++ rest) = cp :: utf8_decode_loop None rest.
Proof.
  intros ((Hlo & Hhi) & Hs). apply between_false in Hs.
  unfold utf8_encode_cp.
  replace (cp / 0x1000) with (cp / 0x40 / 0x40) by (rewrite Z.div_div by lia; reflexivity).
  replace (cp / 0x40000) with (cp / 0x40 / 0x40 / 0x40) by (rewrite !Z.div_div by lia; reflexivity).
  destruct (split64 cp) as (q1 & r1 & E1 & B1 & <- & <-).
  destruct (split64 q1) as (q2 & r2 & E2 & B2 & <- & <-).
  destruct (split64 q2) as (q3 & r3 & E3 & B3 & <- & <-).
  destruct (Z.ltb_spec cp 0x80); [|destruct (Z.ltb_spec cp 0x800);
    [|destruct (Z.ltb_spec cp 0x10000)]]; cbn [app].
  - rewrite utf8_start. now rewrite utf8_lead_ascii by lia.
  - rewrite utf8_start, utf8_lead_2 by lia.
    rewrite utf8_continue by lia. f_equal. lia.
  - rewrite utf8_start, utf8_lead_3 by lia.
    rewrite utf8_continue
      by (destruct (Z.eqb_spec q2 0); destruct (Z.eqb_spec q2 0xD); lia).
    rewrite utf8_continue by lia. f_equal. lia.
  - rewrite utf8_start, utf8_lead_4 by lia.
    rewrite utf8_continue
      by (destruct (Z.eqb_spec q3 0); destruct (Z.eqb_spec q3 4); lia).
    rewrite !utf8_continue by lia. f_equal. lia.
Qed.

Lemma utf8_decode_encode cps :
  Forall scalar cps ->
  utf8_decode (flat_map utf8_encode_cp cps) = cps.
Proof.
  unfold utf8_decode. induction 1 as [|cp cps Hcp _ IH]; [reflexivity|].
  cbn [flat_map]. rewrite utf8_decode_encode_cp by assumption. now rewrite IH.
Qed.

Lemma utf8_encode_cp_octets cp :
  0 <= cp <= 0x10FFFF -> octets (utf8_encode_cp cp) = true.
Proof.
  intros H. unfold utf8_encode_cp.
  replace (cp / 0x1000) with (cp / 0x40 / 0x40) by (rewrite Z.div_div by lia; reflexivity).
  replace (cp / 0x40000) with (cp / 0x40 / 0x40 / 0x40) by (rewrite !Z.div_div by lia; reflexivity).
  destruct (split64 cp) as (q1 & r1 & E1 & B1 & <- & <-).
  destruct (split64 q1) as (q2 & r2 & E2 & B2 & <- & <-).
  destruct (split64 q2) as (q3 & r3 & E3 & B3 & <- & <-).
  destruct (Z.ltb_spec cp 0x80); [|destruct (Z.ltb_spec cp 0x800);
    [|destruct (Z.ltb_spec cp 0x10000)]];
    repeat (apply octets_cons; split; [lia|]); reflexivity.
Qed.

Lemma octets_app a b : octets (a ++ b) = octets a && octets b.
Proof. apply forallb_app. Qed.

Lemma Buffer_from_utf8_octets s :
  code_units s = true -> octets (Buffer_from_utf8 s) = true.
Proof.
  unfold Buffer_from_utf8.
  induction s as [|c|c d s E IH|c d s E IH] using code_points_ind; intros Hs.
  - reflexivity.
  - apply code_units_cons in Hs as (Hc & _). cbn [code_points flat_map].
    rewrite app_nil_r. apply utf8_encode_cp_octets.
    destruct (is_surrogate c); lia.
  - rewrite code_points_pair by assumption.
    apply code_units_cons in Hs as (Hc & Hs). apply code_units_cons in Hs as (Hd & Hs).
    apply andb_true_iff in E as (E1 & E2). apply between_spec in E1, E2.
    cbn [flat_map]. rewrite octets_app, (IH Hs), andb_true_r.
    apply utf8_encode_cp_octets.
    destruct (is_surrogate _); lia.
  - rewrite code_points_single by assumption.
    pose proof Hs as Hs'. apply code_units_cons in Hs' as (Hc & Hs').
    cbn [flat_map]. rewrite octets_app, (IH Hs'), andb_true_r.
    apply utf8_encode_cp_octets.
    destruct (is_surrogate c); lia.
Qed.

Lemma Buffer_from_utf8_wellformed s :
  code_units s = true -> isWellFormed s = true ->
  Buffer_from_utf8 s = flat_map utf8_encode_cp (code_points s).
Proof.
  intros Hs Hw. unfold Buffer_from_utf8.
  pose proof (code_points_scalar s Hs Hw) as Hsc.
  induction Hsc as [|cp cps (_ & Hcp) _ IH]; [reflexivity|].
  cbn [flat_map]. now rewrite Hcp, IH.
Qed.

Lemma Buffer_utf8_roundtrip s :
  code_units s = true -> isWellFormed s = true ->
  Buffer_toString_utf8 (Buffer_from_utf8 s) = s.
Proof.
  intros Hs Hw. unfold Buffer_toString_utf8.
  rewrite Buffer_from_utf8_wellformed by assumption.
  rewrite utf8_decode_encode by now apply code_points_scalar.
  now apply utf16_code_points.
Qed.

(** ** The round trip *)

Example toUrlSafeBase64_hello : toUrlSafeBase64 (js "hello") = js "aGVsbG8=".
Proof. reflexivity. Qed.

Example toUrlSafeBase64_substitutes :
  toUrlSafeBase64 (js "test>>>test???") = js "dGVzdD4-PnRlc3Q_Pz8=".
Proof. reflexivity. Qed.

Example toUrlSafeBase64_empty : toUrlSafeBase64 [] = [] /\ fromUrlSafeBase64 [] = [].
Proof. split; reflexivity. Qed.

(** C2, as stated, fails: a string is any sequence of code units, and an
    unpaired surrogate is written to the buffer as U+FFFD, so the string
    made of the single code unit 0xD800 comes back as the string made of
    0xFFFD. *)
Lemma C2_lone_surrogate_is_not_restored :
  code_units [0xD800] = true
  /\ fromUrlSafeBase64 (toUrlSafeBase64 [0xD800]) = [0xFFFD]
  /\ fromUrlSafeBase64 (toUrlSafeBase64 [0xD800]) <> [0xD800].
Proof. repeat split. vm_compute. discriminate. Qed.

Lemma urlsafe_base64_roundtrip_wellformed (s : jsstring) :
  code_units s = true -> isWellFormed s = true ->
  fromUrlSafeBase64 (toUrlSafeBase64 s) = s.
Proof.
  intros Hs Hw. unfold fromUrlSafeBase64, toUrlSafeBase64.
  pose proof (Buffer_from_utf8_octets s Hs) as Ho.
  rewrite urlsafe_substitutions_cancel by now apply Buffer_toString_base64_plain.
  rewrite Buffer_base64_roundtrip by assumption.
  now apply Buffer_utf8_roundtrip.
Qed.

(** C2, amended: for every well-formed string [s] (no unpaired surrogate),
    the empty string included, [fromUrlSafeBase64 (toUrlSafeBase64 s) = s];
    [toUrlSafeBase64] is the padded standard base64 of the UTF-8 encoding
    with [/] replaced by [_] and [+] by [-], and [fromUrlSafeBase64] undoes
    the two substitutions and decodes. *)
Theorem C2_urlsafe_base64_roundtrip (s : jsstring) :
  code_units s = true -> isWellFormed s = true ->
  fromUrlSafeBase64 (toUrlSafeBase64 s) = s
  /\ toUrlSafeBase64 s
     = replaceAll (is_char "+") (js "-")
         (replaceAll (is_char "/") (js "_")
            (Buffer_toString_base64 (Buffer_from_utf8 s)))
  /\ Forall (fun c => c <> code "/" /\ c <> code "+") (toUrlSafeBase64 s).
Proof.
  intros Hs Hw. split; [now apply urlsafe_base64_roundtrip_wellformed|].
  split; [reflexivity|].
  unfold toUrlSafeBase64. change (js "-") with [code "-"].
  change (js "_") with [code "_"]. rewrite !replaceAll_one.
  apply Forall_map, Forall_map, Forall_forall. intros c _. cbv beta.
  unfold is_char. codes. zcases; lia.
Qed.

(** The theorem at a string with a two-octet, a three-octet and a
    four-octet character. *)
Lemma C2_urlsafe_base64_roundtrip_witness :
  let s := js "a+b/c" ++ [0xE9; 0x20AC; 0xD83D; 0xDE00] in
  code_units s = true /\ isWellFormed s = true
  /\ fromUrlSafeBase64 (toUrlSafeBase64 s) = s.
Proof.
  cbv zeta. split; [reflexivity|]. split; [reflexivity|].
  apply (C2_urlsafe_base64_roundtrip
           (js "a+b/c" ++ [0xE9; 0x20AC; 0xD83D; 0xDE00])); reflexivity.
Defined.

(* ===================================================================== *)
(** * Properties: which exceptions can be thrown *)
(* ===================================================================== *)

Lemma throws_only_bind {A B} P (r : result A) (k : A -> result B) :
  throws_only P r -> (forall a, throws_only P (k a)) -> throws_only P (r ≫= k).
Proof. destruct r as [a|e]; cbn; auto. Qed.

Lemma throws_only_fmap {A B} P (f : A -> B) (r : result A) :
  throws_only P r -> throws_only P (f <$> r).
Proof. destruct r as [a|e]; cbn; auto. Qed.

Lemma throws_only_mapM {A B} P (f : A -> result B) (l : list A) :
  (forall a, throws_only P (f a)) -> throws_only P (mapM f l).
Proof.
  intros Hf. induction l as [|a l IH]; cbn [mapM]; [exact I|].
  apply (throws_only_bind P (f a)); [apply Hf|]. intros b.
  apply (throws_only_bind P (mapM f l)); [exact IH|]. intros bs. exact I.
Qed.

Lemma throws_only_impl {A} (P Q : exn -> Prop) (r : result A) :
  (forall e, P e -> Q e) -> throws_only P r -> throws_only Q r.
Proof. destruct r; cbn; auto. Qed.

Lemma bind_Ok {A B} (a : A) (k : A -> result B) : (Ok a ≫= k) = k a.
Proof. reflexivity. Qed.

Lemma bind_Throw {A B} e (k : A -> result B) : (Throw e ≫= k) = Throw e.
Proof. reflexivity. Qed.

Lemma encodeURIComponent_throws s : throws_only uri_error (encodeURIComponent s).
Proof.
  unfold encodeURIComponent. apply throws_only_fmap, throws_only_mapM.
  intros cp. unfold encode_code_point.
  destruct (is_surrogate cp); [reflexivity|]. now destruct (uriUnescaped cp).
Qed.

Lemma decode_loop_throws s : forall st, throws_only uri_error (decode_loop st s).
Proof.
  remember (length s) as n eqn:Hn. revert s Hn.
  induction n as [n IH] using lt_wf_ind. intros s Hn st.
  destruct s as [|c rest]; cbn [decode_loop].
  { now destruct st. }
  assert (IH1 : forall st', throws_only uri_error (decode_loop st' rest)).
  { intros st'. eapply IH; [|reflexivity]. subst n. cbn. lia. }
  destruct (c =? code "%").
  - destruct rest as [|h1 [|h2 rest2]]; try reflexivity.
    assert (IH2 : forall st', throws_only uri_error (decode_loop st' rest2)).
    { intros st'. eapply IH; [|reflexivity]. subst n. cbn. lia. }
    destruct (hex_value h1); [|reflexivity].
    destruct (hex_value h2); [|reflexivity].
    destruct st as [[octs k]|].
    + destruct k as [|[|k]].
      * destruct (utf8_code_point _); [|reflexivity].
        apply (throws_only_bind uri_error (decode_loop None rest2)); [apply IH2|].
        intros; exact I.
      * destruct (utf8_code_point _); [|reflexivity].
        apply (throws_only_bind uri_error (decode_loop None rest2)); [apply IH2|].
        intros; exact I.
      * apply IH2.
    + destruct (sequence_length _) as [[|[|k]]|]; try reflexivity.
      * apply (throws_only_bind uri_error (decode_loop None rest2)); [apply IH2|].
        intros; exact I.
      * apply IH2.
  - destruct st; [reflexivity|].
    apply (throws_only_bind uri_error (decode_loop None rest)); [apply IH1|].
    intros; exact I.
Qed.

Lemma decodeURIComponent_throws s : throws_only uri_error (decodeURIComponent s).
Proof. apply decode_loop_throws. Qed.

Lemma parsePair_throws params p : throws_only uri_error (parsePair params p).
Proof.
  unfold parsePair. destruct (truthy _); [|exact I].
  apply (throws_only_bind uri_error (decodeURIComponent _));
    [apply decodeURIComponent_throws|]. intros k.
  match goal with |- throws_only _ (?r ≫= _) =>
    apply (throws_only_bind uri_error r) end.
  - destruct (_ !! 1%nat) as [v|]; [|exact I].
    destruct (truthy v); [apply decodeURIComponent_throws|exact I].
  - intros; exact I.
Qed.

Lemma forEach_pairs_throws pairs :
  forall params, throws_only uri_error (forEach_pairs params pairs).
Proof.
  induction pairs as [|p rest IH]; intros params; cbn [forEach_pairs]; [exact I|].
  apply (throws_only_bind uri_error (parsePair params p)); [apply parsePair_throws|].
  apply IH.
Qed.

Lemma decodeCallbackData_throws data : throws_only uri_error (decodeCallbackData data).
Proof. apply forEach_pairs_throws. Qed.

Lemma check_required_throws fields rawData :
  throws_only callback_error (check_required fields rawData).
Proof.
  induction fields as [|f rest IH]; cbn [check_required]; [exact I|].
  destruct (bool_decide _); [exact IH|]. right. eauto.
Qed.

Lemma parseCallbackData_throws rawData :
  throws_only callback_error (parseCallbackData rawData).
Proof.
  unfold parseCallbackData.
  apply (throws_only_bind callback_error (check_required required rawData));
    [apply check_required_throws|]. intros _.
  destruct (isNaN _); [right; eauto|].
  destruct (isNaN _); [right; eauto|]. exact I.
Qed.

(** After the signature check, only [URIError] and
    [PayseraCallbackDataError] remain possible. *)
Lemma decode_and_parse_throws data :
  throws_only callback_error (decodeCallbackData data ≫= parseCallbackData).
Proof.
  apply (throws_only_bind callback_error (decodeCallbackData data)).
  - eapply throws_only_impl; [|apply decodeCallbackData_throws].
    intros e He. now left.
  - apply parseCallbackData_throws.
Qed.

Lemma encodeParams_throws params : throws_only uri_error (encodeParams params).
Proof.
  unfold encodeParams.
  match goal with |- throws_only _ (?r ≫= _) => apply (throws_only_bind uri_error r) end.
  - apply throws_only_mapM. intros kv. unfold encodeEntry.
    apply (throws_only_bind uri_error (encodeURIComponent (fst kv)));
      [apply encodeURIComponent_throws|]. intros k.
    apply (throws_only_bind uri_error (encodeURIComponent (String_ (snd kv))));
      [apply encodeURIComponent_throws|]. intros; exact I.
  - intros; exact I.
Qed.

Lemma buildPaymentUrl_throws params password :
  throws_only uri_error (buildPaymentUrl params password).
Proof.
  unfold buildPaymentUrl, buildRequest.
  pose proof (encodeParams_throws params) as H.
  destruct (encodeParams params) as [out|e]; cbn in *; [exact I|exact H].
Qed.

Lemma createPaymentRequest_throws this fresh options :
  throws_only uri_error (createPaymentRequest this fresh options).
Proof.
  unfold createPaymentRequest.
  match goal with |- throws_only _ (?r ≫= _) => apply (throws_only_bind uri_error r) end.
  - apply buildPaymentUrl_throws.
  - intros; exact I.
Qed.

Lemma not_config_error_uri {A} (r : result A) :
  throws_only uri_error r -> is_config_error r = false.
Proof. destruct r as [a|e]; cbn; [reflexivity|]. now intros ->. Qed.

Lemma not_config_error_callback {A} (r : result A) :
  throws_only callback_error r -> is_config_error r = false.
Proof.
  destruct r as [a|e]; cbn; [reflexivity|]. now intros [->|(m & ->)].
Qed.

Lemma not_signature_error_callback {A} (r : result A) :
  throws_only callback_error r -> is_signature_error r = false.
Proof.
  destruct r as [a|e]; cbn; [reflexivity|]. now intros [->|(m & ->)].
Qed.

Lemma truthy_false s : truthy s = false <-> s = [].
Proof. destruct s; cbn; split; congruence. Qed.

Lemma truthy_true s : truthy s = true <-> s <> [].
Proof. destruct s; cbn; split; congruence. Qed.

(* ===================================================================== *)
(** * Properties: the callback verifier *)
(* ===================================================================== *)

(** C1: for every raw callback and password, [verifyAndDecodeCallback]
    (hence [processCallback]) throws [PayseraCallbackDataError] when [data]
    or [ss1] is empty; otherwise it throws [PayseraSignatureError] exactly
    when the signature recomputed from [data] and the password differs from
    [ss1] after both are lower-cased; and only when the two agree is the
    payload decoded and parsed, so both failures before that point are fixed
    errors that do not depend on what the payload decodes to. *)
Theorem C1_signature_checked_before_decoding
  (toLowerCase : jsstring -> jsstring) (rawCallback : PayseraRawCallback)
  (pw : jsstring) :
  let r := verifyAndDecodeCallback toLowerCase rawCallback pw in
  let d := data rawCallback in
  let s := ss1 rawCallback in
  let same := toLowerCase (generateSignature d pw) = toLowerCase s in
  (d = [] \/ s = [] ->
     r = Throw (PayseraCallbackDataError (js "Missing data or signature in callback")))
  /\ (d <> [] /\ s <> [] /\ ~ same ->
     r = Throw (PayseraSignatureError (js "Invalid callback signature")))
  /\ (d <> [] /\ s <> [] /\ same ->
     r = (decodeCallbackData d ≫= parseCallbackData))
  /\ (is_signature_error r = true <-> d <> [] /\ s <> [] /\ ~ same)
  /\ (forall this : PayseraClient,
        password (config this) = pw ->
        processCallback toLowerCase this rawCallback = r).
Proof.
  cbv zeta.
  assert (Hp : forall this : PayseraClient,
             password (config this) = pw ->
             processCallback toLowerCase this rawCallback
             = verifyAndDecodeCallback toLowerCase rawCallback pw)
    by (intros this <-; reflexivity).
  unfold verifyAndDecodeCallback, verifySignature, str_eqb in *.
  destruct rawCallback as [d s s2]; cbn [data ss1] in *.
  destruct (truthy d) eqn:Td; [destruct (truthy s) eqn:Ts|]; cbn [negb orb] in *.
  - apply truthy_true in Td, Ts.
    destruct (bool_decide_reflect
                (toLowerCase (generateSignature d pw) = toLowerCase s)) as [E|E];
      cbn [negb] in *.
    + split; [intros [?|?]; contradiction|].
      split; [intros (_ & _ & N); contradiction|].
      split; [reflexivity|].
      split; [|exact Hp].
      rewrite not_signature_error_callback by apply decode_and_parse_throws.
      split; [discriminate|intros (_ & _ & N); contradiction].
    + split; [intros [?|?]; contradiction|].
      split; [reflexivity|].
      split; [intros (_ & _ & N); contradiction|].
      split; [|exact Hp]. cbn [is_signature_error]. tauto.
  - apply truthy_true in Td. apply truthy_false in Ts.
    split; [reflexivity|].
    split; [intros (_ & N & _); contradiction|].
    split; [intros (_ & N & _); contradiction|].
    split; [|exact Hp]. cbn [is_signature_error].
    split; [discriminate|intros (_ & N & _); contradiction].
  - apply truthy_false in Td.
    split; [reflexivity|].
    split; [intros (N & _); contradiction|].
    split; [intros (N & _); contradiction|].
    split; [|exact Hp]. cbn [is_signature_error].
    split; [discriminate|intros (N & _); contradiction].
Qed.

(** C1 at a callback whose payload does not even decode (it is the base64
    of ["%zz"]) and whose signature is wrong: the signature error is what
    is thrown. *)
Lemma C1_signature_checked_before_decoding_witness :
  let cb := {| data := js "JXp6"; ss1 := js "00"; ss2 := None |} in
  decodeCallbackData (data cb) = Throw URIError
  /\ verifyAndDecodeCallback toLowerCase_latin cb (js "secret")
     = Throw (PayseraSignatureError (js "Invalid callback signature")).
Proof.
  cbv zeta. split; [reflexivity|].
  pose proof (C1_signature_checked_before_decoding toLowerCase_latin
                {| data := js "JXp6"; ss1 := js "00"; ss2 := None |} (js "secret"))
    as H.
  cbv zeta in H. destruct H as (_ & H & _). apply H.
  split; [discriminate|]. split; [discriminate|].
  vm_compute. discriminate.
Defined.

(* ===================================================================== *)
(** * Properties: the client's configuration gate *)
(* ===================================================================== *)

(** C9: the constructor throws [PayseraConfigError] exactly when the
    project id or the password is empty, and otherwise yields a client
    holding the configuration; neither [createPaymentRequest] nor
    [processCallback] ever raises a configuration error, on a constructed
    client or on any other client value, so construction is the only
    place where the configuration is validated. *)
Theorem C9_construction_is_the_single_gate :
  (forall cfg : PayseraConfig,
      (is_config_error (new_PayseraClient cfg) = true
       <-> projectId cfg = [] \/ password cfg = [])
      /\ (new_PayseraClient cfg = Ok {| config := cfg |}
          <-> projectId cfg <> [] /\ password cfg <> []))
  /\ (forall (this : PayseraClient) fresh options,
        is_config_error (createPaymentRequest this fresh options) = false)
  /\ (forall toLowerCase (this : PayseraClient) rawCallback,
        is_config_error (processCallback toLowerCase this rawCallback) = false).
Proof.
  split; [|split].
  - intros cfg. unfold new_PayseraClient.
    destruct (truthy (projectId cfg)) eqn:Tp;
      [destruct (truthy (password cfg)) eqn:Tq|]; cbn [negb orb is_config_error].
    + apply truthy_true in Tp, Tq. split; split; try tauto; try discriminate;
        try (intros [?|?]; contradiction).
    + apply truthy_true in Tp. apply truthy_false in Tq.
      split; split; try tauto; try discriminate;
        try (intros (_ & ?); contradiction).
    + apply truthy_false in Tp.
      split; split; try tauto; try discriminate;
        try (intros (? & _); contradiction).
  - intros. apply not_config_error_uri, createPaymentRequest_throws.
  - intros toLowerCase this rawCallback. unfold processCallback.
    unfold verifyAndDecodeCallback.
    destruct (negb _ || negb _); [reflexivity|].
    destruct (negb _); [reflexivity|].
    apply not_config_error_callback, decode_and_parse_throws.
Qed.

(* ===================================================================== *)
(** * Properties: numbers *)
(* ===================================================================== *)

(** Equality with a finite number is identity. *)
Lemma num_eqb_finite x s m e :
  num_eqb x (S754_finite s m e) = true -> x = S754_finite s m e.
Proof.
  unfold num_eqb, SFeqb, SFcompare.
  destruct x as [sx|sx| |sx mx ex]; try discriminate;
    try (destruct sx, s; discriminate).
  destruct sx, s; try discriminate;
    destruct (Z.compare_spec ex e) as [->| |]; try discriminate;
    change (Pos.compare_cont Eq mx m) with (Pos.compare mx m);
    destruct (Pos.compare_spec mx m) as [->| |]; try discriminate; reflexivity.
Qed.

Lemma num_eqb_zero x s :
  num_eqb x (S754_zero s) = true <-> x = pos_zero \/ x = neg_zero.
Proof.
  unfold num_eqb, SFeqb, SFcompare, pos_zero, neg_zero.
  destruct x as [[]|[]| |[] mx ex]; split; try discriminate; auto;
    intros [?|?]; discriminate.
Qed.

Lemma digits2_pos_iter_xO p k :
  digits2_pos (Pos.iter xO p k) = (digits2_pos p + k)%positive.
Proof.
  induction k as [|k IH] using Pos.peano_ind.
  - cbn. lia.
  - rewrite Pos.iter_succ. cbn [digits2_pos]. rewrite IH. lia.
Qed.

(** A positive integer of at most 53 bits is a number: its mantissa is the
    integer shifted to 53 bits. *)
Lemma Number_of_Z_exact p :
  (Z.pos (digits2_pos p) <= 53) ->
  Number_of_Z (Z.pos p) =
  S754_finite false
    (match (53 - Z.pos (digits2_pos p))%Z with
     | Z.pos k => Pos.iter xO p k
     | _ => p
     end)
    (Z.pos (digits2_pos p) - 53).
Proof.
  intros Hd. unfold Number_of_Z, binary_normalize, binary_round.
  set (d := digits2_pos p) in *.
  assert (Hf : fexp prec emax (Z.pos d + 0) = Z.pos d - 53).
  { unfold fexp, emin, prec, emax. lia. }
  rewrite Hf. unfold shl_align.
  destruct (Z.pos d - 53 - 0) as [|k|k] eqn:Ek.
  - assert (E53 : Z.pos d = 53) by lia.
    replace (53 - Z.pos d) with 0 by lia.
    unfold binary_round_aux, shr_fexp. cbn [Zdigits2 shr_record_of_loc].
    fold d. rewrite Hf. replace (Z.pos d - 53 - 0) with 0 by lia.
    cbn [shr shr_m loc_of_shr_record round_nearest_even Zdigits2].
    fold d. rewrite Hf. replace (Z.pos d - 53 - 0) with 0 by lia.
    cbn [shr shr_m]. rewrite E53. reflexivity.
  - exfalso. lia.
  - assert (E53 : 53 - Z.pos d = Z.pos k) by lia. rewrite E53.
    unfold binary_round_aux, shr_fexp. cbn [Zdigits2 shr_record_of_loc].
    rewrite digits2_pos_iter_xO. fold d.
    assert (Hf' : fexp prec emax (Z.pos (d + k) + (Z.pos d - 53)) = Z.pos d - 53).
    { unfold fexp, emin, prec, emax. lia. }
    rewrite Hf'. rewrite Z.sub_diag.
    cbn [shr shr_m loc_of_shr_record round_nearest_even Zdigits2].
    rewrite digits2_pos_iter_xO. fold d. rewrite Hf', Z.sub_diag.
    cbn [shr shr_m].
    destruct (Z.leb_spec (Z.pos d - 53) (emax - prec)) as [_|H];
      [reflexivity|unfold emax, prec in H; lia].
Qed.

Lemma Number_of_Z_exact_neg p :
  (Z.pos (digits2_pos p) <= 53) ->
  Number_of_Z (Z.neg p) = SFopp (Number_of_Z (Z.pos p)).
Proof.
  intros Hd. rewrite (Number_of_Z_exact p Hd).
  unfold Number_of_Z, binary_normalize, binary_round.
  set (d := digits2_pos p) in *.
  assert (Hf : fexp prec emax (Z.pos d + 0) = Z.pos d - 53).
  { unfold fexp, emin, prec, emax. lia. }
  rewrite Hf. unfold shl_align.
  destruct (Z.pos d - 53 - 0) as [|k|k] eqn:Ek.
  - assert (E53 : Z.pos d = 53) by lia.
    replace (53 - Z.pos d) with 0 by lia.
    unfold binary_round_aux, shr_fexp. cbn [Zdigits2 shr_record_of_loc].
    fold d. rewrite Hf. replace (Z.pos d - 53 - 0) with 0 by lia.
    cbn [shr shr_m loc_of_shr_record round_nearest_even Zdigits2].
    fold d. rewrite Hf. replace (Z.pos d - 53 - 0) with 0 by lia.
    cbn [shr shr_m]. rewrite E53. reflexivity.
  - exfalso. lia.
  - assert (E53 : 53 - Z.pos d = Z.pos k) by lia. rewrite E53.
    unfold binary_round_aux, shr_fexp. cbn [Zdigits2 shr_record_of_loc].
    rewrite digits2_pos_iter_xO. fold d.
    assert (Hf' : fexp prec emax (Z.pos (d + k) + (Z.pos d - 53)) = Z.pos d - 53).
    { unfold fexp, emin, prec, emax. lia. }
    rewrite Hf'. rewrite Z.sub_diag.
    cbn [shr shr_m loc_of_shr_record round_nearest_even Zdigits2].
    rewrite digits2_pos_iter_xO. fold d. rewrite Hf', Z.sub_diag.
    cbn [shr shr_m].
    destruct (Z.leb_spec (Z.pos d - 53) (emax - prec)) as [_|H];
      [reflexivity|unfold emax, prec in H; lia].
Qed.

Lemma digits2_pos_size p : digits2_pos p = Pos.size p.
Proof. induction p as [p IH|p IH|]; cbn; now rewrite ?IH. Qed.

Lemma digits2_pos_safe p : Z.pos p < 2 ^ 53 -> Z.pos (digits2_pos p) <= 53.
Proof.
  intros H. rewrite digits2_pos_size.
  pose proof (Pos.size_le p) as Hle.
  apply Pos2Z.pos_le_pos in Hle. rewrite Pos2Z.inj_pow in Hle.
  change (Z.pos 2) with 2 in Hle.
  destruct (Z.le_gt_cases (Z.pos (Pos.size p)) 53) as [|Hgt]; [assumption|exfalso].
  assert (Hpow : 2 ^ 54 <= 2 ^ Z.pos (Pos.size p)) by (apply Z.pow_le_mono_r; lia).
  change (2 ^ 53) with 9007199254740992 in H.
  change (2 ^ 54) with 18014398509481984 in Hpow. lia.
Qed.

Lemma iter_xO_inj k p q : Pos.iter xO p k = Pos.iter xO q k -> p = q.
Proof.
  induction k as [|k IH] using Pos.peano_ind.
  - cbn. congruence.
  - rewrite !Pos.iter_succ. intros H. apply IH. congruence.
Qed.

(** On the integers below 2^53 in magnitude, the conversion to a number is
    injective. *)
Lemma Number_of_Z_inj n k :
  - 2 ^ 53 < n < 2 ^ 53 -> - 2 ^ 53 < k < 2 ^ 53 ->
  Number_of_Z n = Number_of_Z k -> n = k.
Proof.
  assert (Hpos : forall p q, Z.pos p < 2 ^ 53 -> Z.pos q < 2 ^ 53 ->
                        Number_of_Z (Z.pos p) = Number_of_Z (Z.pos q) -> p = q).
  { intros p q Hp Hq. apply digits2_pos_safe in Hp, Hq.
    rewrite (Number_of_Z_exact p Hp), (Number_of_Z_exact q Hq).
    intros E. injection E as Em Ee.
    assert (Ed : digits2_pos p = digits2_pos q) by lia.
    rewrite Ed in Em.
    destruct (53 - Z.pos (digits2_pos q)); try assumption.
    now apply iter_xO_inj in Em. }
  intros Hn Hk.
  destruct n as [|p|p], k as [|q|q]; try reflexivity;
    rewrite ?Number_of_Z_exact_neg by (apply digits2_pos_safe; lia);
    rewrite ?Number_of_Z_exact by (apply digits2_pos_safe; lia);
    try discriminate.
  - intros E. f_equal. apply Hpos; try lia.
    rewrite !Number_of_Z_exact by (apply digits2_pos_safe; lia). exact E.
  - intros E. f_equal. apply Hpos; try lia.
    rewrite !Number_of_Z_exact by (apply digits2_pos_safe; lia).
    cbn [SFopp] in E. congruence.
Qed.

Lemma iter_xO_shift p k : Z.pos (Pos.iter xO p k) = Z.pos p * 2 ^ Z.pos k.
Proof.
  induction k as [|k IH] using Pos.peano_ind.
  - cbn [Pos.iter]. change (2 ^ 1) with 2. lia.
  - rewrite Pos.iter_succ, Pos2Z.inj_xO, IH, Pos2Z.inj_succ, Z.pow_succ_r by lia. lia.
Qed.

(** Below 2^53 in magnitude, the number of an integer denotes that
    integer. *)
Lemma integer_value_Number_of_Z n :
  - 2 ^ 53 < n < 2 ^ 53 -> integer_value (Number_of_Z n) = Some n.
Proof.
  assert (Hpos : forall p, Z.pos p < 2 ^ 53 ->
                      integer_value (S754_finite false
                        (match (53 - Z.pos (digits2_pos p))%Z with
                         | Z.pos k => Pos.iter xO p k
                         | _ => p
                         end) (Z.pos (digits2_pos p) - 53)) = Some (Z.pos p)
                      /\ integer_value (S754_finite true
                        (match (53 - Z.pos (digits2_pos p))%Z with
                         | Z.pos k => Pos.iter xO p k
                         | _ => p
                         end) (Z.pos (digits2_pos p) - 53)) = Some (Z.neg p)).
  { intros p Hp. apply digits2_pos_safe in Hp.
    unfold integer_value.
    destruct (53 - Z.pos (digits2_pos p)) as [|k|k] eqn:Ek; [| |lia].
    - replace (Z.pos (digits2_pos p) - 53) with 0 by lia. cbn [Z.leb Z.compare].
      change (2 ^ 0) with 1. split; f_equal; lia.
    - replace (Z.pos (digits2_pos p) - 53) with (- Z.pos k) by lia.
      destruct (Z.leb_spec 0 (- Z.pos k)); [lia|].
      rewrite Z.opp_involutive, iter_xO_shift.
      assert (0 < 2 ^ Z.pos k) by (apply Z.pow_pos_nonneg; lia).
      rewrite Z.mod_mul by lia. rewrite Z.eqb_refl.
      rewrite Z.div_mul by lia. split; f_equal; lia. }
  intros Hn. destruct n as [|p|p]; [reflexivity| |].
  - rewrite Number_of_Z_exact by (apply digits2_pos_safe; lia). apply Hpos. lia.
  - rewrite Number_of_Z_exact_neg, Number_of_Z_exact by (apply digits2_pos_safe; lia).
    cbn [SFopp negb]. apply Hpos. lia.
Qed.

(** [Math.round] of a finite number denotes the value rounded half up. *)
Lemma Math_round_finite s m e :
  Z.pos m < 2 ^ 53 ->
  integer_value (Math_round (S754_finite s m e)) = Some (round_half_up s m e).
Proof.
  intros Hm. unfold Math_round, round_half_up.
  destruct (Z.leb_spec 0 e) as [He|He].
  - unfold integer_value. destruct (Z.leb_spec 0 e); [reflexivity|lia].
  - set (d := 2 ^ (- e)).
    assert (Hd : 2 <= d).
    { unfold d. change 2 with (2 ^ 1) at 1. apply Z.pow_le_mono_r; lia. }
    pose proof (Z.div_mod (Z.pos m) d ltac:(lia)) as Hdm.
    pose proof (Z.mod_pos_bound (Z.pos m) d ltac:(lia)) as Hr.
    set (q := Z.pos m / d) in *. set (r := Z.pos m mod d) in *.
    assert (Hq : 0 <= q < 2 ^ 52).
    { split; [apply Z.div_pos; lia|].
      apply Z.div_lt_upper_bound; [lia|].
      change (2 ^ 53) with (2 * 2 ^ 52) in Hm. nia. }
    change (2 ^ 52) with 4503599627370496 in Hq.
    assert (Hround :
      (if s then - 1 else 1) * (2 * Z.pos m) + d
      = 2 * d * (if s then - (if d <? 2 * r then q + 1 else q)
                 else (if d <=? 2 * r then q + 1 else q))
        + (if s then (if d <? 2 * r then 3 * d - 2 * r else d - 2 * r)
           else (if d <=? 2 * r then 2 * r - d else 2 * r + d))).
    { destruct s; [destruct (Z.ltb_spec d (2 * r))|destruct (Z.leb_spec d (2 * r))];
        nia. }
    assert (Hdiv :
      ((if s then - 1 else 1) * (2 * Z.pos m) + d) / (2 * d)
      = (if s then - (if d <? 2 * r then q + 1 else q)
         else (if d <=? 2 * r then q + 1 else q))).
    { symmetry. eapply Z.div_unique_pos; [|exact Hround].
      destruct s; [destruct (Z.ltb_spec d (2 * r))|destruct (Z.leb_spec d (2 * r))];
        lia. }
    rewrite Hdiv.
    destruct s.
    + set (n := if d <? 2 * r then q + 1 else q).
      assert (Hn : 0 <= n <= 4503599627370496)
        by (unfold n; destruct (d <? 2 * r); lia).
      destruct (Z.eqb_spec n 0) as [->|Hn0]; [reflexivity|].
      apply integer_value_Number_of_Z.
      change (2 ^ 53) with 9007199254740992. lia.
    + set (n := if d <=? 2 * r then q + 1 else q).
      assert (Hn : 0 <= n <= 4503599627370496)
        by (unfold n; destruct (d <=? 2 * r); lia).
      destruct (Z.eqb_spec n 0) as [->|Hn0]; [reflexivity|].
      apply integer_value_Number_of_Z.
      change (2 ^ 53) with 9007199254740992. lia.
Qed.

(* ===================================================================== *)
(** * Properties: status classification *)
(* ===================================================================== *)

Example status_constants :
  PayseraStatus.PENDING = pos_zero
  /\ PayseraStatus.SUCCESS = S754_finite false 4503599627370496 (-52)
  /\ PayseraStatus.ACCEPTED_NOT_EXECUTED = S754_finite false 4503599627370496 (-51)
  /\ PayseraStatus.ADDITIONAL_INFO_REQUIRED = S754_finite false 6755399441055744 (-51).
Proof. repeat split. Qed.

Lemma isPaymentSuccessful_iff e :
  isPaymentSuccessful e = true <-> status e = Number_of_Z 1.
Proof.
  unfold isPaymentSuccessful. split.
  - apply num_eqb_finite.
  - intros ->. reflexivity.
Qed.

Lemma isPaymentPending_iff e :
  isPaymentPending e = true
  <-> status e = pos_zero \/ status e = neg_zero \/ status e = Number_of_Z 2.
Proof.
  unfold isPaymentPending. rewrite orb_true_iff.
  change PayseraStatus.PENDING with (S754_zero false). rewrite num_eqb_zero.
  split.
  - intros [[?|?]|H]; auto. apply num_eqb_finite in H. auto.
  - intros [?|[?|H]]; auto. right. rewrite H. reflexivity.
Qed.

(** C5: [isPaymentSuccessful] holds exactly when the status is the number
    1, and [isPaymentPending] exactly when it is the number 0 (of either
    sign) or 2; for status 3 and for every other integer (here: every
    integer that a number holds exactly) both are false; both are total
    functions to the booleans, with no exception in their type. *)
Theorem C5_status_classification (e : PayseraCallbackData) :
  (isPaymentSuccessful e = true <-> num_eqb (status e) (Number_of_Z 1) = true)
  /\ (isPaymentPending e = true
      <-> num_eqb (status e) (Number_of_Z 0) = true
          \/ num_eqb (status e) (Number_of_Z 2) = true)
  /\ (forall n : Z, - 2 ^ 53 < n < 2 ^ 53 -> status e = Number_of_Z n ->
        (isPaymentSuccessful e = true <-> n = 1)
        /\ (isPaymentPending e = true <-> n = 0 \/ n = 2))
  /\ (status e = Number_of_Z 3 ->
        isPaymentSuccessful e = false /\ isPaymentPending e = false).
Proof.
  assert (Hint : forall n : Z, - 2 ^ 53 < n < 2 ^ 53 -> status e = Number_of_Z n ->
        (isPaymentSuccessful e = true <-> n = 1)
        /\ (isPaymentPending e = true <-> n = 0 \/ n = 2)).
  { intros n Hn Hs. rewrite isPaymentSuccessful_iff, isPaymentPending_iff, Hs.
    split; [split|split].
    - apply Number_of_Z_inj; [assumption|lia].
    - now intros ->.
    - intros [H|[H|H]].
      + left. apply (Number_of_Z_inj n 0); [assumption|lia|exact H].
      + exfalso. destruct n as [|p|p]; [discriminate H| |].
        * rewrite Number_of_Z_exact in H by (apply digits2_pos_safe; lia).
          discriminate H.
        * rewrite Number_of_Z_exact_neg, Number_of_Z_exact in H
            by (apply digits2_pos_safe; lia). discriminate H.
      + right. apply (Number_of_Z_inj n 2); [assumption|lia|exact H].
    - intros [->| ->]; auto. }
  split; [reflexivity|]. split; [apply orb_true_iff|]. split; [exact Hint|].
  intros H3. destruct (Hint 3 ltac:(lia) H3) as (Hs & Hp).
  split.
  - destruct (isPaymentSuccessful e); [|reflexivity]. destruct Hs as (Hs & _).
    discriminate (Hs eq_refl).
  - destruct (isPaymentPending e); [|reflexivity]. destruct Hp as (Hp & _).
    destruct (Hp eq_refl); discriminate.
Qed.

(** C5 at the callback of the test suite with status 3. *)
Lemma C5_status_classification_witness :
  let e := {| projectid := js "12345"; orderid := js "ORDER-001";
              Types.amount := Number_of_Z 1000; Types.currency := js "EUR";
              status := Number_of_Z 3; requestid := js "req123";
              paytext := None; name := None; surename := None; payment := None;
              country := None; test := None |} in
  isPaymentSuccessful e = false /\ isPaymentPending e = false.
Proof.
  intros e. apply (C5_status_classification e). reflexivity.
Defined.

(* ===================================================================== *)
(** * Properties: parseInt *)
(* ===================================================================== *)

Lemma shr_1_nonneg mrs : 0 <= shr_m mrs -> 0 <= shr_m (shr_1 mrs).
Proof.
  destruct mrs as [m r s]. cbn [shr_m shr_1].
  destruct m as [|[p|p|]|[p|p|]]; cbn [shr_m]; lia.
Qed.

Lemma iter_pos_invariant {A} (P : A -> Prop) (f : A -> A) :
  (forall x, P x -> P (f x)) -> forall p x, P x -> P (SpecFloat.iter_pos f p x).
Proof.
  intros Hf. induction p as [p IH|p IH|]; intros x Hx; cbn [SpecFloat.iter_pos]; auto.
Qed.

Lemma shr_nonneg mrs e n : 0 <= shr_m mrs -> 0 <= shr_m (fst (shr mrs e n)).
Proof.
  intros H. unfold shr. destruct n; cbn [fst]; try assumption.
  now apply (iter_pos_invariant (fun mrs => 0 <= shr_m mrs)); [apply shr_1_nonneg|].
Qed.

Lemma shr_fexp_nonneg m e l :
  0 <= m -> 0 <= shr_m (fst (shr_fexp prec emax m e l)).
Proof.
  intros H. unfold shr_fexp. apply shr_nonneg.
  destruct l as [|[]]; exact H.
Qed.

Lemma round_nearest_even_nonneg m l : 0 <= m -> 0 <= round_nearest_even m l.
Proof.
  intros H. unfold round_nearest_even.
  destruct l as [|[]]; try lia. destruct (Z.even m); lia.
Qed.

Lemma binary_round_aux_not_nan sx mx ex lx :
  0 <= mx -> isNaN (binary_round_aux prec emax sx mx ex lx) = false.
Proof.
  intros H. unfold binary_round_aux.
  pose proof (shr_fexp_nonneg mx ex lx H) as H1.
  destruct (shr_fexp prec emax mx ex lx) as [mrs' e']. cbn [fst] in H1.
  pose proof (shr_fexp_nonneg
                (round_nearest_even (shr_m mrs') (loc_of_shr_record mrs')) e' loc_Exact
                (round_nearest_even_nonneg _ _ H1)) as H2.
  destruct (shr_fexp prec emax _ e' loc_Exact) as [mrs'' e'']. cbn [fst] in H2.
  destruct (shr_m mrs'') as [|m|m]; [reflexivity| |lia].
  now destruct (e'' <=? emax - prec).
Qed.

(** The number of an integer is never NaN. *)
Lemma Number_of_Z_not_nan n : isNaN (Number_of_Z n) = false.
Proof.
  unfold Number_of_Z, binary_normalize, binary_round.
  destruct n as [|p|p]; [reflexivity| |];
    destruct (shl_align _ _ _) as [mz ez]; now apply binary_round_aux_not_nan.
Qed.

(** [parseInt(s, 10)] is NaN exactly when [s] has no integer prefix, and is
    otherwise the number of that integer. *)
Lemma parseInt10_spec s :
  match integer_prefix s with
  | None => parseInt10 s = NaN
  | Some n => number_of n (parseInt10 s) /\ isNaN (parseInt10 s) = false
  end.
Proof.
  unfold integer_prefix, parseInt10, number_of.
  destruct (strip_sign (trim_start s)) as [negative body].
  destruct (digits_prefix body) as [|d ds]; [reflexivity|].
  set (n := digits_value (d :: ds)).
  destruct (Z.eqb_spec n 0) as [E|E].
  - rewrite E. destruct negative; cbn; split; auto.
  - split; [now left|apply Number_of_Z_not_nan].
Qed.

Lemma isNaN_parseInt10 s :
  isNaN (parseInt10 s) = match integer_prefix s with None => true | Some _ => false end.
Proof.
  pose proof (parseInt10_spec s) as H.
  destruct (integer_prefix s); [tauto|now rewrite H].
Qed.

Example integer_prefix_examples :
  integer_prefix (js "1000") = Some 1000
  /\ integer_prefix (js "abc") = None
  /\ integer_prefix [] = None
  /\ integer_prefix (js "  -42") = Some (-42)
  /\ integer_prefix (js "+7") = Some 7
  /\ integer_prefix (js "12abc") = Some 12
  /\ integer_prefix (js "10.50") = Some 10
  /\ integer_prefix (js "- 7") = None.
Proof. repeat split. Qed.

(* ===================================================================== *)
(** * Properties: parseCallbackData *)
(* ===================================================================== *)

Lemma check_required_missing rawData before field after :
  Forall (fun f => is_Some (rawData !! f)) before ->
  rawData !! field = None ->
  check_required (before ++ field :: after) rawData
  = Throw (PayseraCallbackDataError (js "Missing required field: " ++ field)).
Proof.
  intros Hb Hf. induction Hb as [|f before Hf' _ IH]; cbn [app check_required].
  - rewrite bool_decide_eq_false_2; [reflexivity|].
    rewrite Hf. now intros [? ?].
  - now rewrite bool_decide_eq_true_2.
Qed.

Lemma check_required_present rawData fields :
  Forall (fun f => is_Some (rawData !! f)) fields ->
  check_required fields rawData = Ok tt.
Proof.
  induction 1 as [|f fields Hf _ IH]; cbn [check_required]; [reflexivity|].
  now rewrite bool_decide_eq_true_2.
Qed.

(* ===================================================================== *)
(** * The integer read from a string *)
(* ===================================================================== *)

Lemma trim_start_app ws t :
  Forall (fun c => is_white_space c = true) ws ->
  trim_start (ws ++ t) = trim_start t.
Proof.
  induction 1 as [|c ws Hc _ IH]; [reflexivity|].
  cbn [app trim_start]. now rewrite Hc.
Qed.

Lemma trim_start_split s :
  exists ws, s = ws ++ trim_start s
             /\ Forall (fun c => is_white_space c = true) ws.
Proof.
  induction s as [|c s (ws & E & F)]; [now exists []|].
  cbn [trim_start]. destruct (is_white_space c) eqn:C; [|now exists []].
  exists (c :: ws). cbn [app]. rewrite <- E. auto.
Qed.

Lemma trim_start_head c s :
  is_white_space c = false -> trim_start (c :: s) = c :: s.
Proof. intros C. cbn [trim_start]. now rewrite C. Qed.

Lemma digits_prefix_app ds rest :
  Forall (fun c => is_digit c = true) ds ->
  match rest with [] => True | c :: _ => is_digit c = false end ->
  digits_prefix (ds ++ rest) = map (fun c => c - code "0") ds.
Proof.
  intros F R. induction F as [|c ds Hc _ IH]; cbn [app digits_prefix map].
  - destruct rest as [|c rest]; [reflexivity|]. cbn [digits_prefix]. now rewrite R.
  - now rewrite Hc, IH.
Qed.

Lemma digits_prefix_split body :
  exists ds rest,
    body = ds ++ rest
    /\ Forall (fun c => is_digit c = true) ds
    /\ match rest with [] => True | c :: _ => is_digit c = false end.
Proof.
  induction body as [|c body (ds & rest & E & F & R)]; [now exists [], []|].
  destruct (is_digit c) eqn:C.
  - exists (c :: ds), rest. cbn [app]. rewrite <- E. auto.
  - exists [], (c :: body). auto.
Qed.

Lemma fold_digits ds acc :
  fold_left (fun acc d => 10 * acc + d) (map (fun c => c - code "0") ds) acc
  = acc * 10 ^ Z.of_nat (length ds) + decimal ds.
Proof.
  revert acc. induction ds as [|c ds IH]; intros acc; cbn [map fold_left length decimal].
  - cbn. lia.
  - rewrite IH, Nat2Z.inj_succ, Z.pow_succ_r by lia. lia.
Qed.

Lemma digits_value_decimal ds :
  digits_value (map (fun c => c - code "0") ds) = decimal ds.
Proof. unfold digits_value. rewrite fold_digits. lia. Qed.

Lemma digits_value_cons d ds :
  digits_value ((d - code "0") :: map (fun c => c - code "0") ds)
  = decimal (d :: ds).
Proof. exact (digits_value_decimal (d :: ds)). Qed.

Lemma digit_range c : is_digit c = true -> code "0" <= c <= code "9".
Proof. unfold is_digit. now rewrite between_spec. Qed.

Lemma digit_not_white c : is_digit c = true -> is_white_space c = false.
Proof.
  intros D. apply digit_range in D. revert D. codes. intros D.
  unfold is_white_space, between. cbn [existsb].
  repeat match goal with
         | |- context [Z.eqb c ?k] => destruct (Z.eqb_spec c k); [lia|]
         end.
  cbn [orb]. apply andb_false_iff. left. apply Z.leb_gt. lia.
Qed.

Lemma strip_sign_digit c s :
  is_digit c = true -> strip_sign (c :: s) = (false, c :: s).
Proof.
  intros D. apply digit_range in D. revert D. unfold strip_sign. codes. intros D.
  destruct (Z.eqb_spec c 45); [lia|]. destruct (Z.eqb_spec c 43); [lia|]. reflexivity.
Qed.

(** [integer_prefix], the reading of [parseInt(_, 10)], reads exactly the
    integers [reads_integer] describes. *)
Lemma integer_prefix_reads s n :
  integer_prefix s = Some n <-> reads_integer s n.
Proof.
  split.
  - unfold integer_prefix. intros H.
    destruct (trim_start_split s) as (ws & E & F).
    destruct (strip_sign (trim_start s)) as [negative body] eqn:S.
    destruct (digits_prefix_split body) as (ds & rest & Eb & Fd & R).
    rewrite Eb, (digits_prefix_app ds rest Fd R) in H.
    destruct ds as [|d ds]; [discriminate|].
    cbn [map] in H. rewrite digits_value_cons in H.
    assert (trim_start s = (if negative then js "-" else []) ++ body
            \/ (negative = false /\ trim_start s = js "+" ++ body)) as T.
    { revert S. unfold strip_sign. destruct (trim_start s) as [|c t].
      - intros S. injection S as <- <-. now left.
      - destruct (Z.eqb_spec c (code "-")) as [-> | _];
          [intros S; injection S as <- <-; now left|].
        destruct (Z.eqb_spec c (code "+")) as [-> | _];
          intros S; injection S as <- <-; [now right|now left]. }
    destruct T as [T|(-> & T)].
    + exists ws, (if negative then js "-" else []), (d :: ds), rest.
      rewrite E at 1. rewrite T, Eb.
      repeat split; try assumption; try discriminate.
      * destruct negative; auto.
      * destruct negative; cbn in H |- *; now injection H as <-.
    + exists ws, (js "+"), (d :: ds), rest.
      rewrite E at 1. rewrite T, Eb.
      repeat split; try assumption; try discriminate; auto.
      cbn in H |- *. now injection H as <-.
  - intros (ws & sign & ds & rest & -> & F & Sg & N & Fd & R & ->).
    unfold integer_prefix. rewrite (trim_start_app ws _ F).
    destruct ds as [|d ds]; [contradiction|].
    pose proof (Forall_inv Fd) as Dd.
    destruct Sg as [-> | [-> | ->]].
    + cbn [app]. rewrite trim_start_head by now apply digit_not_white.
      rewrite strip_sign_digit by assumption. cbv beta iota.
      change (d :: ds ++ rest) with ((d :: ds) ++ rest).
      rewrite (digits_prefix_app _ rest Fd R). cbn [map].
      rewrite digits_value_cons. reflexivity.
    + change (js "+" ++ (d :: ds) ++ rest) with (code "+" :: (d :: ds) ++ rest).
      rewrite trim_start_head by reflexivity.
      change (strip_sign (code "+" :: (d :: ds) ++ rest))
        with (false, (d :: ds) ++ rest). cbv beta iota.
      rewrite (digits_prefix_app _ rest Fd R). cbn [map].
      rewrite digits_value_cons. reflexivity.
    + change (js "-" ++ (d :: ds) ++ rest) with (code "-" :: (d :: ds) ++ rest).
      rewrite trim_start_head by reflexivity.
      change (strip_sign (code "-" :: (d :: ds) ++ rest))
        with (true, (d :: ds) ++ rest). cbv beta iota.
      rewrite (digits_prefix_app _ rest Fd R). cbn [map].
      rewrite digits_value_cons. reflexivity.
Qed.

Lemma integer_prefix_none s :
  integer_prefix s = None <-> forall n, ~ reads_integer s n.
Proof.
  split.
  - intros H n R. apply integer_prefix_reads in R. congruence.
  - intros H. destruct (integer_prefix s) as [n|] eqn:E; [|reflexivity].
    apply integer_prefix_reads in E. now apply H in E.
Qed.

(* ===================================================================== *)
(** * Properties: parseCallbackData, the claim *)
(* ===================================================================== *)

(** C3, as stated, fails.  The amount "10.50" is not a base-10 integer, and
    [parseCallbackData] does not throw "Invalid amount value" on it: it
    reads the digits before the point and returns the amount 10.  And an
    amount that is a base-10 integer need not come back as an integer: a
    one followed by 309 zeros comes back as infinity. *)
Lemma C3_amount_read_up_to_the_point :
  let callback (a : jsstring) : gmap jsstring jsstring :=
    <[js "projectid" := js "12345"]> (<[js "orderid" := js "ORDER-001"]>
      (<[js "amount" := a]> (<[js "currency" := js "EUR"]>
        (<[js "status" := js "1"]> (<[js "requestid" := js "req123"]> ∅))))) in
  let huge := code "1" :: repeat (code "0") 309 in
  (base10_integer (js "10.50") = false
   /\ parseCallbackData (callback (js "10.50"))
      = Ok {| projectid := js "12345"; orderid := js "ORDER-001";
              Types.amount := Number_of_Z 10; Types.currency := js "EUR";
              status := Number_of_Z 1; requestid := js "req123";
              paytext := None; name := None; surename := None; payment := None;
              country := None; test := None |})
  /\ (base10_integer huge = true
      /\ parseCallbackData (callback huge)
         = Ok {| projectid := js "12345"; orderid := js "ORDER-001";
                 Types.amount := S754_infinity false; Types.currency := js "EUR";
                 status := Number_of_Z 1; requestid := js "req123";
                 paytext := None; name := None; surename := None; payment := None;
                 country := None; test := None |}
      /\ integer_value (S754_infinity false) = None).
Proof.
  cbv zeta. split; [split|split; [|split]]; vm_compute; reflexivity.
Qed.

(** C3, amended: [parseCallbackData] throws [PayseraCallbackDataError]
    naming the first missing required field, the fields being checked in
    the order projectid, orderid, amount, currency, status, requestid.
    With all six present it throws "Invalid amount value", respectively
    "Invalid status value", unless the amount, respectively the status, is,
    after leading white space, an optional sign and at least one decimal
    digit, whatever follows the digits.  Otherwise it succeeds: amount and
    status are the numbers nearest to the integers so read, and those
    integers themselves below 2^53 in magnitude; the optional fields are
    copied, and [test] is 1 for "1", 0 for "0" and undefined otherwise.
    A string reads as at most one integer, and either reads as one or as
    none. *)
Theorem C3_parseCallbackData (rawData : gmap jsstring jsstring) :
  required = [js "projectid"; js "orderid"; js "amount"; js "currency";
              js "status"; js "requestid"]
  /\ (forall before field after,
        required = before ++ field :: after ->
        Forall (fun f => is_Some (rawData !! f)) before ->
        rawData !! field = None ->
        parseCallbackData rawData
        = Throw (PayseraCallbackDataError (js "Missing required field: " ++ field)))
  /\ (forall p o a c s q,
        rawData !! js "projectid" = Some p ->
        rawData !! js "orderid" = Some o ->
        rawData !! js "amount" = Some a ->
        rawData !! js "currency" = Some c ->
        rawData !! js "status" = Some s ->
        rawData !! js "requestid" = Some q ->
        ((forall n, ~ reads_integer a n) ->
         parseCallbackData rawData
         = Throw (PayseraCallbackDataError (js "Invalid amount value")))
        /\ (forall n,
              reads_integer a n -> (forall m, ~ reads_integer s m) ->
              parseCallbackData rawData
              = Throw (PayseraCallbackDataError (js "Invalid status value")))
        /\ (forall n m,
              reads_integer a n -> reads_integer s m ->
              exists x y,
                parseCallbackData rawData
                = Ok {| projectid := p; orderid := o; Types.amount := x;
                        Types.currency := c; status := y; requestid := q;
                        paytext := rawData !! js "paytext";
                        name := rawData !! js "name";
                        surename := rawData !! js "surename";
                        payment := rawData !! js "payment";
                        country := rawData !! js "country";
                        test := match rawData !! js "test" with
                                | Some t => if bool_decide (t = js "1") then Some 1
                                            else if bool_decide (t = js "0") then Some 0
                                            else None
                                | None => None
                                end |}
                /\ number_of n x /\ number_of m y
                /\ (- 2 ^ 53 < n < 2 ^ 53 -> integer_value x = Some n)
                /\ (- 2 ^ 53 < m < 2 ^ 53 -> integer_value y = Some m)))
  /\ (forall s,
        (exists n, reads_integer s n) \/ (forall n, ~ reads_integer s n))
  /\ (forall s n n', reads_integer s n -> reads_integer s n' -> n = n').
Proof.
  split; [reflexivity|]. split; [|split; [|split]].
  - intros before field after Hreq Hb Hf. unfold parseCallbackData.
    rewrite Hreq, (check_required_missing rawData before field after Hb Hf).
    reflexivity.
  - intros p o a c s q Hp Ho Ha Hc Hs Hq.
    assert (parseCallbackData rawData =
            match integer_prefix a, integer_prefix s with
            | None, _ => Throw (PayseraCallbackDataError (js "Invalid amount value"))
            | Some _, None => Throw (PayseraCallbackDataError (js "Invalid status value"))
            | Some _, Some _ =>
                Ok {| projectid := p; orderid := o; Types.amount := parseInt10 a;
                      Types.currency := c; status := parseInt10 s; requestid := q;
                      paytext := rawData !! js "paytext";
                      name := rawData !! js "name";
                      surename := rawData !! js "surename";
                      payment := rawData !! js "payment";
                      country := rawData !! js "country";
                      test := match rawData !! js "test" with
                              | Some t => if bool_decide (t = js "1") then Some 1
                                          else if bool_decide (t = js "0") then Some 0
                                          else None
                              | None => None
                              end |}
            end) as E.
    { unfold parseCallbackData.
      rewrite check_required_present
        by (unfold required; repeat constructor; eauto).
      rewrite bind_Ok.
      rewrite (lookup_total_correct _ _ _ Hp), (lookup_total_correct _ _ _ Ho),
        (lookup_total_correct _ _ _ Ha), (lookup_total_correct _ _ _ Hc),
        (lookup_total_correct _ _ _ Hs), (lookup_total_correct _ _ _ Hq).
      rewrite !isNaN_parseInt10.
      destruct (integer_prefix a); [|reflexivity].
      destruct (integer_prefix s); [|reflexivity].
      do 2 f_equal.
      destruct (rawData !! js "test") as [t|] eqn:Et.
      + destruct (bool_decide_reflect (t = js "1")) as [->|N1].
        * now rewrite bool_decide_eq_true_2.
        * rewrite bool_decide_eq_false_2 by congruence.
          destruct (bool_decide_reflect (t = js "0")) as [->|N0].
          -- now rewrite bool_decide_eq_true_2.
          -- now rewrite bool_decide_eq_false_2 by congruence.
      + now rewrite !bool_decide_eq_false_2 by discriminate. }
    split; [|split].
    + intros Na. apply integer_prefix_none in Na. now rewrite E, Na.
    + intros n Ra Ns. apply integer_prefix_reads in Ra.
      apply integer_prefix_none in Ns. now rewrite E, Ra, Ns.
    + intros n m Ra Rs. apply integer_prefix_reads in Ra, Rs.
      rewrite E, Ra, Rs. exists (parseInt10 a), (parseInt10 s).
      pose proof (parseInt10_spec a) as Ha'. rewrite Ra in Ha'.
      pose proof (parseInt10_spec s) as Hs'. rewrite Rs in Hs'.
      destruct Ha' as (Ha' & _), Hs' as (Hs' & _).
      split; [reflexivity|]. split; [exact Ha'|]. split; [exact Hs'|]. split.
      * intros Hb. destruct Ha' as [->|(-> & ->)];
          [now apply integer_value_Number_of_Z|reflexivity].
      * intros Hb. destruct Hs' as [->|(-> & ->)];
          [now apply integer_value_Number_of_Z|reflexivity].
  - intros s. destruct (integer_prefix s) as [n|] eqn:E.
    + left. exists n. now apply integer_prefix_reads.
    + right. now apply integer_prefix_none.
  - intros s n n' R R'. apply integer_prefix_reads in R, R'. congruence.
Qed.

(** C3 at inputs of the test suite and beside it: a callback without
    [orderid]; one whose amount is "abc"; and a complete one with the amount
    "  -42abc" and the status "1". *)
Lemma C3_parseCallbackData_witness :
  let callback (a : jsstring) : gmap jsstring jsstring :=
    <[js "projectid" := js "12345"]> (<[js "orderid" := js "ORDER-001"]>
      (<[js "amount" := a]> (<[js "currency" := js "EUR"]>
        (<[js "status" := js "1"]> (<[js "requestid" := js "req123"]>
          (<[js "test" := js "0"]> ∅)))))) in
  parseCallbackData (delete (js "orderid") (callback (js "1000")))
  = Throw (PayseraCallbackDataError (js "Missing required field: orderid"))
  /\ parseCallbackData (callback (js "abc"))
     = Throw (PayseraCallbackDataError (js "Invalid amount value"))
  /\ exists x y,
      parseCallbackData (callback (js "  -42abc"))
      = Ok {| projectid := js "12345"; orderid := js "ORDER-001";
              Types.amount := x; Types.currency := js "EUR";
              status := y; requestid := js "req123";
              paytext := None; name := None; surename := None; payment := None;
              country := None; test := Some 0 |}
      /\ integer_value x = Some (-42) /\ integer_value y = Some 1.
Proof.
  intros callback. split; [|split].
  - destruct (C3_parseCallbackData (delete (js "orderid") (callback (js "1000"))))
      as (_ & H & _).
    apply (H [js "projectid"] (js "orderid")
             [js "amount"; js "currency"; js "status"; js "requestid"]).
    + reflexivity.
    + repeat constructor. exists (js "12345"). vm_compute. reflexivity.
    + vm_compute. reflexivity.
  - destruct (C3_parseCallbackData (callback (js "abc"))) as (_ & _ & H & _).
    pose proof (H (js "12345") (js "ORDER-001") (js "abc") (js "EUR") (js "1")
                  (js "req123")) as H'.
    do 6 (lapply H'; [clear H'; intros H'|vm_compute; reflexivity]).
    destruct H' as (Ha & _).
    apply Ha. intros n (ws & sign & ds & rest & E & Fw & Sg & Nd & Fd & _).
    destruct ws as [|w ws].
    + destruct Sg as [-> | [-> | ->]]; destruct ds as [|d ds]; try contradiction;
        cbn in E; injection E as E _; try discriminate.
      apply Forall_inv in Fd. subst d. discriminate.
    + cbn in E. injection E as E _. apply Forall_inv in Fw. subst w. discriminate.
  - destruct (C3_parseCallbackData (callback (js "  -42abc"))) as (_ & _ & H & _).
    pose proof (H (js "12345") (js "ORDER-001") (js "  -42abc") (js "EUR") (js "1")
                  (js "req123")) as H'.
    do 6 (lapply H'; [clear H'; intros H'|vm_compute; reflexivity]).
    destruct H' as (_ & _ & Hr).
    destruct (Hr (-42) 1) as (x & y & E & _ & _ & Ix & Iy).
    + exists (js "  "), (js "-"), (js "42"), (js "abc").
      repeat split; try discriminate; auto; repeat constructor.
    + exists [], [], (js "1"), [].
      repeat split; try discriminate; auto; repeat constructor.
    + exists x, y. split; [exact E|]. split; [apply Ix|apply Iy]; lia.
Defined.

(* ===================================================================== *)
(** * Properties: the query-string parser *)
(* ===================================================================== *)

Lemma split_nonempty sep s : split sep s <> [].
Proof.
  induction s as [|c s IH]; cbn [split]; [discriminate|].
  destruct (c =? sep); [discriminate|]. now destruct (split sep s).
Qed.

(** A piece free of the separator, followed by the separator, is the first
    piece. *)
Lemma split_app sep p s :
  Forall (fun c => c <> sep) p ->
  split sep (p ++ sep :: s) = p :: split sep s.
Proof.
  induction 1 as [|c p Hc _ IH]; cbn [app split].
  - now rewrite Z.eqb_refl.
  - destruct (Z.eqb_spec c sep); [contradiction|]. now rewrite IH.
Qed.

Lemma split_single sep p :
  Forall (fun c => c <> sep) p -> split sep p = [p].
Proof.
  induction 1 as [|c p Hc _ IH]; cbn [split]; [reflexivity|].
  destruct (Z.eqb_spec c sep); [contradiction|]. now rewrite IH.
Qed.

(** What [const [key, value] = pair.split("=")] does to a pair with two
    [=]: the text from the second [=] on is dropped. *)
Lemma parsePair_second_equals params key value remainder :
  Forall (fun c => c <> code "=") key ->
  Forall (fun c => c <> code "=") value ->
  parsePair params (key ++ js "=" ++ value ++ js "=" ++ remainder)
  = parsePair params (key ++ js "=" ++ value).
Proof.
  intros Hk Hv. unfold parsePair. change (js "=") with [code "="]. cbn [app].
  rewrite !(split_app _ key) by assumption.
  rewrite (split_app _ value) by assumption.
  rewrite (split_single _ value) by assumption.
  reflexivity.
Qed.

(** A pair [key=value] with a single [=]: both sides are percent-decoded,
    and an empty value stays empty. *)
Lemma parsePair_key_value params key value :
  key <> [] ->
  Forall (fun c => c <> code "=") key ->
  Forall (fun c => c <> code "=") value ->
  parsePair params (key ++ js "=" ++ value)
  = (k ← decodeURIComponent key;
     v ← (if truthy value then decodeURIComponent value else Ok []);
     Ok (set_property k v params)).
Proof.
  intros Hne Hk Hv. unfold parsePair. change (js "=") with [code "="]. cbn [app].
  rewrite split_app, (split_single _ value) by assumption.
  cbn [hd lookup list_lookup]. apply truthy_true in Hne. now rewrite Hne.
Qed.

(** A key with no [=] maps to the empty string. *)
Lemma parsePair_key_only params key :
  key <> [] ->
  Forall (fun c => c <> code "=") key ->
  parsePair params key
  = (k ← decodeURIComponent key; Ok (set_property k [] params)).
Proof.
  intros Hne Hk. unfold parsePair. rewrite split_single by assumption.
  cbn [hd lookup list_lookup]. apply truthy_true in Hne. rewrite Hne.
  now destruct (decodeURIComponent key).
Qed.

(** The last occurrence of a key wins. *)
Lemma set_property_twice key v1 v2 params :
  set_property key v2 (set_property key v1 params) = set_property key v2 params.
Proof.
  unfold set_property. destruct (bool_decide _); [reflexivity|].
  apply insert_insert_eq.
Qed.

Example decodeCallbackData_test_suite :
  decodeCallbackData (toUrlSafeBase64 (js "projectid=123&orderid=order1&amount=100"))
  = Ok (<[js "projectid" := js "123"]> (<[js "orderid" := js "order1"]>
         (<[js "amount" := js "100"]> ∅)))
  /\ decodeCallbackData (toUrlSafeBase64 (js "projectid=123&paytext=Payment%20for%20order"))
     = Ok (<[js "projectid" := js "123"]>
            (<[js "paytext" := js "Payment for order"]> ∅))
  /\ decodeCallbackData (toUrlSafeBase64 (js "projectid=123&empty="))
     = Ok (<[js "projectid" := js "123"]> (<[js "empty" := []]> ∅)).
Proof. repeat split; vm_compute; reflexivity. Qed.

(** The other parts of the description hold on these inputs: a key without
    [=] maps to the empty string, the last of two occurrences wins, key and
    value are percent-decoded, and a malformed escape throws. *)
Example decodeCallbackData_behaviour :
  decodeCallbackData (toUrlSafeBase64 (js "flag&k=1&k=2&a%20b=c%3Dd"))
  = Ok (<[js "flag" := []]> (<[js "k" := js "2"]> (<[js "a b" := js "c=d"]> ∅)))
  /\ decodeCallbackData (toUrlSafeBase64 (js "a=%zz")) = Throw URIError.
Proof. repeat split; vm_compute; reflexivity. Qed.

(** C4 does not hold of the code.  The payload "YT1iPWM=" is the URL-safe
    base64 of "a=b=c"; splitting the pair on the first [=] only would give
    the value "b=c", but the pair is split on every [=] and the first two
    pieces are kept, so the value is "b". *)
Theorem C4_value_cut_at_second_equals :
  toUrlSafeBase64 (js "a=b=c") = js "YT1iPWM="
  /\ decodeCallbackData (js "YT1iPWM=") = Ok {[ js "a" := js "b" ]}
  /\ decodeCallbackData (js "YT1iPWM=") <> Ok {[ js "a" := js "b=c" ]}.
Proof.
  split; [reflexivity|]. split; [vm_compute; reflexivity|].
  vm_compute. intros H. discriminate H.
Qed.

(* ===================================================================== *)
(** * Properties: percent-encoding *)
(* ===================================================================== *)

Lemma uriUnescaped_plain c : uriUnescaped c = true -> plain c.
Proof.
  unfold uriUnescaped, is_alnum, is_alpha, is_digit, uriMark, between, plain.
  change (js "-_.!~*'()") with [45; 95; 46; 33; 126; 42; 39; 40; 41].
  cbn [existsb]. codes.
  rewrite !orb_true_iff, !andb_true_iff, !Z.leb_le, !Z.eqb_eq. lia.
Qed.

Lemma hex_upper_plain n : 0 <= n < 16 -> plain (hex_upper n).
Proof.
  intros H. unfold hex_upper, plain. codes.
  destruct (Z.ltb_spec n 10); lia.
Qed.

Lemma pct_octet_plain b : Forall plain (pct_octet b).
Proof.
  unfold pct_octet.
  constructor; [|constructor; [|constructor; [|constructor]]].
  - unfold plain. codes. lia.
  - apply hex_upper_plain. apply Z.mod_pos_bound. lia.
  - apply hex_upper_plain. apply Z.mod_pos_bound. lia.
Qed.

Lemma Forall_flat_map {A B} (P : B -> Prop) (f : A -> list B) l :
  (forall a, Forall P (f a)) -> Forall P (flat_map f l).
Proof.
  intros Hf. induction l as [|a l IH]; cbn [flat_map]; [constructor|].
  apply Forall_app. split; [apply Hf|exact IH].
Qed.

Lemma percent_encode_plain s : Forall plain (percent_encode s).
Proof.
  unfold percent_encode. apply Forall_flat_map. intros cp.
  destruct (uriUnescaped cp) eqn:E.
  - constructor; [now apply uriUnescaped_plain|constructor].
  - apply Forall_flat_map, pct_octet_plain.
Qed.

Lemma mapM_encode_code_point cps :
  mapM encode_code_point cps =
  if forallb (fun cp => negb (is_surrogate cp)) cps
  then Ok (map (fun cp => if uriUnescaped cp then [cp]
                          else flat_map pct_octet (utf8_encode_cp cp)) cps)
  else Throw URIError.
Proof.
  induction cps as [|cp cps IH]; cbn [mapM forallb map]; [reflexivity|].
  unfold encode_code_point at 1.
  destruct (is_surrogate cp); cbn [negb andb]; [reflexivity|].
  rewrite IH. destruct (uriUnescaped cp); cbn [Errors.bind];
    now destruct (forallb _ cps).
Qed.

(** [encodeURIComponent] is percent-encoding on well-formed strings and
    throws on the others. *)
Lemma encodeURIComponent_spec s :
  encodeURIComponent s =
  if isWellFormed s then Ok (percent_encode s) else Throw URIError.
Proof.
  unfold encodeURIComponent, isWellFormed, percent_encode.
  rewrite mapM_encode_code_point.
  destruct (forallb _ (code_points s)); [|reflexivity].
  cbn. now rewrite flat_map_concat_map.
Qed.

Lemma encodeEntry_spec kv :
  encodeEntry kv =
  if well_formed_field kv then Ok (entry_text kv) else Throw URIError.
Proof.
  unfold encodeEntry, well_formed_field, entry_text.
  rewrite !encodeURIComponent_spec.
  destruct (isWellFormed (fst kv)); [|reflexivity].
  now destruct (isWellFormed (String_ (snd kv))).
Qed.

Lemma mapM_encodeEntry fields :
  mapM encodeEntry fields =
  if forallb well_formed_field fields then Ok (map entry_text fields)
  else Throw URIError.
Proof.
  induction fields as [|kv fields IH]; cbn [mapM forallb map]; [reflexivity|].
  rewrite encodeEntry_spec, IH.
  destruct (well_formed_field kv); [|reflexivity].
  now destruct (forallb _ fields).
Qed.

Lemma encodeParams_spec params :
  encodeParams params =
  let fields := List.filter (fun kv => present (snd kv)) params in
  if forallb well_formed_field fields
  then Ok (join (js "&") (map entry_text fields))
  else Throw URIError.
Proof.
  unfold encodeParams. rewrite mapM_encodeEntry. cbv zeta.
  now destruct (forallb _ _).
Qed.

(** ** Splitting what was joined *)

Lemma split_join sep pieces :
  pieces <> [] ->
  Forall (Forall (fun c => c <> sep)) pieces ->
  split sep (join [sep] pieces) = pieces.
Proof.
  intros Hne Hp. destruct pieces as [|p pieces]; [contradiction|clear Hne].
  revert p Hp. induction pieces as [|q pieces IH]; intros p Hp; cbn [join flat_map].
  - rewrite app_nil_r. apply split_single. now inversion Hp.
  - inversion Hp as [|? ? Hp1 Hp2]; subst. cbn [app].
    rewrite split_app by assumption.
    f_equal. apply (IH q Hp2).
Qed.

Lemma plain_no_amp s : Forall plain s -> Forall (fun c => c <> code "&") s.
Proof. intros H. eapply Forall_impl; [exact H|]. unfold plain. tauto. Qed.

Lemma plain_no_eq s : Forall plain s -> Forall (fun c => c <> code "=") s.
Proof. intros H. eapply Forall_impl; [exact H|]. unfold plain. tauto. Qed.

Lemma entry_text_plain kv : Forall (fun c => c <> code "&") (entry_text kv).
Proof.
  unfold entry_text. rewrite !Forall_app. repeat split.
  - apply plain_no_amp, percent_encode_plain.
  - constructor; [discriminate|constructor].
  - apply plain_no_amp, percent_encode_plain.
Qed.

Lemma entry_text_key kv :
  hd [] (split (code "=") (entry_text kv)) = percent_encode (fst kv).
Proof.
  unfold entry_text. change (js "=") with [code "="]. cbn [app].
  rewrite split_app by apply plain_no_eq, percent_encode_plain. reflexivity.
Qed.

(** The pieces of an encoded payload are the texts of the present fields,
    in order. *)
Lemma split_encoded fields :
  fields <> [] ->
  split (code "&") (join (js "&") (map entry_text fields)) = map entry_text fields.
Proof.
  intros Hne. apply split_join.
  - now destruct fields.
  - apply Forall_map, Forall_forall. intros kv _. apply entry_text_plain.
Qed.

Lemma emitted_keys_encoded fields :
  fields <> [] ->
  emitted_keys (join (js "&") (map entry_text fields))
  = map (fun kv => percent_encode (fst kv)) fields.
Proof.
  intros Hne. unfold emitted_keys. rewrite split_encoded by assumption.
  rewrite map_map. apply map_ext. intros kv. apply entry_text_key.
Qed.

(* ===================================================================== *)
(** * Properties: the request parameters *)
(* ===================================================================== *)

Lemma in_add_optional kv key o params :
  In kv (add_optional key o params)
  <-> In kv params \/ exists s, o = Some s /\ s <> [] /\ kv = (key, VString s).
Proof.
  unfold add_optional. destruct o as [s|].
  - destruct (truthy s) eqn:T.
    + apply truthy_true in T. rewrite in_app_iff. cbn [In]. split.
      * intros [?|[<-|[]]]; eauto.
      * intros [?|(s' & [= <-] & _ & ->)]; auto.
    + apply truthy_false in T. split; auto.
      intros [?|(s' & [= <-] & N & _)]; [assumption|contradiction].
  - split; auto. intros [?|(s' & [=] & _)]; assumption.
Qed.

(** The properties of the object built by [createPaymentRequest]: the nine
    fixed ones, and one for each optional field that is set. *)
Lemma in_requestParams kv this oid options :
  In kv (requestParams this oid options)
  <-> In kv [(js "projectid", VString (projectId (config this)));
             (js "orderid", VString oid);
             (js "accepturl", VString (acceptUrl (urls options)));
             (js "cancelurl", VString (cancelUrl (urls options)));
             (js "callbackurl", VString (callbackUrl (urls options)));
             (js "version", VString PAYSERA_API_VERSION);
             (js "amount", VNumber (toMinorUnits (amount options)));
             (js "currency", VString (currency options));
             (js "test", VNumber (if testMode (config this)
                                  then Number_of_Z 1 else Number_of_Z 0))]
      \/ exists key s, In (key, Some s) (optional_fields options)
                       /\ s <> [] /\ kv = (key, VString s).
Proof.
  unfold requestParams, optional_fields. rewrite !in_add_optional. cbn [In].
  split.
  - intros [[[[[H|H]|H]|H]|H]|H]; [left; exact H|right..];
      destruct H as (s & E & N & ->);
      refine (ex_intro _ _ (ex_intro _ s (conj _ (conj N eq_refl))));
      rewrite <- E; cbn [In]; auto 10.
  - intros [H|(key & s & H & N & ->)]; [tauto|].
    destruct H as [[= <- E]|[[= <- E]|[[= <- E]|[[= <- E]|[[= <- E]|[]]]]]];
      rewrite E; eauto 10.
Qed.

Lemma requestParams_keys_plain kv this oid options :
  In kv (requestParams this oid options) -> percent_encode (fst kv) = fst kv.
Proof.
  rewrite in_requestParams. cbn [In optional_fields].
  intros [H|(key & s & H & _ & ->)].
  - repeat (destruct H as [<-|H]; [reflexivity|]). contradiction.
  - repeat (destruct H as [[= <- _]|H]; [reflexivity|]). contradiction.
Qed.

Lemma amount_in_requestParams this oid options :
  In (js "amount", VNumber (toMinorUnits (amount options)))
     (List.filter (fun kv => present (snd kv)) (requestParams this oid options)).
Proof.
  apply filter_In. split; [|reflexivity].
  apply in_requestParams. left. cbn [In]. tauto.
Qed.

(** An optional field that is not set has no property in the object. *)
Lemma unset_not_in_requestParams this oid options key o v :
  In (key, o) (optional_fields options) -> unset o ->
  ~ In (key, v) (requestParams this oid options).
Proof.
  intros Hk Hu Hin. apply in_requestParams in Hin.
  cbn [In optional_fields] in *.
  destruct Hin as [Hin|(key' & s & Hin & N & [= <- ->])].
  - repeat (destruct Hk as [[= <- <-]|Hk];
            [repeat (destruct Hin as [[=]|Hin]; try contradiction)|]).
    contradiction.
  - repeat (destruct Hk as [[= <- <-]|Hk];
      [repeat (destruct Hin as [[= E]|Hin]; try contradiction;
               try (destruct Hu as [Hu|Hu]; rewrite Hu in E; congruence))|]).
    contradiction.
Qed.

(* ===================================================================== *)
(** * Properties: encodeParams *)
(* ===================================================================== *)

Lemma present_false v :
  present v = false <-> v = VUndefined \/ v = VNull \/ v = VString [].
Proof.
  destruct v as [| |[|c s]|x]; cbn; split; auto; try discriminate;
    intros [?|[?|?]]; discriminate.
Qed.

Lemma filter_absent {A} (f : A -> bool) before x after :
  f x = false ->
  List.filter f (before ++ x :: after) = List.filter f (before ++ after).
Proof.
  intros Hx. rewrite !List.filter_app. cbn [List.filter]. now rewrite Hx.
Qed.

Example encodeParams_test_suite :
  encodeParams [(js "projectid", VString (js "123"));
                (js "orderid", VString (js "order&special=test"));
                (js "amount", VNumber (Number_of_Z 100));
                (js "test", VNumber (Number_of_Z 0));
                (js "p_email", VString []);
                (js "p_firstname", VUndefined)]
  = Ok (js "projectid=123&orderid=order%26special%3Dtest&amount=100&test=0").
Proof. vm_compute. reflexivity. Qed.

(** C6: [encodeParams] emits the fields that are present, in the order of
    the parameter set, as [k1=v1&k2=v2&...], key and value both
    percent-encoded (and throws [URIError] when one of them has an unpaired
    surrogate, which cannot be percent-encoded); a field whose value is
    undefined, null or the empty string contributes nothing: the output is
    that of the parameter set without the field, and the keys found in the
    output are those of the present fields only; in particular the payload
    built from a request description has no key for an optional field that
    is not set. *)
Theorem C6_encodeParams (params : PayseraRequestParams) :
  let fields := List.filter (fun kv => present (snd kv)) params in
  (encodeParams params =
     if forallb (fun kv => isWellFormed (fst kv) && isWellFormed (String_ (snd kv)))
                fields
     then Ok (join (js "&") (map entry_text fields))
     else Throw URIError)
  /\ (forall v, present v = false <-> v = VUndefined \/ v = VNull \/ v = VString [])
  /\ (forall before k v after,
        params = before ++ (k, v) :: after -> present v = false ->
        encodeParams params = encodeParams (before ++ after))
  /\ (forall out,
        encodeParams params = Ok out ->
        (fields = [] -> out = [])
        /\ (fields <> [] ->
            split (code "&") out = map entry_text fields
            /\ emitted_keys out = map (fun kv => percent_encode (fst kv)) fields))
  /\ (forall this oid options out key o,
        params = requestParams this oid options ->
        encodeParams params = Ok out ->
        In (key, o) (optional_fields options) -> unset o ->
        ~ In key (emitted_keys out)).
Proof.
  cbv zeta.
  assert (Hout : forall out,
             encodeParams params = Ok out ->
             out = join (js "&")
                     (map entry_text (List.filter (fun kv => present (snd kv)) params))).
  { intros out. rewrite encodeParams_spec. cbv zeta.
    destruct (forallb _ _); [|discriminate]. congruence. }
  split; [apply encodeParams_spec|]. split; [apply present_false|].
  split; [|split].
  - intros before k v after -> Hv. rewrite !encodeParams_spec. cbv zeta.
    now rewrite (filter_absent (fun kv => present (snd kv)) before (k, v) after Hv).
  - intros out Ho. apply Hout in Ho. subst out. split.
    + now intros ->.
    + intros Hne. split; [now apply split_encoded|now apply emitted_keys_encoded].
  - intros this oid options out key o -> Ho Hk Hu Hin.
    apply Hout in Ho. subst out.
    assert (Hne : List.filter (fun kv => present (snd kv))
                    (requestParams this oid options) <> []).
    { intros E. pose proof (amount_in_requestParams this oid options) as Ha.
      rewrite E in Ha. destruct Ha. }
    rewrite emitted_keys_encoded in Hin by assumption.
    apply in_map_iff in Hin as ((k & v) & Ek & Hkv).
    apply filter_In in Hkv as (Hkv & _).
    rewrite (requestParams_keys_plain _ _ _ _ Hkv) in Ek. cbn [fst] in Ek. subst k.
    exact (unset_not_in_requestParams this oid options key o v Hk Hu Hkv).
Qed.

(** C6 at a parameter set with an undefined and an empty field. *)
Lemma C6_encodeParams_witness :
  encodeParams [(js "projectid", VString (js "123"));
                (js "p_email", VUndefined);
                (js "orderid", VString (js "order&special=test"));
                (js "p_firstname", VString [])]
  = Ok (js "projectid=123&orderid=order%26special%3Dtest").
Proof.
  destruct (C6_encodeParams
              [(js "projectid", VString (js "123"));
               (js "p_email", VUndefined);
               (js "orderid", VString (js "order&special=test"));
               (js "p_firstname", VString [])]) as (_ & _ & H & _).
  rewrite (H [(js "projectid", VString (js "123"))] (js "p_email") VUndefined
             [(js "orderid", VString (js "order&special=test"));
              (js "p_firstname", VString [])] eq_refl eq_refl).
  vm_compute. reflexivity.
Defined.

(* ===================================================================== *)
(** * Properties: the order identifier *)
(* ===================================================================== *)

Lemma hex_lower_spec n :
  0 <= n < 16 ->
  is_hex_lower (hex_lower n) = true /\ hex_lower n <> code "-".
Proof.
  intros H. unfold is_hex_lower, is_digit, hex_lower, between. codes.
  destruct (Z.ltb_spec n 10); split; try lia;
    rewrite orb_true_iff, !andb_true_iff, !Z.leb_le; lia.
Qed.

Lemma byteToHex_spec b :
  length (byteToHex b) = 2%nat
  /\ Forall (fun c => is_hex_lower c = true /\ c <> code "-") (byteToHex b).
Proof.
  split; [reflexivity|]. unfold byteToHex.
  constructor; [|constructor; [|constructor]];
    apply hex_lower_spec, Z.mod_pos_bound; lia.
Qed.

Lemma length_flat_map_byteToHex bs :
  length (flat_map byteToHex bs) = (2 * length bs)%nat.
Proof.
  induction bs as [|b bs IH]; [reflexivity|].
  cbn [flat_map]. rewrite length_app, IH. cbn [byteToHex length]. lia.
Qed.

Lemma flat_map_byteToHex_hex bs :
  Forall (fun c => is_hex_lower c = true /\ c <> code "-") (flat_map byteToHex bs).
Proof. apply Forall_flat_map. intros b. apply byteToHex_spec. Qed.

Lemma replaceAll_app p r s t :
  replaceAll p r (s ++ t) = replaceAll p r s ++ replaceAll p r t.
Proof. apply flat_map_app. Qed.

Lemma replaceAll_none p r s :
  Forall (fun c => p c = false) s -> replaceAll p r s = s.
Proof.
  unfold replaceAll. induction 1 as [|c s Hc _ IH]; [reflexivity|].
  cbn [flat_map]. now rewrite Hc, IH.
Qed.

(** Deleting what a class matches is keeping the rest. *)
Lemma replaceAll_delete p s :
  replaceAll p [] s = List.filter (fun c => negb (p c)) s.
Proof.
  unfold replaceAll. induction s as [|c s IH]; [reflexivity|].
  cbn [flat_map List.filter]. rewrite IH. now destruct (p c).
Qed.

Lemma hex_no_hyphen s :
  Forall (fun c => is_hex_lower c = true /\ c <> code "-") s ->
  Forall (fun c => is_char "-" c = false) s.
Proof.
  intros H. eapply Forall_impl; [exact H|]. intros c (_ & N).
  unfold is_char. now apply Z.eqb_neq.
Qed.

Lemma v7Bytes_length e : length (v7Bytes e) = 16%nat.
Proof. reflexivity. Qed.

Lemma take_drop_segments {A} (bs : list A) :
  length bs = 16%nat ->
  take 4 bs ++ take 2 (drop 4 bs) ++ take 2 (drop 6 bs) ++ take 2 (drop 8 bs)
  ++ take 6 (drop 10 bs) = bs.
Proof.
  intros H.
  do 16 (destruct bs as [|? bs]; [discriminate H|]).
  destruct bs; [reflexivity|discriminate H].
Qed.

(** Without its hyphens an identifier is its 32 hexadecimal digits. *)
Lemma uuidv7_without_hyphens e :
  replaceAll (is_char "-") [] (uuidv7 e) = uuid_hex e.
Proof.
  unfold uuidv7, stringify, uuid_hex.
  rewrite !replaceAll_app.
  rewrite !(replaceAll_none _ _ (flat_map byteToHex _))
    by apply hex_no_hyphen, flat_map_byteToHex_hex.
  change (replaceAll (is_char "-") [] (js "-")) with (@nil Z).
  cbn [app]. rewrite <- !flat_map_app.
  now rewrite take_drop_segments by apply v7Bytes_length.
Qed.

Lemma uuid_hex_length e : length (uuid_hex e) = 32%nat.
Proof. unfold uuid_hex. now rewrite length_flat_map_byteToHex, v7Bytes_length. Qed.

Lemma generateOrderId_spec fresh transactionId :
  generateOrderId fresh transactionId
  = take 40 (take 8 (List.filter is_alnum transactionId) ++ take 24 (uuid_hex fresh)).
Proof.
  unfold generateOrderId. rewrite uuidv7_without_hyphens, replaceAll_delete.
  do 3 f_equal. apply List.filter_ext. intros c. apply negb_involutive.
Qed.

Lemma is_hex_lower_alnum c : is_hex_lower c = true -> is_alnum c = true.
Proof.
  unfold is_hex_lower, is_alnum, is_alpha, is_digit, between. codes.
  rewrite !orb_true_iff, !andb_true_iff, !Z.leb_le. lia.
Qed.

Lemma Forall_take {A} (P : A -> Prop) n l : Forall P l -> Forall P (take n l).
Proof.
  intros H. revert n. induction H as [|x l Hx _ IH]; intros [|n]; cbn;
    constructor; auto.
Qed.

Lemma filter_alnum s : Forall (fun c => is_alnum c = true) (List.filter is_alnum s).
Proof.
  apply List.Forall_forall. intros c Hc. now apply filter_In in Hc.
Qed.

Lemma short_uuid_spec fresh :
  length (take 24 (uuid_hex fresh)) = 24%nat
  /\ Forall (fun c => is_hex_lower c = true) (take 24 (uuid_hex fresh)).
Proof.
  split.
  - rewrite length_take, uuid_hex_length. reflexivity.
  - apply Forall_take. unfold uuid_hex.
    eapply Forall_impl; [apply flat_map_byteToHex_hex|]. now intros c (H & _).
Qed.

Lemma order_id_untruncated fresh transactionId :
  take 40 (take 8 (List.filter is_alnum transactionId) ++ take 24 (uuid_hex fresh))
  = take 8 (List.filter is_alnum transactionId) ++ take 24 (uuid_hex fresh).
Proof.
  apply take_ge. rewrite length_app, !length_take, uuid_hex_length. lia.
Qed.

(** ** Strings of alphanumerics are their own percent-encoding *)

Lemma alnum_not_surrogate c :
  is_alnum c = true -> is_lead_surrogate c = false /\ is_surrogate c = false
                       /\ uriUnescaped c = true.
Proof.
  intros H. unfold uriUnescaped. rewrite H. cbn [orb].
  revert H. unfold is_alnum, is_alpha, is_digit, is_lead_surrogate, is_surrogate, between.
  codes. rewrite !orb_true_iff, !andb_true_iff, !andb_false_iff, !Z.leb_le, !Z.leb_gt.
  lia.
Qed.

Lemma code_points_alnum s :
  Forall (fun c => is_alnum c = true) s -> code_points s = s.
Proof.
  induction 1 as [|c s Hc _ IH]; [reflexivity|].
  cbn [code_points]. destruct s as [|d s]; [reflexivity|].
  destruct (alnum_not_surrogate c Hc) as (-> & _). cbn [andb]. now rewrite IH.
Qed.

Lemma encodeURIComponent_alnum s :
  Forall (fun c => is_alnum c = true) s -> encodeURIComponent s = Ok s.
Proof.
  intros H. rewrite encodeURIComponent_spec.
  unfold isWellFormed, percent_encode. rewrite code_points_alnum by assumption.
  replace (forallb _ s) with true.
  - f_equal. induction H as [|c s Hc _ IH]; [reflexivity|].
    cbn [flat_map]. destruct (alnum_not_surrogate c Hc) as (_ & _ & ->).
    cbn [app]. now rewrite IH.
  - symmetry. apply forallb_forall. intros c Hc.
    rewrite List.Forall_forall in H. destruct (alnum_not_surrogate c (H c Hc)) as (_ & -> & _).
    reflexivity.
Qed.

Example order_id_test_suite :
  let this := {| config := {| projectId := js "12345"; password := js "secret_password";
                              testMode := true |} |} in
  let fresh := {| unix_ts_ms := 0x0192f3a1b2c3; rand_a := 0xabc;
                  rand_b := 0x123456789abcdef0 |} in
  let options :=
    {| transactionId := js "TX-001"; amount := ten_and_a_half; currency := js "EUR";
       urls := {| acceptUrl := js "https://example.com/accept";
                  cancelUrl := js "https://example.com/cancel";
                  callbackUrl := js "https://example.com/callback" |};
       customerEmail := None; customerFirstName := None; customerLastName := None;
       paymentDescription := None; language := None |} in
  uuidv7 fresh = js "0192f3a1-b2c3-7abc-9234-56789abcdef0"
  /\ orderId <$> createPaymentRequest this fresh options
     = Ok (js "TX0010192f3a1b2c37abc92345678").
Proof. split; vm_compute; reflexivity. Qed.

(** C7: the order id returned by [createPaymentRequest] is the first up to
    8 alphanumeric characters of the transaction id (the other characters
    being removed first) followed by the first 24 of the 32 hexadecimal
    digits of the fresh identifier, cut to 40 characters, and so has at
    most 40 characters; the call returns it unless percent-encoding of the
    request fields throws. *)
Theorem C7_order_id (this : PayseraClient) (fresh : entropy)
  (options : CreatePaymentOptions) :
  let shortTxId := take 8 (List.filter is_alnum (transactionId options)) in
  let shortUuid := take 24 (uuid_hex fresh) in
  let oid := take 40 (shortTxId ++ shortUuid) in
  generateOrderId fresh (transactionId options) = oid
  /\ (length oid <= 40)%nat
  /\ (length shortTxId <= 8)%nat
  /\ length shortUuid = 24%nat
  /\ Forall (fun c => is_hex_lower c = true) shortUuid
  /\ List.filter (fun c => negb (is_char "-" c)) (uuidv7 fresh) = uuid_hex fresh
  /\ (createPaymentRequest this fresh options = Throw URIError
      \/ exists url, createPaymentRequest this fresh options
                     = Ok {| redirectUrl := url; orderId := oid |}).
Proof.
  cbv zeta. split; [apply generateOrderId_spec|].
  split; [rewrite length_take; lia|].
  split; [rewrite length_take; lia|].
  split; [apply short_uuid_spec|]. split; [apply short_uuid_spec|].
  split; [rewrite <- replaceAll_delete; apply uuidv7_without_hyphens|].
  unfold createPaymentRequest. rewrite generateOrderId_spec.
  pose proof (buildPaymentUrl_throws
    (requestParams this
       (take 40 (take 8 (List.filter is_alnum (transactionId options))
                 ++ take 24 (uuid_hex fresh))) options)
    (password (config this))) as H.
  destruct (buildPaymentUrl _ _) as [url|e].
  - right. exists url. reflexivity.
  - left. cbn in H. now rewrite H.
Qed.

(** C10: the order id consists of alphanumeric characters only, and has at
    most 8 + 24 = 32 of them, so cutting it to 40 characters removes
    nothing and percent-encoding leaves it as it is: the field on the wire
    is [orderid=] followed by the order id itself. *)
Theorem C10_order_id_is_plain (fresh : entropy) (transactionId : jsstring) :
  let oid := generateOrderId fresh transactionId in
  Forall (fun c => is_alnum c = true) oid
  /\ length oid = (Nat.min 8 (length (List.filter is_alnum transactionId)) + 24)%nat
  /\ (length oid <= 32)%nat
  /\ oid = take 8 (List.filter is_alnum transactionId) ++ take 24 (uuid_hex fresh)
  /\ encodeURIComponent oid = Ok oid
  /\ encodeEntry (js "orderid", VString oid) = Ok (js "orderid=" ++ oid).
Proof.
  cbv zeta. rewrite generateOrderId_spec, order_id_untruncated.
  assert (Ha : Forall (fun c => is_alnum c = true)
                 (take 8 (List.filter is_alnum transactionId)
                  ++ take 24 (uuid_hex fresh))).
  { apply Forall_app. split.
    - apply Forall_take, filter_alnum.
    - eapply Forall_impl; [apply short_uuid_spec|]. apply is_hex_lower_alnum. }
  assert (Hl : length (take 8 (List.filter is_alnum transactionId)
                       ++ take 24 (uuid_hex fresh))
               = (Nat.min 8 (length (List.filter is_alnum transactionId)) + 24)%nat).
  { rewrite length_app, !length_take, uuid_hex_length. lia. }
  split; [exact Ha|]. split; [exact Hl|]. split; [lia|]. split; [reflexivity|].
  split; [now apply encodeURIComponent_alnum|].
  unfold encodeEntry. cbn [fst snd String_].
  rewrite (encodeURIComponent_alnum _ Ha). reflexivity.
Qed.

(* ===================================================================== *)
(** * Properties: the amount *)
(* ===================================================================== *)

Lemma ascii_code_points s : Forall (fun c => 0 <= c < 128) s -> code_points s = s.
Proof.
  induction 1 as [|c s Hc _ IH]; [reflexivity|].
  cbn [code_points]. destruct s as [|d s]; [reflexivity|].
  replace (is_lead_surrogate c) with false
    by (symmetry; apply between_false; lia).
  cbn [andb]. now rewrite IH.
Qed.

Lemma ascii_well_formed s :
  Forall (fun c => 0 <= c < 128) s -> code_units s = true /\ isWellFormed s = true.
Proof.
  intros H. unfold isWellFormed. rewrite ascii_code_points by assumption.
  split; apply forallb_forall; intros c Hc;
    rewrite List.Forall_forall in H; specialize (H c Hc).
  - apply between_spec. lia.
  - apply negb_true_iff, between_false. lia.
Qed.

Lemma encoded_ascii fields :
  Forall (fun c => 0 <= c < 128) (join (js "&") (map entry_text fields)).
Proof.
  assert (He : forall kv, Forall (fun c => 0 <= c < 128) (entry_text kv)).
  { intros kv. unfold entry_text. rewrite !Forall_app. repeat split.
    - eapply Forall_impl; [apply percent_encode_plain|]. unfold plain. tauto.
    - constructor; [vm_compute; split; [discriminate|reflexivity]|constructor].
    - eapply Forall_impl; [apply percent_encode_plain|]. unfold plain. tauto. }
  destruct fields as [|kv fields]; [constructor|]. cbn [map join].
  apply Forall_app. split; [apply He|].
  induction fields as [|kv' fields IH]; cbn [map flat_map]; [constructor|].
  rewrite !Forall_app. repeat split; [|apply He|exact IH].
  constructor; [vm_compute; split; [discriminate|reflexivity]|constructor].
Qed.

Example ten_and_a_half_value :
  ten_and_a_half = Prim2SF 10.5%float
  /\ num_mul ten_and_a_half (Number_of_Z 2) = Number_of_Z 21.
Proof. split; vm_compute; reflexivity. Qed.

Example Math_round_examples :
  Math_round (Prim2SF 2.5) = Number_of_Z 3
  /\ Math_round (Prim2SF (-2.5)) = Number_of_Z (-2)
  /\ Math_round (Prim2SF (-0.5)) = neg_zero
  /\ Math_round (Prim2SF 0.25) = pos_zero
  /\ Math_round S754_nan = S754_nan
  /\ Math_round (S754_infinity false) = S754_infinity false.
Proof. repeat split; vm_compute; reflexivity. Qed.

Lemma createPaymentRequest_payload this fresh options r :
  createPaymentRequest this fresh options = Ok r ->
  exists out,
    encodeParams (requestParams this (generateOrderId fresh (transactionId options))
                    options) = Ok out
    /\ redirectUrl r
       = PAYSERA_PAYMENT_URL ++ js "?data=" ++ toUrlSafeBase64 out ++ js "&sign="
         ++ generateSignature (toUrlSafeBase64 out) (password (config this))
    /\ fromUrlSafeBase64 (toUrlSafeBase64 out) = out.
Proof.
  unfold createPaymentRequest, buildPaymentUrl, buildRequest, getPaymentUrl.
  pose proof (encodeParams_spec
    (requestParams this (generateOrderId fresh (transactionId options)) options)) as Hs.
  cbv zeta in Hs.
  destruct (encodeParams _) as [out|e]; [|discriminate].
  rewrite !bind_Ok. intros [= <-]. exists out. split; [reflexivity|].
  split; [reflexivity|].
  destruct (forallb _ _); [|discriminate]. injection Hs as ->.
  destruct (ascii_well_formed _ (encoded_ascii
    (List.filter (fun kv => present (snd kv))
       (requestParams this (generateOrderId fresh (transactionId options)) options))))
    as (Hu & Hw).
  now apply urlsafe_base64_roundtrip_wellformed.
Qed.

(** C8: for every amount, the payload built by [createPaymentRequest] has
    the field [amount=] followed by the text of [Math.round(amount * 100)],
    which for a finite product is the integer nearest to it, a tie going
    up; the amount 10.50 becomes 1050 and is sent as [amount=1050]. *)
Theorem C8_amount_in_minor_units :
  (forall amount, toMinorUnits amount = Math_round (num_mul amount (Number_of_Z 100)))
  /\ (forall (this : PayseraClient) fresh options out,
        encodeParams (requestParams this (generateOrderId fresh (transactionId options))
                        options) = Ok out ->
        In (js "amount="
            ++ percent_encode
                 (Number_toString
                    (Math_round (num_mul (amount options) (Number_of_Z 100)))))
           (split (code "&") out))
  /\ (forall (this : PayseraClient) fresh options r,
        createPaymentRequest this fresh options = Ok r ->
        exists out,
          encodeParams (requestParams this (generateOrderId fresh (transactionId options))
                          options) = Ok out
          /\ redirectUrl r
             = PAYSERA_PAYMENT_URL ++ js "?data=" ++ toUrlSafeBase64 out ++ js "&sign="
               ++ generateSignature (toUrlSafeBase64 out) (password (config this))
          /\ fromUrlSafeBase64 (toUrlSafeBase64 out) = out)
  /\ (forall s m e,
        Z.pos m < 2 ^ 53 ->
        integer_value (Math_round (S754_finite s m e)) = Some (round_half_up s m e))
  /\ toMinorUnits ten_and_a_half = Number_of_Z 1050
  /\ Number_toString (Number_of_Z 1050) = js "1050"
  /\ percent_encode (js "1050") = js "1050".
Proof.
  split; [reflexivity|]. split; [|split; [apply createPaymentRequest_payload|]].
  - intros this fresh options out Ho.
    set (params := requestParams this (generateOrderId fresh (transactionId options))
                     options) in *.
    rewrite encodeParams_spec in Ho. cbv zeta in Ho.
    destruct (forallb _ _); [|discriminate]. injection Ho as <-.
    pose proof (amount_in_requestParams this
                  (generateOrderId fresh (transactionId options)) options) as Ha.
    fold params in Ha.
    rewrite split_encoded by (intros E; rewrite E in Ha; destruct Ha).
    apply (in_map entry_text) in Ha. exact Ha.
  - split; [apply Math_round_finite|].
    repeat split; vm_compute; reflexivity.
Qed.

(** C8 at the request of the test suite: amount 10.50 in test mode. *)
Lemma C8_amount_in_minor_units_witness :
  let this := {| config := {| projectId := js "12345"; password := js "secret_password";
                              testMode := true |} |} in
  let fresh := {| unix_ts_ms := 0x0192f3a1b2c3; rand_a := 0xabc;
                  rand_b := 0x123456789abcdef0 |} in
  let options :=
    {| transactionId := js "TX-001"; amount := ten_and_a_half; currency := js "EUR";
       urls := {| acceptUrl := js "https://example.com/accept";
                  cancelUrl := js "https://example.com/cancel";
                  callbackUrl := js "https://example.com/callback" |};
       customerEmail := None; customerFirstName := None; customerLastName := None;
       paymentDescription := None; language := None |} in
  let out := js "projectid=12345&orderid=TX0010192f3a1b2c37abc92345678&accepturl=https%3A%2F%2Fexample.com%2Faccept&cancelurl=https%3A%2F%2Fexample.com%2Fcancel&callbackurl=https%3A%2F%2Fexample.com%2Fcallback&version=1.6&amount=1050&currency=EUR&test=1" in
  encodeParams (requestParams this (generateOrderId fresh (transactionId options)) options)
  = Ok out
  /\ In (js "amount=1050") (split (code "&") out).
Proof.
  intros this fresh options out.
  assert (Ho : encodeParams
                 (requestParams this (generateOrderId fresh (transactionId options))
                    options) = Ok out) by (vm_compute; reflexivity).
  split; [exact Ho|].
  destruct C8_amount_in_minor_units as (_ & H & _).
  exact (H this fresh options out Ho).
Defined.

(* ===================================================================== *)
(** * Properties: percent-decoding undoes percent-encoding *)
(* ===================================================================== *)

Import Wire.

Lemma hex_value_hex_upper n : 0 <= n < 16 -> hex_value (hex_upper n) = Some n.
Proof.
  intros H. unfold hex_value, hex_upper, is_digit, between. codes.
  destruct (Z.ltb_spec n 10).
  - replace ((48 <=? 48 + n) && (48 + n <=? 57)) with true by lia.
    f_equal. lia.
  - replace ((48 <=? 65 + (n - 10)) && (65 + (n - 10) <=? 57)) with false by lia.
    replace ((97 <=? 65 + (n - 10)) && (65 + (n - 10) <=? 102)) with false by lia.
    replace ((65 <=? 65 + (n - 10)) && (65 + (n - 10) <=? 70)) with true by lia.
    f_equal. lia.
Qed.

Lemma octet_of_nibbles b : 0 <= b < 256 -> 16 * ((b / 16) mod 16) + b mod 16 = b.
Proof. intros H. zdiv. Qed.

(** One escaped octet moves the decoder by one step. *)
Lemma decode_escape st b rest :
  0 <= b < 256 ->
  decode_loop st (pct_octet b ++ rest) =
  match st with
  | None =>
      match sequence_length b with
      | Some 1%nat => r ← decode_loop None rest; Ok (b :: r)
      | Some (S n) => decode_loop (Some ([b], n)) rest
      | _ => Throw URIError
      end
  | Some (octs, n) =>
      match n with
      | S (S n') => decode_loop (Some (octs ++ [b], S n')) rest
      | _ =>
          match utf8_code_point (octs ++ [b]) with
          | Some cp => r ← decode_loop None rest; Ok (utf16_encode_cp cp ++ r)
          | None => Throw URIError
          end
      end
  end.
Proof.
  intros H. unfold pct_octet. cbn [app decode_loop].
  rewrite Z.eqb_refl.
  rewrite !hex_value_hex_upper by zdiv.
  rewrite octet_of_nibbles by assumption. reflexivity.
Qed.

Lemma decode_literal c rest :
  c <> code "%" ->
  decode_loop None (c :: rest) = (r ← decode_loop None rest; Ok (c :: r)).
Proof.
  intros H. cbn [decode_loop].
  destruct (Z.eqb_spec c (code "%")); [contradiction|reflexivity].
Qed.

Lemma uriUnescaped_not_percent c : uriUnescaped c = true -> c <> code "%".
Proof. intros H ->. discriminate H. Qed.

Lemma utf8_code_point_encode cp :
  scalar cp -> utf8_code_point (utf8_encode_cp cp) = Some cp.
Proof.
  intros H. unfold utf8_code_point, utf8_decode.
  rewrite <- (app_nil_r (utf8_encode_cp cp)) at 1.
  rewrite utf8_decode_encode_cp by assumption. cbn [utf8_decode_loop].
  now rewrite bool_decide_true.
Qed.

(** The shape of an encoding: its first octet announces its length. *)
Lemma utf8_encode_cp_shape cp :
  scalar cp ->
  (cp < 0x80 /\ utf8_encode_cp cp = [cp])
  \/ (exists a b, utf8_encode_cp cp = [a; b]
                  /\ sequence_length a = Some 2%nat
                  /\ 0 <= a < 256 /\ 0 <= b < 256)
  \/ (exists a b c, utf8_encode_cp cp = [a; b; c]
                    /\ sequence_length a = Some 3%nat
                    /\ 0 <= a < 256 /\ 0 <= b < 256 /\ 0 <= c < 256)
  \/ (exists a b c d, utf8_encode_cp cp = [a; b; c; d]
                      /\ sequence_length a = Some 4%nat
                      /\ 0 <= a < 256 /\ 0 <= b < 256 /\ 0 <= c < 256
                      /\ 0 <= d < 256).
Proof.
  intros ((Hlo & Hhi) & _). unfold utf8_encode_cp.
  replace (cp / 0x1000) with (cp / 0x40 / 0x40) by (rewrite Z.div_div by lia; reflexivity).
  replace (cp / 0x40000) with (cp / 0x40 / 0x40 / 0x40) by (rewrite !Z.div_div by lia; reflexivity).
  destruct (split64 cp) as (q1 & r1 & E1 & B1 & <- & <-).
  destruct (split64 q1) as (q2 & r2 & E2 & B2 & <- & <-).
  destruct (split64 q2) as (q3 & r3 & E3 & B3 & <- & <-).
  destruct (Z.ltb_spec cp 0x80); [|destruct (Z.ltb_spec cp 0x800);
    [|destruct (Z.ltb_spec cp 0x10000)]].
  - left. split; [assumption|reflexivity].
  - right; left. eexists _, _. split; [reflexivity|].
    split; [|lia]. unfold sequence_length.
    destruct (Z.ltb_spec (0xC0 + q1) 0x80); [lia|].
    destruct (Z.ltb_spec (0xC0 + q1) 0xC0); [lia|].
    destruct (Z.ltb_spec (0xC0 + q1) 0xE0); [reflexivity|lia].
  - right; right; left. eexists _, _, _. split; [reflexivity|].
    split; [|lia]. unfold sequence_length.
    destruct (Z.ltb_spec (0xE0 + q2) 0x80); [lia|].
    destruct (Z.ltb_spec (0xE0 + q2) 0xC0); [lia|].
    destruct (Z.ltb_spec (0xE0 + q2) 0xE0); [lia|].
    destruct (Z.ltb_spec (0xE0 + q2) 0xF0); [reflexivity|lia].
  - right; right; right. eexists _, _, _, _. split; [reflexivity|].
    split; [|lia]. unfold sequence_length.
    destruct (Z.ltb_spec (0xF0 + q3) 0x80); [lia|].
    destruct (Z.ltb_spec (0xF0 + q3) 0xC0); [lia|].
    destruct (Z.ltb_spec (0xF0 + q3) 0xE0); [lia|].
    destruct (Z.ltb_spec (0xF0 + q3) 0xF0); [lia|].
    destruct (Z.ltb_spec (0xF0 + q3) 0xF8); [reflexivity|lia].
Qed.

(** The text of one code point, encoded, is decoded to that code point. *)
Lemma decode_encoded_code_point cp rest :
  scalar cp ->
  decode_loop None
    ((if uriUnescaped cp then [cp] else flat_map pct_octet (utf8_encode_cp cp)) ++ rest)
  = (r ← decode_loop None rest; Ok (utf16_encode_cp cp ++ r)).
Proof.
  intros Hcp. destruct (uriUnescaped cp) eqn:U.
  - pose proof (uriUnescaped_plain _ U) as ((? & ?) & _).
    cbn [app]. rewrite decode_literal by now apply uriUnescaped_not_percent.
    unfold utf16_encode_cp. destruct (Z.ltb_spec cp 0x10000); [reflexivity|lia].
  - pose proof (utf8_code_point_encode cp Hcp) as D.
    destruct (utf8_encode_cp_shape cp Hcp)
      as [(Hlt & E) | [(a & b & E & L & ? & ?) | [(a & b & c & E & L & ? & ? & ?)
         | (a & b & c & d & E & L & ? & ? & ? & ?)]]];
      rewrite E in *; cbn [flat_map]; rewrite ?app_nil_r, <- ?app_assoc.
    + destruct Hcp as ((? & ?) & _).
      rewrite decode_escape by lia. unfold sequence_length.
      destruct (Z.ltb_spec cp 0x80); [|lia].
      unfold utf16_encode_cp. destruct (Z.ltb_spec cp 0x10000); [reflexivity|lia].
    + rewrite decode_escape, L by assumption.
      rewrite decode_escape by assumption. cbn [app]. now rewrite D.
    + rewrite decode_escape, L by assumption.
      rewrite !decode_escape by assumption. cbn [app]. now rewrite D.
    + rewrite decode_escape, L by assumption.
      rewrite !decode_escape by assumption. cbn [app]. now rewrite D.
Qed.

Lemma decode_encoded_code_points cps :
  Forall scalar cps ->
  decode_loop None
    (flat_map (fun cp => if uriUnescaped cp then [cp]
                         else flat_map pct_octet (utf8_encode_cp cp)) cps)
  = Ok (flat_map utf16_encode_cp cps).
Proof.
  induction 1 as [|cp cps Hcp _ IH]; [reflexivity|].
  cbn [flat_map]. rewrite decode_encoded_code_point by assumption.
  now rewrite IH.
Qed.

Lemma decodeURIComponent_percent_encode s :
  text s -> decodeURIComponent (percent_encode s) = Ok s.
Proof.
  intros (Hu & Hw). unfold decodeURIComponent, percent_encode.
  rewrite decode_encoded_code_points by now apply code_points_scalar.
  now rewrite utf16_code_points.
Qed.

Lemma code_points_nil s : code_points s = [] -> s = [].
Proof.
  destruct s as [|c [|d s]]; [reflexivity|discriminate|].
  cbn [code_points]. destruct (_ && _); discriminate.
Qed.

Lemma utf8_encode_cp_nonempty cp : utf8_encode_cp cp <> [].
Proof. unfold utf8_encode_cp. repeat destruct (_ <? _); discriminate. Qed.

Lemma percent_encode_nil s : percent_encode s = [] -> s = [].
Proof.
  unfold percent_encode. intros H. apply code_points_nil.
  destruct (code_points s) as [|cp cps]; [reflexivity|exfalso].
  cbn [flat_map] in H. apply app_eq_nil in H as (H & _).
  destruct (uriUnescaped cp); [discriminate|].
  pose proof (utf8_encode_cp_nonempty cp) as N.
  destruct (utf8_encode_cp cp); [contradiction|discriminate].
Qed.

(* ===================================================================== *)
(** * Properties: the text of a number is Basic Latin *)
(* ===================================================================== *)

Ltac literal := apply (bool_decide_unpack _); vm_compute; exact I.

Lemma uint_digits_range u : Forall (fun d => 0 <= d <= 9) (uint_digits u).
Proof. induction u; cbn [uint_digits]; constructor; (lia || assumption). Qed.

Lemma decimal_digits_range n : Forall (fun d => 0 <= d <= 9) (decimal_digits n).
Proof.
  destruct n; cbn [decimal_digits]; try apply uint_digits_range;
    (constructor; [lia|constructor]).
Qed.

Lemma digit_chars_ascii ds :
  Forall (fun d => 0 <= d <= 9) ds -> Forall (fun c => 0 <= c < 128) (digit_chars ds).
Proof.
  unfold digit_chars. induction 1 as [|d ds Hd _ IH]; cbn [map]; constructor.
  - codes. lia.
  - assumption.
Qed.

Lemma zeros_ascii n : Forall (fun c => 0 <= c < 128) (zeros n).
Proof.
  unfold zeros. apply List.Forall_forall. intros c Hc.
  apply repeat_spec in Hc as ->. codes. lia.
Qed.

Lemma format_decimal_ascii ds n :
  Forall (fun d => 0 <= d <= 9) ds ->
  Forall (fun c => 0 <= c < 128) (format_decimal ds n).
Proof.
  intros H. apply digit_chars_ascii in H. unfold format_decimal.
  assert (forall e, Forall (fun c => 0 <= c < 128)
                      (digit_chars (decimal_digits e))) as He
    by (intros e; apply digit_chars_ascii, decimal_digits_range).
  assert (forall ex, Forall (fun c => 0 <= c < 128)
                       (if ex <? 0 then js "-" else js "+")) as Hs
    by (intros ex; destruct (ex <? 0); literal).
  repeat match goal with |- context [if ?b then _ else _] => destruct b end;
    repeat first
      [ apply Forall_app; split
      | apply zeros_ascii | apply Forall_take | apply Forall_drop
      | assumption | apply He | apply Hs | literal ].
  all: destruct (digit_chars ds) as [|d [|d' rest]]; [constructor| |].
  all: inversion H as [|? ? Hd Hr]; subst.
  all: repeat first
      [ apply Forall_app; split | apply Forall_cons; split
      | assumption | apply He | apply Hs | literal ].
  all: inversion Hr; assumption.
Qed.

Lemma Number_toString_ascii x : Forall (fun c => 0 <= c < 128) (Number_toString x).
Proof.
  destruct x as [s|s| |s m e]; cbn [Number_toString].
  - literal.
  - destruct s; literal.
  - literal.
  - unfold shortest.
    destruct (shortest_search _ _ _ _ _ _ _) as [d n].
    apply Forall_app. split.
    + destruct s; [literal|constructor].
    + apply format_decimal_ascii, decimal_digits_range.
Qed.

Lemma String_text v :
  match v with VString s => text s | _ => True end -> text (String_ v).
Proof.
  destruct v as [| |s|x]; cbn [String_]; intros H.
  - split; reflexivity.
  - split; reflexivity.
  - assumption.
  - apply ascii_well_formed, Number_toString_ascii.
Qed.

(* ===================================================================== *)
(** * Properties: the callback parser reads back what the builder writes *)
(* ===================================================================== *)

Lemma parsePair_entry m kv :
  field_text kv -> parsePair m (entry_text kv) = Ok (stored m kv).
Proof.
  intros (Hk & Hv). apply String_text in Hv.
  unfold entry_text, stored.
  pose proof (plain_no_eq _ (percent_encode_plain (fst kv))) as Pk.
  pose proof (plain_no_eq _ (percent_encode_plain (String_ (snd kv)))) as Pv.
  destruct (fst kv) as [|c k] eqn:K.
  - reflexivity.
  - rewrite <- K in *.
    assert (percent_encode (fst kv) <> []) as N
      by (intros E; apply percent_encode_nil in E; congruence).
    rewrite parsePair_key_value by assumption.
    rewrite (decodeURIComponent_percent_encode (fst kv)) by assumption.
    rewrite bind_Ok.
    rewrite K; cbn [truthy]; rewrite <- K.
    destruct (percent_encode (String_ (snd kv))) as [|d v] eqn:V.
    + apply percent_encode_nil in V. rewrite V. reflexivity.
    + cbn [truthy]. rewrite <- V.
      rewrite decodeURIComponent_percent_encode by assumption. reflexivity.
Qed.

Lemma forEach_pairs_entries fields :
  Forall field_text fields ->
  forall m, forEach_pairs m (map entry_text fields) = Ok (fold_left stored fields m).
Proof.
  induction 1 as [|kv fields H _ IH]; intros m; [reflexivity|].
  cbn [map forEach_pairs fold_left].
  rewrite parsePair_entry by assumption. rewrite bind_Ok. apply IH.
Qed.

Lemma parseQueryString_entries fields :
  Forall field_text fields ->
  parseQueryString (join (js "&") (map entry_text fields))
  = Ok (fold_left stored fields ∅).
Proof.
  intros H. unfold parseQueryString.
  destruct fields as [|kv fields]; [reflexivity|].
  rewrite split_encoded by discriminate.
  now apply forEach_pairs_entries.
Qed.

Lemma field_text_well_formed kv : field_text kv -> well_formed_field kv = true.
Proof.
  intros (Hk & Hv). apply String_text in Hv.
  unfold well_formed_field. destruct Hk as (_ & ->), Hv as (_ & ->). reflexivity.
Qed.

Lemma encodeParams_text params :
  Forall field_text (List.filter (fun kv => present (snd kv)) params) ->
  encodeParams params
  = Ok (join (js "&")
          (map entry_text (List.filter (fun kv => present (snd kv)) params))).
Proof.
  intros H. rewrite encodeParams_spec. cbv zeta.
  replace (forallb well_formed_field
             (List.filter (fun kv => present (snd kv)) params)) with true;
    [reflexivity|].
  symmetry. apply forallb_forall. intros kv Hkv.
  apply field_text_well_formed. eapply List.Forall_forall; eassumption.
Qed.

Lemma stored_lookup_ne m kv k : fst kv <> k -> stored m kv !! k = m !! k.
Proof.
  intros H. unfold stored, set_property.
  destruct (truthy (fst kv)); [|reflexivity].
  destruct (bool_decide _); [reflexivity|].
  now apply lookup_insert_ne.
Qed.

Lemma fold_stored_lookup_absent fields k :
  ~ In k (map fst fields) ->
  forall m, fold_left stored fields m !! k = m !! k.
Proof.
  induction fields as [|kv fields IH]; intros N m; [reflexivity|].
  cbn [fold_left]. rewrite IH by (intros I; apply N; now right).
  apply stored_lookup_ne. intros E. apply N. now left.
Qed.

Lemma fold_stored_lookup_last before k v after m :
  k <> [] -> k <> js "__proto__" -> ~ In k (map fst after) ->
  fold_left stored (before ++ (k, v) :: after) m !! k = Some (String_ v).
Proof.
  intros Hk Hp N. rewrite fold_left_app. cbn [fold_left].
  rewrite fold_stored_lookup_absent by assumption.
  unfold stored, set_property. cbn [fst snd].
  apply truthy_true in Hk. rewrite Hk.
  rewrite bool_decide_false by assumption.
  apply lookup_insert_eq.
Qed.

(** X1: [parseQueryString] reads back what [encodeParams] writes.  For
    every parameter object whose present keys and string values are strings
    proper, parsing the encoded text gives the mapping of the present
    fields: each key (not empty, not [__proto__]) maps to the text of its
    last value, and no other key is in the mapping. *)
Theorem encodeParams_then_parseQueryString (params : PayseraRequestParams) :
  Forall field_text (List.filter (fun kv => present (snd kv)) params) ->
  (encodeParams params ≫= parseQueryString) = Ok (fields_map params)
  /\ (forall before k v after,
        List.filter (fun kv => present (snd kv)) params = before ++ (k, v) :: after ->
        k <> [] -> k <> js "__proto__" -> ~ In k (map fst after) ->
        fields_map params !! k = Some (String_ v))
  /\ (forall k,
        ~ In k (map fst (List.filter (fun kv => present (snd kv)) params)) ->
        fields_map params !! k = None).
Proof.
  intros H. split; [|split].
  - rewrite encodeParams_text by assumption. rewrite bind_Ok.
    now apply parseQueryString_entries.
  - intros before k v after E Hk Hp N. unfold fields_map. rewrite E.
    now apply fold_stored_lookup_last.
  - intros k N. unfold fields_map.
    now rewrite fold_stored_lookup_absent.
Qed.

Lemma encodeParams_then_parseQueryString_witness :
  let params := [(js "orderid", VString (js "order&special=test"));
                 (js "p_email", VString []);
                 (js "paytext", VString (js "a=b " ++ [0x20AC; 0xD83D; 0xDE00]));
                 (js "amount", VNumber (Number_of_Z 1050))] in
  (encodeParams params ≫= parseQueryString) = Ok (fields_map params)
  /\ fields_map params !! js "orderid" = Some (js "order&special=test")
  /\ fields_map params !! js "paytext" = Some (js "a=b " ++ [0x20AC; 0xD83D; 0xDE00])
  /\ fields_map params !! js "amount" = Some (js "1050")
  /\ fields_map params !! js "p_email" = None.
Proof.
  intros params. split.
  - apply (encodeParams_then_parseQueryString params).
    repeat (constructor; [vm_compute; repeat split; reflexivity|]). constructor.
  - vm_compute. repeat split; reflexivity.
Defined.

(* ===================================================================== *)
(** * Properties: a request built here passes the callback side *)
(* ===================================================================== *)

Lemma le_bytes_length n x : length (le_bytes n x) = n.
Proof. unfold le_bytes. now rewrite length_map, length_seq. Qed.

Lemma md5_length msg : length (md5 msg) = 16%nat.
Proof.
  unfold md5. destruct (fold_left md5_block _ _) as [[[A B] C] D].
  rewrite !length_app, !le_bytes_length. reflexivity.
Qed.

Lemma generateSignature_length data password :
  length (generateSignature data password) = 32%nat.
Proof.
  unfold generateSignature, md5_hex.
  rewrite length_flat_map_byteToHex, md5_length. reflexivity.
Qed.

Lemma generateSignature_hex data password :
  Forall (fun c => is_hex_lower c = true) (generateSignature data password).
Proof.
  unfold generateSignature, md5_hex.
  eapply Forall_impl; [apply flat_map_byteToHex_hex|].
  now intros c (H & _).
Qed.

Lemma Buffer_toString_base64_nil bs : Buffer_toString_base64 bs = [] -> bs = [].
Proof. destruct bs as [|a [|b [|c bs]]]; [reflexivity|discriminate..]. Qed.

Lemma Buffer_from_utf8_nil s : Buffer_from_utf8 s = [] -> s = [].
Proof.
  unfold Buffer_from_utf8. intros H. apply code_points_nil.
  destruct (code_points s) as [|cp cps]; [reflexivity|exfalso].
  cbn [flat_map] in H. apply app_eq_nil in H as (H & _).
  now apply utf8_encode_cp_nonempty in H.
Qed.

Lemma toUrlSafeBase64_nil s : toUrlSafeBase64 s = [] -> s = [].
Proof.
  unfold toUrlSafeBase64. change (js "-") with [code "-"].
  change (js "_") with [code "_"]. rewrite !replaceAll_one.
  intros H. apply map_eq_nil, map_eq_nil in H.
  now apply Buffer_from_utf8_nil, Buffer_toString_base64_nil.
Qed.

Lemma encoded_fields_nonempty kv fields :
  join (js "&") (map entry_text (kv :: fields)) <> [].
Proof.
  cbn [map join]. unfold entry_text.
  destruct (percent_encode (fst kv)); discriminate.
Qed.

Lemma decodeCallbackData_encoded fields :
  Forall field_text fields ->
  decodeCallbackData (toUrlSafeBase64 (join (js "&") (map entry_text fields)))
  = Ok (fold_left stored fields ∅).
Proof.
  intros H. unfold decodeCallbackData.
  destruct (ascii_well_formed _ (encoded_ascii fields)) as (Hu & Hw).
  rewrite urlsafe_base64_roundtrip_wellformed by assumption.
  now apply parseQueryString_entries.
Qed.

(** X2: what [buildRequest] returns passes the callback side.  For every
    parameter object whose present keys and string values are strings
    proper and every password, [buildRequest] returns a payload and a
    signature such that [verifySignature] accepts the pair under that
    password, [decodeCallbackData] recovers from the payload the mapping of
    the present fields, and the signature is 32 lowercase hexadecimal
    digits. *)
Theorem buildRequest_verifies_and_decodes
  (toLowerCase : jsstring -> jsstring) (params : PayseraRequestParams)
  (password : jsstring) :
  Forall field_text (List.filter (fun kv => present (snd kv)) params) ->
  exists data sign,
    buildRequest params password = Ok (data, sign)
    /\ verifySignature toLowerCase data sign password = true
    /\ decodeCallbackData data = Ok (fields_map params)
    /\ length sign = 32%nat
    /\ Forall (fun c => is_hex_lower c = true) sign.
Proof.
  intros H. unfold buildRequest.
  rewrite encodeParams_text by assumption. rewrite bind_Ok. cbv zeta.
  eexists _, _. split; [reflexivity|].
  split; [|split; [|split]].
  - unfold verifySignature, str_eqb. now apply bool_decide_eq_true.
  - now apply decodeCallbackData_encoded.
  - apply generateSignature_length.
  - apply generateSignature_hex.
Qed.

Lemma buildRequest_verifies_and_decodes_witness :
  let params := [(js "projectid", VString (js "12345"));
                 (js "p_email", VUndefined);
                 (js "paytext", VString (js "50% off & more"))] in
  exists data sign,
    buildRequest params (js "secret") = Ok (data, sign)
    /\ verifySignature toLowerCase_latin data sign (js "secret") = true
    /\ decodeCallbackData data = Ok (fields_map params)
    /\ length sign = 32%nat
    /\ Forall (fun c => is_hex_lower c = true) sign.
Proof.
  intros params.
  apply (buildRequest_verifies_and_decodes toLowerCase_latin params (js "secret")).
  repeat (constructor; [vm_compute; repeat split; reflexivity|]). constructor.
Defined.

(** X3: a callback that carries a payload built and signed by the request
    builder is processed to the fields that were encoded.  If no field is
    present the payload is empty and the callback is refused as having no
    data, although its signature is right; otherwise [processCallback]
    returns what [parseCallbackData] makes of the mapping of the fields. *)
Theorem signed_callback_is_processed
  (toLowerCase : jsstring -> jsstring) (this : PayseraClient)
  (params : PayseraRequestParams) (o : option jsstring) :
  Forall field_text (List.filter (fun kv => present (snd kv)) params) ->
  exists d sg,
    buildRequest params (password (config this)) = Ok (d, sg)
    /\ processCallback toLowerCase this {| data := d; ss1 := sg; ss2 := o |}
       = match List.filter (fun kv => present (snd kv)) params with
         | [] => Throw (PayseraCallbackDataError
                          (js "Missing data or signature in callback"))
         | _ => parseCallbackData (fields_map params)
         end.
Proof.
  intros H. unfold buildRequest.
  rewrite encodeParams_text by assumption. rewrite bind_Ok. cbv zeta.
  eexists _, _. split; [reflexivity|].
  unfold processCallback, verifyAndDecodeCallback. cbn [data ss1].
  unfold fields_map.
  destruct (List.filter (fun kv => present (snd kv)) params) as [|kv fields] eqn:F.
  - reflexivity.
  - assert (truthy (toUrlSafeBase64 (join (js "&") (map entry_text (kv :: fields))))
            = true) as T1.
    { apply truthy_true. intros E. apply toUrlSafeBase64_nil in E.
      now apply encoded_fields_nonempty in E. }
    rewrite T1.
    assert (forall d, truthy (generateSignature d (password (config this))) = true)
      as T2.
    { intros d. apply truthy_true. intros E.
      pose proof (generateSignature_length d (password (config this))) as L.
      rewrite E in L. discriminate L. }
    rewrite T2. cbn [negb orb].
    replace (verifySignature _ _ _ _) with true
      by (symmetry; unfold verifySignature, str_eqb; now apply bool_decide_eq_true).
    cbn [negb]. rewrite decodeCallbackData_encoded by assumption.
    now rewrite bind_Ok.
Qed.

Lemma signed_callback_is_processed_witness :
  let this := {| config := {| projectId := js "12345"; password := js "secret";
                              testMode := true |} |} in
  let params := [(js "projectid", VString (js "12345"));
                 (js "orderid", VString (js "ORDER-001"));
                 (js "amount", VNumber (Number_of_Z 1000));
                 (js "currency", VString (js "EUR"));
                 (js "status", VNumber (Number_of_Z 1));
                 (js "requestid", VString (js "req123"));
                 (js "lang", VNull)] in
  exists d sg,
    buildRequest params (js "secret") = Ok (d, sg)
    /\ processCallback toLowerCase_latin this {| data := d; ss1 := sg; ss2 := None |}
       = Ok {| projectid := js "12345"; orderid := js "ORDER-001";
               Types.amount := Number_of_Z 1000; Types.currency := js "EUR";
               status := Number_of_Z 1; requestid := js "req123";
               paytext := None; name := None; surename := None; payment := None;
               country := None; test := None |}.
Proof.
  intros this params.
  destruct (signed_callback_is_processed toLowerCase_latin this params None)
    as (d & sg & E & P).
  - repeat (constructor; [vm_compute; repeat split; reflexivity|]). constructor.
  - exists d, sg. split; [exact E|]. rewrite P. vm_compute. reflexivity.
Defined.

(* ===================================================================== *)
(** * Properties: the alphabet and the length of a payload *)
(* ===================================================================== *)

Lemma toUrlSafeBase64_map str :
  toUrlSafeBase64 str
  = map (fun c => if is_char "+" c then code "-" else c)
      (map (fun c => if is_char "/" c then code "_" else c)
         (Buffer_toString_base64 (Buffer_from_utf8 str))).
Proof.
  unfold toUrlSafeBase64. change (js "-") with [code "-"].
  change (js "_") with [code "_"]. now rewrite !replaceAll_one.
Qed.

Lemma b64char_urlsafe n :
  0 <= n < 64 ->
  is_base64url
    ((fun c => if is_char "+" c then code "-" else c)
       ((fun c => if is_char "/" c then code "_" else c) (b64char n))) = true.
Proof.
  intros H. cbv beta. unfold b64char, is_char, is_base64url, is_alnum, is_alpha,
    is_digit, between. codes.
  zcases; zfinish.
Qed.

Lemma padding_step n : padding (3 + n) = padding n.
Proof.
  unfold padding. replace (3 + n)%nat with (n + 1 * 3)%nat by lia.
  now rewrite Nat.Div0.mod_add.
Qed.

Lemma groups_step n : ((3 + n + 2) / 3 = 1 + (n + 2) / 3)%nat.
Proof.
  replace (3 + n + 2)%nat with ((n + 2) + 1 * 3)%nat by lia.
  rewrite Nat.div_add by lia. lia.
Qed.

Lemma base64_shape bs :
  octets bs = true ->
  exists body,
    map (fun c => if is_char "+" c then code "-" else c)
      (map (fun c => if is_char "/" c then code "_" else c)
         (Buffer_toString_base64 bs))
    = body ++ padding (length bs)
    /\ Forall (fun c => is_base64url c = true) body
    /\ length (Buffer_toString_base64 bs) = (4 * ((length bs + 2) / 3))%nat.
Proof.
  induction bs as [|a|a b|a b c bs IH] using list_ind3; intros H.
  - exists []. repeat split. constructor.
  - apply octets_cons in H as (Ha & _).
    eexists [_; _]. cbn [Buffer_toString_base64 map]. split; [reflexivity|].
    split; [|reflexivity].
    repeat (constructor; [apply b64char_urlsafe; zdiv|]). constructor.
  - apply octets_cons in H as (Ha & H). apply octets_cons in H as (Hb & _).
    eexists [_; _; _]. cbn [Buffer_toString_base64 map]. split; [reflexivity|].
    split; [|reflexivity].
    repeat (constructor; [apply b64char_urlsafe; zdiv|]). constructor.
  - apply octets_cons in H as (Ha & H). apply octets_cons in H as (Hb & H).
    apply octets_cons in H as (Hc & H).
    destruct (IH H) as (body & E & F & L).
    eexists (_ :: _ :: _ :: _ :: body). cbn [Buffer_toString_base64 map].
    change (length (a :: b :: c :: bs)) with (3 + length bs)%nat.
    rewrite padding_step, groups_step, E. split; [reflexivity|].
    split.
    + repeat (constructor; [apply b64char_urlsafe; zdiv|]). assumption.
    + cbn [length]. rewrite L. lia.
Qed.

(** X4: the payload alphabet.  For every string of 16-bit code units, the
    result of [toUrlSafeBase64] consists of characters of [A-Za-z0-9_-]
    followed by the padding (none, [=] or [==], by the number of octets of
    the UTF-8 encoding modulo 3), and has four characters for every three
    octets, rounded up. *)
Theorem toUrlSafeBase64_shape (str : jsstring) :
  code_units str = true ->
  let n := length (Buffer_from_utf8 str) in
  exists body,
    toUrlSafeBase64 str = body ++ padding n
    /\ Forall (fun c => is_base64url c = true) body
    /\ length (toUrlSafeBase64 str) = (4 * ((n + 2) / 3))%nat.
Proof.
  intros H n. rewrite toUrlSafeBase64_map.
  destruct (base64_shape (Buffer_from_utf8 str)) as (body & E & F & L).
  - now apply Buffer_from_utf8_octets.
  - exists body. rewrite !length_map. auto.
Qed.

Lemma toUrlSafeBase64_shape_witness :
  exists body,
    toUrlSafeBase64 (js "test>>>test???" ++ [0xD800]) = body ++ js "="
    /\ Forall (fun c => is_base64url c = true) body
    /\ length (toUrlSafeBase64 (js "test>>>test???" ++ [0xD800])) = 24%nat.
Proof.
  apply (toUrlSafeBase64_shape (js "test>>>test???" ++ [0xD800])). reflexivity.
Defined.

(* ===================================================================== *)
(** * Properties: when two order ids coincide *)
(* ===================================================================== *)

Lemma take_flat_map_byteToHex n bs :
  take (2 * n) (flat_map byteToHex bs) = flat_map byteToHex (take n bs).
Proof.
  revert bs. induction n as [|n IH]; intros bs; [reflexivity|].
  destruct bs as [|b bs]; [reflexivity|].
  replace (2 * S n)%nat with (S (S (2 * n))) by lia.
  cbn [flat_map take byteToHex app]. now rewrite IH.
Qed.

Lemma hex_lower_inj x y :
  0 <= x < 16 -> 0 <= y < 16 -> hex_lower x = hex_lower y -> x = y.
Proof. unfold hex_lower. codes. intros Hx Hy. zcases; lia. Qed.

Lemma byteToHex_inj a b :
  0 <= a < 256 -> 0 <= b < 256 -> byteToHex a = byteToHex b -> a = b.
Proof.
  intros Ha Hb E. unfold byteToHex in E. injection E as E1 E2.
  apply hex_lower_inj in E1; [|zdiv..]. apply hex_lower_inj in E2; [|zdiv..].
  rewrite <- (octet_of_nibbles a), <- (octet_of_nibbles b) by assumption.
  now rewrite E1, E2.
Qed.

Lemma flat_map_byteToHex_inj as_ bs :
  Forall (fun b => 0 <= b < 256) as_ -> Forall (fun b => 0 <= b < 256) bs ->
  flat_map byteToHex as_ = flat_map byteToHex bs -> as_ = bs.
Proof.
  intros Ha. revert bs. induction Ha as [|a as_ Ha _ IH]; intros bs Hb E.
  - destruct bs; [reflexivity|discriminate].
  - destruct Hb as [|b bs Hb Hbs]; [discriminate|].
    cbn [flat_map] in E. unfold byteToHex at 1 3 in E. cbn [app] in E.
    injection E as E1 E2 E.
    f_equal; [|now apply IH].
    apply byteToHex_inj; [assumption..|]. unfold byteToHex. now rewrite E1, E2.
Qed.

Lemma v7Bytes_octets e : Forall (fun b => 0 <= b < 256) (v7Bytes e).
Proof.
  unfold v7Bytes. repeat (apply Forall_app; split).
  - apply List.Forall_forall. intros b Hb. apply in_map_iff in Hb as (i & <- & _).
    apply Z.mod_pos_bound. lia.
  - repeat (constructor; [zdiv|]). constructor.
  - apply List.Forall_forall. intros b Hb. apply in_map_iff in Hb as (i & <- & _).
    apply Z.mod_pos_bound. lia.
Qed.

Lemma short_uuid_octets e :
  take 24 (uuid_hex e) = flat_map byteToHex (take 12 (v7Bytes e)).
Proof. unfold uuid_hex. apply (take_flat_map_byteToHex 12). Qed.

(** The first twelve octets use the clock, [rand_a] and the bits of
    [rand_b] from bit 32 upwards. *)
Lemma v7Bytes_prefix e :
  take 12 (v7Bytes e)
  = map (fun i => (unix_ts_ms e / 2 ^ (8 * (5 - Z.of_nat i))) mod 256) (seq 0 6)
    ++ [0x70 + (rand_a e / 256) mod 16; rand_a e mod 256;
        0x80 + (rand_b e / 2 ^ 32 / 2 ^ 24) mod 64;
        (rand_b e / 2 ^ 32 / 2 ^ 16) mod 256;
        (rand_b e / 2 ^ 32 / 2 ^ 8) mod 256;
        (rand_b e / 2 ^ 32) mod 256].
Proof.
  unfold v7Bytes. cbn [seq map app take Z.of_nat].
  rewrite !Z.div_div by lia. reflexivity.
Qed.

(** X5: when two order ids coincide.  The order id of a transaction is
    determined by the first eight alphanumeric characters of the
    transaction id and the first twelve octets of the identifier, and by
    nothing else: two calls give the same order id exactly when these
    agree.  The first twelve octets hold the clock, [rand_a] and [rand_b]
    from bit 32 upwards, so the low 32 bits of [rand_b] never reach the
    order id. *)
Theorem generateOrderId_coincides (e1 e2 : entropy) (t1 t2 : jsstring) :
  (generateOrderId e1 t1 = generateOrderId e2 t2
   <-> take 8 (List.filter is_alnum t1) = take 8 (List.filter is_alnum t2)
       /\ take 12 (v7Bytes e1) = take 12 (v7Bytes e2))
  /\ (unix_ts_ms e1 = unix_ts_ms e2 -> rand_a e1 = rand_a e2 ->
      rand_b e1 / 2 ^ 32 = rand_b e2 / 2 ^ 32 ->
      generateOrderId e1 t1 = generateOrderId e2 t1).
Proof.
  assert (forall e t, generateOrderId e t
                      = take 8 (List.filter is_alnum t)
                        ++ flat_map byteToHex (take 12 (v7Bytes e))) as G.
  { intros e t. rewrite generateOrderId_spec, order_id_untruncated.
    now rewrite short_uuid_octets. }
  split.
  - rewrite !G. split.
    + intros E. apply app_inj_2 in E as (E1 & E2).
      * split; [assumption|].
        apply flat_map_byteToHex_inj in E2; [assumption|apply Forall_take..];
          apply v7Bytes_octets.
      * rewrite !length_flat_map_byteToHex, !length_take, !v7Bytes_length.
        reflexivity.
    + now intros (-> & ->).
  - intros E1 E2 E3. rewrite !G, !v7Bytes_prefix. now rewrite E1, E2, E3.
Qed.

(* ===================================================================== *)
(** * Properties: the fields of a payment request on the wire *)
(* ===================================================================== *)

Lemma add_optional_keys key o params :
  map fst (add_optional key o params)
  = map fst params ++ match o ≫= nonempty with Some _ => [key] | None => [] end.
Proof.
  destruct o as [[|c s]|]; cbn; rewrite ?app_nil_r, ?map_app; reflexivity.
Qed.

Lemma requestParams_keys this oid options :
  NoDup (map fst (requestParams this oid options)).
Proof.
  unfold requestParams. rewrite !add_optional_keys. cbn [map fst].
  destruct (language options ≫= nonempty), (paymentDescription options ≫= nonempty),
    (customerLastName options ≫= nonempty), (customerFirstName options ≫= nonempty),
    (customerEmail options ≫= nonempty); literal.
Qed.

Lemma NoDup_keys_filter {A B} (f : A * B -> bool) (l : list (A * B)) :
  NoDup (map fst l) -> NoDup (map fst (List.filter f l)).
Proof.
  induction l as [|x l IH]; cbn [List.filter map]; intros H; [constructor|].
  apply NoDup_cons in H as (N & H). destruct (f x); [|now apply IH].
  cbn [map]. apply NoDup_cons. split; [|now apply IH].
  rewrite list_elem_of_In in *. intros I. apply N.
  apply in_map_iff in I as (y & E & I). apply filter_In in I as (I & _).
  apply in_map_iff. now exists y.
Qed.

Lemma NoDup_keys_unique {A B} (l : list (A * B)) k v v' :
  NoDup (map fst l) -> In (k, v) l -> In (k, v') l -> v = v'.
Proof.
  induction l as [|x l IH]; cbn [map]; intros H I I'; [contradiction|].
  apply NoDup_cons in H as (N & H). rewrite list_elem_of_In in N.
  destruct I as [-> | I], I' as [E | I'].
  - congruence.
  - exfalso. apply N. apply in_map_iff. now exists (k, v').
  - subst x. exfalso. apply N. apply in_map_iff. now exists (k, v).
  - now apply IH.
Qed.

Lemma fold_stored_lookup_unique fields k v m :
  NoDup (map fst fields) -> In (k, v) fields ->
  k <> [] -> k <> js "__proto__" ->
  fold_left stored fields m !! k = Some (String_ v).
Proof.
  intros N I Hk Hp. apply in_split in I as (before & after & ->).
  apply fold_stored_lookup_last; [assumption..|].
  rewrite map_app in N. cbn [map fst] in N.
  apply NoDup_app in N as (_ & _ & N). apply NoDup_cons in N as (N & _).
  now rewrite list_elem_of_In in N.
Qed.

(** The value under a key of the request, as the payload carries it. *)
Lemma requestParams_lookup this oid options k v :
  In (k, v) (requestParams this oid options) ->
  k <> [] -> k <> js "__proto__" ->
  fields_map (requestParams this oid options) !! k
  = if present v then Some (String_ v) else None.
Proof.
  intros I Hk Hp. unfold fields_map.
  pose proof (requestParams_keys this oid options) as N.
  destruct (present v) eqn:P.
  - apply fold_stored_lookup_unique; [now apply NoDup_keys_filter| |assumption..].
    apply filter_In. now split.
  - rewrite fold_stored_lookup_absent; [reflexivity|].
    intros J. apply in_map_iff in J as ((k' & v') & E & J). cbn [fst] in E. subst k'.
    apply filter_In in J as (J & P'). cbn [snd] in P'.
    rewrite (NoDup_keys_unique _ _ _ _ N I J) in P. congruence.
Qed.

Lemma requestParams_lookup_absent this oid options k :
  (forall v, ~ In (k, v) (requestParams this oid options)) ->
  fields_map (requestParams this oid options) !! k = None.
Proof.
  intros H. unfold fields_map. rewrite fold_stored_lookup_absent; [reflexivity|].
  intros J. apply in_map_iff in J as ((k' & v') & E & J). cbn [fst] in E. subst k'.
  apply filter_In in J as (J & _). now apply H in J.
Qed.

Lemma order_id_alnum fresh transactionId :
  Forall (fun c => is_alnum c = true) (generateOrderId fresh transactionId)
  /\ generateOrderId fresh transactionId <> [].
Proof.
  rewrite generateOrderId_spec, order_id_untruncated.
  destruct (short_uuid_spec fresh) as (L & F). split.
  - apply Forall_app. split.
    + apply Forall_take, filter_alnum.
    + eapply Forall_impl; [exact F|]. intros c. apply is_hex_lower_alnum.
  - intros E. apply app_eq_nil in E as (_ & E). rewrite E in L. discriminate L.
Qed.

Lemma alnum_text s : Forall (fun c => is_alnum c = true) s -> text s.
Proof.
  intros H. apply ascii_well_formed. eapply Forall_impl; [exact H|].
  intros c Hc. apply alnum_not_surrogate in Hc as (_ & _ & U).
  now apply uriUnescaped_plain in U as (? & _).
Qed.

Lemma present_string s :
  (if present (VString s) then Some (String_ (VString s)) else None) = nonempty s.
Proof. now destruct s. Qed.

Lemma requestParams_text this fresh options :
  request_text this options ->
  Forall field_text
    (List.filter (fun kv => present (snd kv))
       (requestParams this (generateOrderId fresh (transactionId options)) options)).
Proof.
  intros (T1 & T2 & T3 & T4 & T5 & T6).
  apply List.Forall_forall. intros kv I. apply filter_In in I as (I & _).
  apply in_requestParams in I as [I | (key & s & I & _ & ->)].
  - cbn [In] in I.
    repeat (destruct I as [<- | I]; [split; cbn [fst snd]; try assumption;
                                     try exact I; try (split; reflexivity)|]);
      try contradiction.
    apply alnum_text, order_id_alnum.
  - rewrite List.Forall_forall in T6. specialize (T6 _ I). cbn [snd] in T6.
    split; cbn [fst snd]; [|assumption].
    cbn [optional_fields In] in I.
    repeat (destruct I as [I | I]; [injection I as <- _; split; reflexivity|]).
    contradiction.
Qed.

Ltac base_field :=
  apply in_requestParams; left; cbn [In]; auto 12.

(** X6: the fields of a payment request on the wire.  For a request whose
    strings are strings proper, [createPaymentRequest] returns the order id
    it generated and a redirect URL whose payload decodes, under
    [decodeCallbackData], to exactly the fields of the request: the order
    id returned, the amount in minor units as text, the version and the
    test flag always; the project id, the three URLs, the currency and the
    five optional fields when they are not empty; and no other key. *)
Theorem createPaymentRequest_payload_fields
  (this : PayseraClient) (fresh : entropy) (options : CreatePaymentOptions) :
  request_text this options ->
  let oid := generateOrderId fresh (transactionId options) in
  let pw := password (config this) in
  exists d m,
    createPaymentRequest this fresh options
    = Ok {| redirectUrl := getPaymentUrl d (generateSignature d pw); orderId := oid |}
    /\ decodeCallbackData d = Ok m
    /\ m !! js "projectid" = nonempty (projectId (config this))
    /\ m !! js "orderid" = Some oid
    /\ m !! js "accepturl" = nonempty (acceptUrl (urls options))
    /\ m !! js "cancelurl" = nonempty (cancelUrl (urls options))
    /\ m !! js "callbackurl" = nonempty (callbackUrl (urls options))
    /\ m !! js "version" = Some (js "1.6")
    /\ m !! js "amount" = Some (Number_toString (toMinorUnits (amount options)))
    /\ m !! js "currency" = nonempty (currency options)
    /\ m !! js "test" = Some (if testMode (config this) then js "1" else js "0")
    /\ m !! js "p_email" = customerEmail options ≫= nonempty
    /\ m !! js "p_firstname" = customerFirstName options ≫= nonempty
    /\ m !! js "p_lastname" = customerLastName options ≫= nonempty
    /\ m !! js "paytext" = paymentDescription options ≫= nonempty
    /\ m !! js "lang" = language options ≫= nonempty
    /\ (forall k, ~ In k request_keys -> m !! k = None).
Proof.
  intros T oid pw.
  pose proof (requestParams_text this fresh options T) as F. fold oid in F.
  exists (toUrlSafeBase64
            (join (js "&")
               (map entry_text
                  (List.filter (fun kv => present (snd kv))
                     (requestParams this oid options))))),
         (fields_map (requestParams this oid options)).
  split.
  { unfold createPaymentRequest, buildPaymentUrl, buildRequest. fold oid. fold pw.
    rewrite encodeParams_text by assumption. reflexivity. }
  split; [now apply decodeCallbackData_encoded|].
  assert (forall k s,
             In (k, VString s) (requestParams this oid options) ->
             k <> [] -> k <> js "__proto__" ->
             fields_map (requestParams this oid options) !! k = nonempty s) as S.
  { intros k s I Hk Hp. rewrite (requestParams_lookup _ _ _ _ _ I Hk Hp).
    apply present_string. }
  assert (forall k x,
             In (k, VNumber x) (requestParams this oid options) ->
             k <> [] -> k <> js "__proto__" ->
             fields_map (requestParams this oid options) !! k
             = Some (Number_toString x)) as N.
  { intros k x I Hk Hp. now rewrite (requestParams_lookup _ _ _ _ _ I Hk Hp). }
  assert (forall k o,
             In (k, o) (optional_fields options) ->
             k <> [] -> k <> js "__proto__" ->
             fields_map (requestParams this oid options) !! k = o ≫= nonempty) as O.
  { intros k o I Hk Hp. destruct o as [[|c s]|] eqn:E.
    - apply requestParams_lookup_absent. intros v.
      eapply unset_not_in_requestParams; [exact I|now right].
    - rewrite (S k (c :: s)); [reflexivity| |assumption..].
      apply in_requestParams. right. exists k, (c :: s). now repeat split.
    - apply requestParams_lookup_absent. intros v.
      eapply unset_not_in_requestParams; [exact I|now left]. }
  repeat split.
  - apply S; [base_field|discriminate..].
  - rewrite (S (js "orderid") oid); [|base_field|discriminate..].
    unfold nonempty. destruct (order_id_alnum fresh (transactionId options)) as (_ & NE).
    fold oid in NE. apply truthy_true in NE. now rewrite NE.
  - apply S; [base_field|discriminate..].
  - apply S; [base_field|discriminate..].
  - apply S; [base_field|discriminate..].
  - rewrite (S (js "version") PAYSERA_API_VERSION); [reflexivity|base_field|discriminate..].
  - apply N; [base_field|discriminate..].
  - apply S; [base_field|discriminate..].
  - rewrite (N (js "test")
               (if testMode (config this) then Number_of_Z 1 else Number_of_Z 0));
      [now destruct (testMode (config this))|base_field|discriminate..].
  - apply O; [cbn [optional_fields In]; auto 6|discriminate..].
  - apply O; [cbn [optional_fields In]; auto 6|discriminate..].
  - apply O; [cbn [optional_fields In]; auto 6|discriminate..].
  - apply O; [cbn [optional_fields In]; auto 6|discriminate..].
  - apply O; [cbn [optional_fields In]; auto 6|discriminate..].
  - intros k NK. apply requestParams_lookup_absent. intros v I. apply NK.
    apply in_requestParams in I as [I | (key & s & I & _ & E)].
    + cbn [In] in I. unfold request_keys. cbn [In].
      repeat (destruct I as [I | I]; [injection I as <- _; auto 20|]).
      contradiction.
    + injection E as -> _. cbn [optional_fields In] in I.
      unfold request_keys. cbn [In].
      repeat (destruct I as [I | I]; [injection I as <- _; auto 20|]).
      contradiction.
Qed.

Lemma createPaymentRequest_payload_fields_witness :
  let this := {| config := {| projectId := js "12345"; password := js "secret_password";
                              testMode := true |} |} in
  let fresh := {| unix_ts_ms := 0x0192f3a1b2c3; rand_a := 0xabc;
                  rand_b := 0x123456789abcdef0 |} in
  let options :=
    {| transactionId := js "TX-001"; amount := ten_and_a_half; currency := js "EUR";
       urls := {| acceptUrl := js "https://example.com/accept?a=1&b=2";
                  cancelUrl := js "https://example.com/cancel";
                  callbackUrl := js "https://example.com/callback" |};
       customerEmail := Some (js "test@example.com"); customerFirstName := Some [];
       customerLastName := None; paymentDescription := None; language := None |} in
  exists d m,
    orderId <$> createPaymentRequest this fresh options
    = Ok (js "TX0010192f3a1b2c37abc92345678")
    /\ decodeCallbackData d = Ok m
    /\ m !! js "orderid" = Some (js "TX0010192f3a1b2c37abc92345678")
    /\ m !! js "accepturl" = Some (js "https://example.com/accept?a=1&b=2")
    /\ m !! js "amount" = Some (js "1050")
    /\ m !! js "p_email" = Some (js "test@example.com")
    /\ m !! js "p_firstname" = None.
Proof.
  intros this fresh options.
  destruct (createPaymentRequest_payload_fields this fresh options)
    as (d & m & E & D & _ & Lo & La & _ & _ & _ & Lm & _ & _ & Le & Lf & _).
  - repeat split; try reflexivity.
    repeat (constructor; [cbn [snd]; try exact I; split; reflexivity|]). constructor.
  - exists d, m. rewrite E, Lo, La, Lm, Le, Lf. repeat split; assumption.
Defined.

(* ===================================================================== *)
(** * Properties: the stored configuration *)
(* ===================================================================== *)

Import Json Zod.

Lemma hex_value_hex_lower n : 0 <= n < 16 -> hex_value (hex_lower n) = Some n.
Proof.
  intros H. unfold hex_value, hex_lower, is_digit, between. codes.
  destruct (Z.ltb_spec n 10).
  - replace ((48 <=? 48 + n) && (48 + n <=? 57)) with true by lia.
    f_equal. lia.
  - replace ((48 <=? 97 + (n - 10)) && (97 + (n - 10) <=? 57)) with false by lia.
    replace ((97 <=? 97 + (n - 10)) && (97 + (n - 10) <=? 102)) with true by lia.
    f_equal. lia.
Qed.

Lemma sixteen_bits c :
  0 <= c <= 0xFFFF ->
  (((c / 4096) mod 16 * 16 + (c / 256) mod 16) * 16 + (c / 16) mod 16) * 16 + c mod 16
  = c.
Proof.
  intros H.
  replace (c / 256) with (c / 16 / 16) by (rewrite Z.div_div by lia; reflexivity).
  replace (c / 4096) with (c / 16 / 16 / 16) by (rewrite !Z.div_div by lia; reflexivity).
  pose proof (Z.div_mod c 16). pose proof (Z.mod_pos_bound c 16).
  pose proof (Z.div_mod (c / 16) 16). pose proof (Z.mod_pos_bound (c / 16) 16).
  pose proof (Z.div_mod (c / 16 / 16) 16).
  pose proof (Z.mod_pos_bound (c / 16 / 16) 16).
  assert (0 <= c / 16 / 16 / 16 < 16) as B.
  { rewrite !Z.div_div by lia. split; [apply Z.div_pos; lia|].
    apply Z.div_lt_upper_bound; lia. }
  rewrite (Z.mod_small (c / 16 / 16 / 16) 16) by assumption. lia.
Qed.

(** One code unit, quoted, is read back as itself. *)
Lemma parse_chars_code_unit c rest :
  0 <= c <= 0xFFFF ->
  parse_chars (quote_code_point c ++ rest)
  = match parse_chars rest with
    | Some (r, rest') => Some (c :: r, rest')
    | None => None
    end.
Proof.
  intros H. unfold quote_code_point, quotation_mark, reverse_solidus.
  destruct (Z.eqb_spec c 0x08) as [->|N1]; [reflexivity|].
  destruct (Z.eqb_spec c 0x09) as [->|N2]; [reflexivity|].
  destruct (Z.eqb_spec c 0x0A) as [->|N3]; [reflexivity|].
  destruct (Z.eqb_spec c 0x0C) as [->|N4]; [reflexivity|].
  destruct (Z.eqb_spec c 0x0D) as [->|N5]; [reflexivity|].
  destruct (Z.eqb_spec c 0x22) as [->|N6]; [reflexivity|].
  destruct (Z.eqb_spec c 0x5C) as [->|N7]; [reflexivity|].
  destruct ((c <? 0x20) || is_surrogate c) eqn:E.
  - unfold hex4. cbn [app parse_chars].
    change (reverse_solidus =? quotation_mark) with false.
    change (reverse_solidus =? reverse_solidus) with true.
    change (code "u" =? code "u") with true. cbv iota.
    rewrite !hex_value_hex_lower by zdiv.
    rewrite sixteen_bits by assumption. reflexivity.
  - apply orb_false_iff in E as (E & _).
    unfold utf16_encode_cp. destruct (Z.ltb_spec c 0x10000); [|lia].
    cbn [app parse_chars]. unfold quotation_mark, reverse_solidus.
    destruct (Z.eqb_spec c 0x22); [contradiction|].
    destruct (Z.eqb_spec c 0x5C); [contradiction|].
    rewrite E. reflexivity.
Qed.

(** A surrogate pair, quoted, is read back as the pair. *)
Lemma parse_chars_pair c d rest :
  is_lead_surrogate c && is_trail_surrogate d = true ->
  parse_chars (quote_code_point (0x10000 + (c - 0xD800) * 0x400 + (d - 0xDC00)) ++ rest)
  = match parse_chars rest with
    | Some (r, rest') => Some (c :: d :: r, rest')
    | None => None
    end.
Proof.
  intros H. apply andb_true_iff in H as (Hc & Hd).
  apply between_spec in Hc, Hd.
  set (cp := 0x10000 + (c - 0xD800) * 0x400 + (d - 0xDC00)).
  assert (0x10000 <= cp <= 0x10FFFF) as B by (unfold cp; lia).
  unfold quote_code_point, quotation_mark, reverse_solidus.
  destruct (Z.eqb_spec cp 0x08); [lia|]. destruct (Z.eqb_spec cp 0x09); [lia|].
  destruct (Z.eqb_spec cp 0x0A); [lia|]. destruct (Z.eqb_spec cp 0x0C); [lia|].
  destruct (Z.eqb_spec cp 0x0D); [lia|]. destruct (Z.eqb_spec cp 0x22); [lia|].
  destruct (Z.eqb_spec cp 0x5C); [lia|].
  replace ((cp <? 0x20) || is_surrogate cp) with false.
  2:{ symmetry. apply orb_false_iff. split; [lia|]. apply between_false. lia. }
  unfold utf16_encode_cp. destruct (Z.ltb_spec cp 0x10000); [lia|].
  replace (0xD800 + (cp - 0x10000) / 0x400) with c by (unfold cp; zdiv).
  replace (0xDC00 + (cp - 0x10000) mod 0x400) with d by (unfold cp; zdiv).
  cbn [app parse_chars]. unfold quotation_mark, reverse_solidus.
  destruct (Z.eqb_spec c 0x22); [lia|]. destruct (Z.eqb_spec c 0x5C); [lia|].
  destruct (Z.eqb_spec d 0x22); [lia|]. destruct (Z.eqb_spec d 0x5C); [lia|].
  destruct (Z.ltb_spec c 0x20); [lia|]. destruct (Z.ltb_spec d 0x20); [lia|].
  destruct (parse_chars rest) as [[r rest']|]; reflexivity.
Qed.

Lemma parse_chars_quoted s rest :
  code_units s = true ->
  parse_chars (flat_map quote_code_point (code_points s) ++ quotation_mark :: rest)
  = Some (s, rest).
Proof.
  induction s as [|c|c d s E IH|c d s E IH] using code_points_ind; intros H.
  - reflexivity.
  - apply code_units_cons in H as (Hc & _). cbn [code_points flat_map].
    rewrite app_nil_r, parse_chars_code_unit by assumption. reflexivity.
  - apply code_units_cons in H as (_ & H). apply code_units_cons in H as (_ & H).
    rewrite code_points_pair by assumption. cbn [flat_map]. rewrite <- app_assoc.
    rewrite parse_chars_pair by assumption. now rewrite IH.
  - apply code_units_cons in H as (Hc & H).
    rewrite code_points_single by assumption. cbn [flat_map]. rewrite <- app_assoc.
    rewrite parse_chars_code_unit by assumption. now rewrite IH.
Qed.

Lemma parse_value_quoted fuel s rest :
  code_units s = true ->
  parse_value (S fuel) (quote s ++ rest) = Some (JString s, rest).
Proof.
  intros H. unfold quote. cbn [app parse_value skip_ws].
  change (is_ws quotation_mark) with false. cbv iota.
  rewrite Z.eqb_refl. rewrite <- app_assoc. cbn [app].
  now rewrite parse_chars_quoted.
Qed.

Lemma parse_member_quoted fuel k rest :
  code_units k = true ->
  parse_members (S fuel) (quote k ++ rest)
  = match skip_ws rest with
    | colon :: s2 =>
        if colon =? code ":" then
          match parse_value fuel s2 with
          | Some (v, s3) =>
              match skip_ws s3 with
              | d :: s4 =>
                  if d =? code "}" then Some ([(k, v)], s4)
                  else if d =? code "," then
                    match parse_members fuel s4 with
                    | Some (ms, rest') => Some ((k, v) :: ms, rest')
                    | None => None
                    end
                  else None
              | [] => None
              end
          | None => None
          end
        else None
    | [] => None
    end.
Proof.
  intros H. unfold quote. cbn [app parse_members skip_ws].
  change (is_ws quotation_mark) with false. cbv iota.
  rewrite Z.eqb_refl. rewrite <- app_assoc. cbn [app].
  now rewrite parse_chars_quoted.
Qed.

Lemma quote_head k rest :
  quote k ++ rest
  = quotation_mark
    :: (flat_map quote_code_point (code_points k) ++ quotation_mark :: rest).
Proof. unfold quote. cbn [app]. now rewrite <- app_assoc. Qed.

Lemma JSON_parse_stringify config :
  code_units (projectId config) = true -> code_units (password config) = true ->
  JSON_parse (Config.JSON_stringify config)
  = Some (JObject [(js "projectId", JString (projectId config));
                   (js "password", JString (password config));
                   (js "testMode", JBool (testMode config))]).
Proof.
  intros Hp Hw. unfold JSON_parse.
  remember (length (Config.JSON_stringify config)) as n eqn:L.
  unfold Config.JSON_stringify in *.
  assert (exists k, n = S (S (S (S k)))) as (k & ->).
  { subst n. unfold quote. cbn [js list_ascii_of_string map app length].
    eexists. reflexivity. }
  clear L.
  change (js "{" ++ ?x) with (code "{" :: x).
  cbn [parse_value skip_ws].
  change (is_ws (code "{")) with false. cbv iota.
  change (code "{" =? quotation_mark) with false.
  change (code "{" =? code "{") with true. cbv iota.
  rewrite (quote_head (js "projectId")). cbn [skip_ws].
  change (is_ws quotation_mark) with false. cbv iota.
  change (quotation_mark =? code "}") with false. cbv iota.
  rewrite <- (quote_head (js "projectId")).
  rewrite parse_member_quoted by reflexivity. cbn [app js list_ascii_of_string map skip_ws].
  change (is_ws (code ":")) with false. cbv iota. rewrite Z.eqb_refl.
  rewrite parse_value_quoted by assumption. cbn [app skip_ws].
  change (is_ws (code ",")) with false. cbv iota.
  change (code "," =? code "}") with false. rewrite Z.eqb_refl. cbv iota.
  rewrite parse_member_quoted by reflexivity. cbn [app js list_ascii_of_string map skip_ws].
  change (is_ws (code ":")) with false. cbv iota. rewrite Z.eqb_refl.
  rewrite parse_value_quoted by assumption. cbn [app skip_ws].
  change (is_ws (code ",")) with false. cbv iota.
  change (code "," =? code "}") with false. rewrite Z.eqb_refl. cbv iota.
  rewrite parse_member_quoted by reflexivity. cbn [app js list_ascii_of_string map skip_ws].
  change (is_ws (code ":")) with false. cbv iota. rewrite Z.eqb_refl.
  destruct (testMode config); reflexivity.
Qed.

Lemma find_config_entry before item after :
  Forall (fun i => Config.key i <> Config.PAYSERA_CONFIG_KEY) before ->
  Config.key item = Config.PAYSERA_CONFIG_KEY ->
  List.find (fun i => str_eqb (Config.key i) Config.PAYSERA_CONFIG_KEY)
            (before ++ item :: after) = Some item.
Proof.
  intros Hb Hi. induction Hb as [|b before Hb _ IH]; cbn [app List.find].
  - unfold str_eqb. now rewrite bool_decide_true.
  - unfold str_eqb at 1. now rewrite bool_decide_false.
Qed.

Lemma find_config_entry_alone item :
  Config.key item = Config.PAYSERA_CONFIG_KEY ->
  List.find (fun i => str_eqb (Config.key i) Config.PAYSERA_CONFIG_KEY) [item]
  = Some item.
Proof. intros K. now apply (find_config_entry [] item []). Qed.

Lemma find_no_config_entry items :
  Forall (fun i => Config.key i <> Config.PAYSERA_CONFIG_KEY) items ->
  List.find (fun i => str_eqb (Config.key i) Config.PAYSERA_CONFIG_KEY) items = None.
Proof.
  induction 1 as [|b items Hb _ IH]; cbn [List.find]; [reflexivity|].
  unfold str_eqb at 1. now rewrite bool_decide_false.
Qed.

Lemma string_min_1_accepts message v s :
  string_min_1 message v = inl s -> v = Some (JString s) /\ s <> [].
Proof.
  unfold string_min_1. destruct v as [[| | |t| |]|]; try discriminate.
  destruct t as [|c t]; [discriminate|].
  destruct (Z.ltb_spec (Z.of_nat (length (c :: t))) 1) as [L|_];
    [cbn [length] in L; lia|].
  intros E. injection E as <-. split; [reflexivity|discriminate].
Qed.

Lemma boolean_default_accepts d v b :
  boolean_default d v = inl b ->
  b = match v with Some (JBool b') => b' | _ => d end
  /\ (v = None \/ exists b', v = Some (JBool b')).
Proof.
  unfold boolean_default. destruct v as [[|b'| | | |]|]; try discriminate.
  - intros E. injection E as <-. eauto.
  - intros E. injection E as <-. eauto.
Qed.

Lemma payseraConfigSchema_accepts input config :
  Config.payseraConfigSchema input = inl config ->
  exists members,
    input = JObject members
    /\ get members (js "projectId") = Some (JString (projectId config))
    /\ get members (js "password") = Some (JString (password config))
    /\ projectId config <> [] /\ password config <> []
    /\ testMode config = match get members (js "testMode") with
                         | Some (JBool b) => b
                         | _ => true
                         end.
Proof.
  unfold Config.payseraConfigSchema.
  destruct input as [| | | | |members]; try discriminate.
  destruct (string_min_1 _ (get members (js "projectId"))) as [p|] eqn:P;
    destruct (string_min_1 _ (get members (js "password"))) as [w|] eqn:W;
    destruct (boolean_default true (get members (js "testMode"))) as [t|] eqn:T;
    try discriminate.
  intros E. injection E as <-. exists members. cbn [projectId password testMode].
  apply string_min_1_accepts in P as (-> & ?), W as (-> & ?).
  apply boolean_default_accepts in T as (-> & _). auto 10.
Qed.

(** X7: a configuration is read back as it was stored.  For every
    configuration whose project id and password are strings of 16-bit code
    units (quotation marks, reverse solidi, control characters and unpaired
    surrogates included), [getPayseraConfigFromMetadata] applied to the
    entry [serializePayseraConfig] makes returns that configuration when
    both strings are not empty, and otherwise throws [PayseraConfigError]
    with the messages of the empty ones. *)
Theorem serialized_config_is_read_back (config : PayseraConfig) :
  code_units (projectId config) = true -> code_units (password config) = true ->
  Config.getPayseraConfigFromMetadata (Some [Config.serializePayseraConfig config])
  = match projectId config, password config with
    | [], [] =>
        Throw (PayseraConfigError
                 (js "Invalid Paysera configuration: Project ID is required, Password is required"))
    | [], _ :: _ =>
        Throw (PayseraConfigError
                 (js "Invalid Paysera configuration: Project ID is required"))
    | _ :: _, [] =>
        Throw (PayseraConfigError
                 (js "Invalid Paysera configuration: Password is required"))
    | _ :: _, _ :: _ => Ok config
    end.
Proof.
  intros Hp Hw. unfold Config.getPayseraConfigFromMetadata.
  cbn [List.find Config.serializePayseraConfig Config.key Config.value].
  unfold str_eqb. rewrite bool_decide_true by reflexivity.
  change (Config.value (Config.serializePayseraConfig config))
    with (Config.JSON_stringify config).
  rewrite JSON_parse_stringify by assumption.
  unfold Config.payseraConfigSchema. cbn [get].
  repeat case_bool_decide; try discriminate; try congruence.
  destruct config as [p w t]. cbn [projectId password testMode] in *.
  destruct p as [|c p], w as [|d w]; unfold string_min_1;
    repeat match goal with
      | |- context [Z.of_nat (length (?x :: ?l)) <? 1] =>
          destruct (Z.ltb_spec (Z.of_nat (length (x :: l))) 1) as [L|_];
          [cbn [length] in L; lia|]
      end;
    reflexivity.
Qed.

Lemma serialized_config_is_read_back_witness :
  let config := {| projectId := js "12345";
                   password := js "se" ++ [0x22; 0x5C; 0x0A; 0x01; 0xD800; 0x20AC];
                   testMode := false |} in
  Config.getPayseraConfigFromMetadata (Some [Config.serializePayseraConfig config])
  = Ok config.
Proof.
  intros config.
  apply (serialized_config_is_read_back config); reflexivity.
Defined.

(** X8: how the configuration is looked up.  [getPayseraConfigFromMetadata]
    throws nothing but [PayseraConfigError]; missing or empty metadata
    gives "No private metadata found"; metadata without an entry of key
    [paysera_config] gives "Paysera configuration not found in metadata";
    the first entry of that key alone decides the result, whatever stands
    before or after it; and an entry whose value is not JSON gives
    "Invalid JSON in Paysera configuration". *)
Theorem getPayseraConfigFromMetadata_lookup :
  (forall metadata,
      throws_only (fun e => exists m, e = PayseraConfigError m)
                  (Config.getPayseraConfigFromMetadata metadata))
  /\ Config.getPayseraConfigFromMetadata None
     = Throw (PayseraConfigError (js "No private metadata found"))
  /\ Config.getPayseraConfigFromMetadata (Some [])
     = Throw (PayseraConfigError (js "No private metadata found"))
  /\ (forall items,
        items <> [] ->
        Forall (fun i => Config.key i <> js "paysera_config") items ->
        Config.getPayseraConfigFromMetadata (Some items)
        = Throw (PayseraConfigError (js "Paysera configuration not found in metadata")))
  /\ (forall before item after,
        Forall (fun i => Config.key i <> js "paysera_config") before ->
        Config.key item = js "paysera_config" ->
        Config.getPayseraConfigFromMetadata (Some (before ++ item :: after))
        = Config.getPayseraConfigFromMetadata (Some [item]))
  /\ (forall item,
        Config.key item = js "paysera_config" ->
        JSON_parse (Config.value item) = None ->
        Config.getPayseraConfigFromMetadata (Some [item])
        = Throw (PayseraConfigError (js "Invalid JSON in Paysera configuration"))).
Proof.
  repeat split.
  - intros [[|i items]|]; cbn [Config.getPayseraConfigFromMetadata throws_only];
      eauto.
    destruct (List.find _ _) as [e|]; cbn [throws_only]; eauto.
    destruct (JSON_parse _) as [v|]; cbn [throws_only]; eauto.
    destruct (Config.payseraConfigSchema v); cbn [throws_only]; eauto.
  - intros items N F. destruct items as [|i items]; [contradiction|].
    unfold Config.getPayseraConfigFromMetadata.
    now rewrite (find_no_config_entry (i :: items)).
  - intros before item after F K.
    unfold Config.getPayseraConfigFromMetadata.
    rewrite (find_config_entry before item after F K).
    rewrite (find_config_entry_alone item K).
    destruct before; reflexivity.
  - intros item K J. unfold Config.getPayseraConfigFromMetadata.
    rewrite (find_config_entry_alone item K). now rewrite J.
Qed.

(** X9: what a successful lookup returns.  When
    [getPayseraConfigFromMetadata] returns a configuration, the first entry
    of key [paysera_config] holds a JSON object whose [projectId] and
    [password] are the strings returned, both not empty; [testMode] is the
    boolean of the object, and [true] when the object has none; and
    [new PayseraClient] accepts the configuration, so constructing the
    client after a successful lookup never throws. *)
Theorem config_from_metadata_is_valid
  (metadata : option (list Config.MetadataItem)) (config : PayseraConfig) :
  Config.getPayseraConfigFromMetadata metadata = Ok config ->
  (exists items entry members,
      metadata = Some items
      /\ List.find (fun i => str_eqb (Config.key i) (js "paysera_config")) items
         = Some entry
      /\ JSON_parse (Config.value entry) = Some (JObject members)
      /\ get members (js "projectId") = Some (JString (projectId config))
      /\ get members (js "password") = Some (JString (password config))
      /\ testMode config = match get members (js "testMode") with
                           | Some (JBool b) => b
                           | _ => true
                           end)
  /\ projectId config <> [] /\ password config <> []
  /\ new_PayseraClient config = Ok {| Client.config := config |}.
Proof.
  unfold Config.getPayseraConfigFromMetadata.
  destruct metadata as [[|i items]|]; try discriminate.
  change Config.PAYSERA_CONFIG_KEY with (js "paysera_config").
  destruct (List.find _ (i :: items)) as [entry|] eqn:F; [|discriminate].
  destruct (JSON_parse (Config.value entry)) as [v|] eqn:J; [|discriminate].
  destruct (Config.payseraConfigSchema v) as [c|errors] eqn:S; [|discriminate].
  intros E. injection E as ->.
  apply payseraConfigSchema_accepts in S as (members & -> & Gp & Gw & Np & Nw & T).
  split; [|split; [assumption|split; [assumption|]]].
  - exists (i :: items), entry, members. auto 10.
  - unfold new_PayseraClient.
    apply truthy_true in Np, Nw. now rewrite Np, Nw.
Qed.

Lemma config_from_metadata_is_valid_witness :
  let text := js "{ " ++ quote (js "password") ++ js ":" ++ quote (js "secret")
              ++ js ", " ++ quote (js "projectId") ++ js " : " ++ quote (js "12345")
              ++ js ", " ++ quote (js "other") ++ js ":[1, 2.5e3, null]}" in
  let metadata := Some [{| Config.key := js "other_key"; Config.value := js "x" |};
                        {| Config.key := js "paysera_config"; Config.value := text |}] in
  let config := {| projectId := js "12345"; password := js "secret";
                   testMode := true |} in
  Config.getPayseraConfigFromMetadata metadata = Ok config
  /\ new_PayseraClient config = Ok {| Client.config := config |}.
Proof.
  intros text metadata config.
  assert (Config.getPayseraConfigFromMetadata metadata = Ok config) as E
    by (vm_compute; reflexivity).
  split; [exact E|].
  apply (config_from_metadata_is_valid metadata config E).
Defined.

(* ===================================================================== *)
(** * Properties: masking a password for the log *)
(* ===================================================================== *)

(** X10: what a masked password shows.  A password of at most four code
    units is masked as four asterisks; a longer one as its first two code
    units, four asterisks and its last two code units, eight code units in
    all whatever the length of the password: exactly four code units of
    the password are shown, and its length is not. *)
Theorem maskPassword_shows (password : jsstring) :
  let n := length password in
  ((n <= 4)%nat -> Config.maskPassword password = js "****")
  /\ ((4 < n)%nat ->
      Config.maskPassword password
      = take 2 password ++ js "****" ++ drop (n - 2) password
      /\ length (Config.maskPassword password) = 8%nat).
Proof.
  intros n. unfold Config.maskPassword. fold n. split.
  - intros H. destruct (Z.leb_spec (Z.of_nat n) 4); [reflexivity|lia].
  - intros H. destruct (Z.leb_spec (Z.of_nat n) 4); [lia|].
    assert (Config.slice 0 (Some 2) password = take 2 password) as E1.
    { unfold Config.slice. fold n. cbn [Z.ltb Z.compare].
      rewrite !Z.min_l by lia. cbn. now rewrite drop_0. }
    assert (Config.slice (-2) None password = drop (n - 2) password) as E2.
    { unfold Config.slice. fold n. cbn [Z.ltb Z.compare].
      rewrite (Z.max_l (Z.of_nat n + -2) 0) by lia.
      replace (Z.to_nat (Z.max (Z.of_nat n - (Z.of_nat n + -2)) 0)) with 2%nat by lia.
      replace (Z.to_nat (Z.of_nat n + -2)) with (n - 2)%nat by lia.
      apply take_ge. rewrite length_drop. fold n. lia. }
    rewrite E1, E2. split; [reflexivity|].
    rewrite !length_app, length_take, length_drop. fold n.
    change (length (js "****")) with 4%nat. lia.
Qed.

(* ===================================================================== *)
(** * Properties: the callback route *)
(* ===================================================================== *)

Import CallbackRoute.

(** A callback is decoded only under a matching signature. *)
Lemma verifyAndDecodeCallback_returns toLowerCase rawCallback password callbackData :
  verifyAndDecodeCallback toLowerCase rawCallback password = Ok callbackData ->
  data rawCallback <> [] /\ ss1 rawCallback <> []
  /\ verifySignature toLowerCase (data rawCallback) (ss1 rawCallback) password = true
  /\ (decodeCallbackData (data rawCallback) ≫= parseCallbackData) = Ok callbackData.
Proof.
  unfold verifyAndDecodeCallback.
  destruct (truthy (data rawCallback)) eqn:D; [|discriminate].
  destruct (truthy (ss1 rawCallback)) eqn:S; [|discriminate].
  cbn [negb orb].
  destruct (verifySignature toLowerCase (data rawCallback) (ss1 rawCallback) password)
    eqn:V; [|discriminate].
  cbn [negb]. intros E. apply truthy_true in D, S. auto.
Qed.

Lemma first_truthy v s :
  falsy v = false -> default [] (first v) = s -> s <> [] -> first v = Some s.
Proof.
  destruct v as [[t|[|t l]]|]; cbn; try discriminate.
  - now intros _ ->.
  - intros _ <- N. contradiction.
  - now intros _ ->.
Qed.

(** X11: no event without a verified signature.  Whatever the request and
    the outside are, if the route reports a transaction event, then the
    action was [callback], the configuration of the app was read, and the
    [data] and [ss1] of the request pass [verifySignature] under the stored
    password; the event is the one the decoded payload gives: the
    transaction id of the request, the amount divided by 100, the type and
    the message of the status, a refund offered only after a success.  And
    the route answers 200 only after such a report, made without error. *)
Theorem event_reported_only_when_verified
  (toLowerCase : jsstring -> jsstring) (w : World) (req : NextApiRequest) :
  let out := handler toLowerCase w req in
  (forall url tok vars,
      In (TransactionEventReport url tok vars) (fst out) ->
      exists tx authData theApp config d s callbackData,
        first (query req (js "action")) = Some (js "callback")
        /\ first (query req (js "transactionId")) = Some tx
        /\ apl_get w url = Some authData /\ tok = token authData
        /\ app (fetchAppDetails w url tok) = Some theApp
        /\ Config.getPayseraConfigFromMetadata (privateMetadata theApp) = Ok config
        /\ first (query req (js "data")) = Some d
        /\ first (query req (js "ss1")) = Some s
        /\ verifySignature toLowerCase d s (password config) = true
        /\ (decodeCallbackData d ≫= parseCallbackData) = Ok callbackData
        /\ vars = {| id := tx;
                     amount := num_div (Types.amount callbackData) (Number_of_Z 100);
                     type := fst (classify {| Client.config := config |} callbackData);
                     pspReference := uuidv7 (fresh w);
                     message := snd (classify {| Client.config := config |} callbackData);
                     availableActions :=
                       if isPaymentSuccessful callbackData then [Refund] else [] |})
  /\ (forall status body,
        snd out = Ok (Send status body) -> status = 200 ->
        body = js "OK"
        /\ exists url tok vars,
             In (TransactionEventReport url tok vars) (fst out)
             /\ report_error (transactionEventReport w url tok vars) = None).
Proof.
  intros out. subst out. unfold handler.
  destruct (match query req (js "saleorApiUrl") with
            | Some (QString s) => _
            | Some (QArray l) => _
            | None => _
            end) as [api|e]; [|split; [intros ? ? ? []|discriminate]].
  destruct (first (query req (js "transactionId"))) as [[|c tx]|] eqn:T;
    try (split; [intros ? ? ? []|intros ? ? E ?; injection E as <- <-; discriminate]).
  unfold handleAcceptRedirect, handleCancelRedirect.
  repeat case_bool_decide;
    try (split; [intros ? ? ? []|intros ? ? E ?; try discriminate E;
                                 injection E as <- <-; discriminate]).
  destruct api as [[|a api]|];
    try (split; [intros ? ? ? []|intros ? ? E ?; injection E as <- <-; discriminate]).
  unfold handleServerCallback.
  destruct (apl_get w (a :: api)) as [authData|] eqn:A.
  2:{ split; [intros ? ? ? [E|[]]; discriminate E
             |intros ? ? E ?; injection E as <- <-; discriminate]. }
  destruct (query_error (fetchAppDetails w (a :: api) (token authData))) eqn:QE.
  { split; [intros ? ? ? [E|[E|[]]]; discriminate E
           |intros ? ? E ?; injection E as <- <-; discriminate]. }
  destruct (app (fetchAppDetails w (a :: api) (token authData))) as [theApp|] eqn:AP.
  2:{ split; [intros ? ? ? [E|[E|[]]]; discriminate E
             |intros ? ? E ?; injection E as <- <-; discriminate]. }
  destruct (Config.getPayseraConfigFromMetadata (privateMetadata theApp))
    as [config|e] eqn:G.
  2:{ split; [intros ? ? ? [E|[E|[]]]; discriminate E
             |intros ? ? E ?; injection E as <- <-; discriminate]. }
  destruct (new_PayseraClient config) as [client|e] eqn:N.
  2:{ split; [intros ? ? ? [E|[E|[]]]; discriminate E|discriminate]. }
  assert (client = {| Client.config := config |}) as ->.
  { unfold new_PayseraClient in N. destruct (_ || _); [discriminate|].
    now injection N as <-. }
  destruct (falsy (query req (js "data")) || falsy (query req (js "ss1"))) eqn:F.
  { split; [intros ? ? ? [E|[E|[]]]; discriminate E
           |intros ? ? E ?; injection E as <- <-; discriminate]. }
  apply orb_false_iff in F as (F1 & F2).
  unfold processCallback. cbn [Client.config].
  destruct (verifyAndDecodeCallback _ _ _) as [cb|e] eqn:V.
  2:{ destruct e;
        (split; [intros ? ? ? [E|[E|[]]]; discriminate E
                |intros ? ? E ?; try discriminate E;
                 injection E as <- <-; discriminate]). }
  apply verifyAndDecodeCallback_returns in V as (Nd & Ns & V & P).
  cbn [CallbackHandler.data CallbackHandler.ss1] in *.
  pose proof (first_truthy _ _ F1 eq_refl Nd) as D1.
  pose proof (first_truthy _ _ F2 eq_refl Ns) as D2.
  destruct (classify {| Client.config := config |} cb) as [eventType message] eqn:C.
  assert ((match eventType with ChargeSuccess => [Refund] | _ => [] end)
          = if isPaymentSuccessful cb then [Refund] else []) as R.
  { unfold classify in C. destruct (isPaymentSuccessful cb).
    - now injection C as <- <-.
    - repeat destruct (num_eqb _ _); now injection C as <- <-. }
  split.
  - intros url tok vars I.
    assert (In (TransactionEventReport url tok vars)
              [AplGet (a :: api); FetchAppDetails (a :: api) (token authData);
               TransactionEventReport (a :: api) (token authData)
                 {| id := c :: tx;
                    amount := num_div (Types.amount cb) (Number_of_Z 100);
                    type := eventType; pspReference := uuidv7 (fresh w);
                    message := message;
                    availableActions :=
                      match eventType with ChargeSuccess => [Refund] | _ => [] end |}])
      as I' by (destruct (report_error _); exact I).
    destruct I' as [E|[E|[E|[]]]]; try discriminate E.
    injection E as <- <- <-.
    exists (c :: tx), authData, theApp, config,
      (default [] (first (query req (js "data")))),
      (default [] (first (query req (js "ss1")))), cb.
    rewrite C, R. cbn [fst snd]. repeat split; try assumption; reflexivity.
  - intros status body E S.
    destruct (report_error _) eqn:RE; cbn [snd fst] in *;
      injection E as <- <-; [discriminate|].
    split; [reflexivity|].
    eexists _, _, _. split; [|exact RE]. cbn [List.app In]. auto 6.
Qed.

Lemma handleServerCallback_calls toLowerCase w req tx url :
  exists calls, fst (handleServerCallback toLowerCase w req tx url) = AplGet url :: calls.
Proof.
  unfold handleServerCallback.
  destruct (apl_get w url) as [authData|]; [|eexists; reflexivity].
  destruct (query_error (fetchAppDetails w url (token authData)));
    [eexists; reflexivity|].
  destruct (app (fetchAppDetails w url (token authData))) as [theApp|];
    [|eexists; reflexivity].
  destruct (Config.getPayseraConfigFromMetadata _); [|eexists; reflexivity].
  destruct (new_PayseraClient _); [|eexists; reflexivity].
  destruct (_ || _); [eexists; reflexivity|].
  destruct (processCallback _ _ _) as [cb|[]]; try (eexists; reflexivity).
  destruct (classify _ _). destruct (report_error _); eexists; reflexivity.
Qed.

(** X12: the order of the checks of the route.  A Saleor API URL that is
    not a well-formed percent-encoding rejects the request with [URIError]
    before anything else is looked at, whatever the action and the
    transaction id are.  The [accept] and [cancel] actions make no call to
    the outside, whatever [data] and [ss1] the request carries, and answer
    with a redirect, or with 400 when the transaction id is missing.  A run
    that makes any call is a [callback] action and starts by asking for the
    authentication data of the decoded, non-empty Saleor API URL. *)
Theorem handler_checks_in_order
  (toLowerCase : jsstring -> jsstring) (w : World) (req : NextApiRequest) :
  let out := handler toLowerCase w req in
  (forall s,
      query req (js "saleorApiUrl") = Some (QString s)
      \/ (exists l, query req (js "saleorApiUrl") = Some (QArray (s :: l))) ->
      decodeURIComponent s = Throw URIError ->
      out = ([], Throw URIError))
  /\ (first (query req (js "action")) = Some (js "accept")
       \/ first (query req (js "action")) = Some (js "cancel") ->
      fst out = []
      /\ (snd out = Throw URIError
           \/ snd out = Ok (Send 400 (js "Missing transactionId"))
           \/ snd out = Ok (Redirect 302 (getRedirectUrl w true))
           \/ snd out = Ok (Redirect 302 (getRedirectUrl w false))))
  /\ (forall c calls,
        fst out = c :: calls ->
        first (query req (js "action")) = Some (js "callback")
        /\ exists url,
             c = AplGet url /\ url <> []
             /\ ((exists s, query req (js "saleorApiUrl") = Some (QString s)
                            /\ decodeURIComponent s = Ok url)
                  \/ (exists s l, query req (js "saleorApiUrl") = Some (QArray (s :: l))
                                  /\ decodeURIComponent s = Ok url)
                  \/ (query req (js "saleorApiUrl") = Some (QArray [])
                       /\ url = js "undefined"))).
Proof.
  intros out. subst out. unfold handler. split; [|split].
  - intros s [Q | (l & Q)] D; rewrite Q.
    + destruct s as [|c s]; [discriminate D|]. cbn [truthy]. now rewrite D.
    + change (default (js "undefined") (head (s :: l))) with s. now rewrite D.
  - intros A.
    assert (forall r : result (option jsstring),
               throws_only uri_error r ->
               match r with
               | Throw e => e = URIError
               | Ok _ => True
               end) as U by (intros [|]; auto).
    destruct (match query req (js "saleorApiUrl") with
              | Some (QString s) => _
              | Some (QArray l) => _
              | None => _
              end) as [api|e] eqn:E.
    + destruct (first (query req (js "transactionId"))) as [[|c tx]|]; cbn [fst snd];
        auto.
      unfold handleAcceptRedirect, handleCancelRedirect.
      destruct A as [-> | ->]; repeat case_bool_decide; try congruence;
        cbn [fst snd]; auto.
    + cbn [fst snd]. split; [reflexivity|]. left. f_equal.
      destruct (query req (js "saleorApiUrl")) as [[s|l]|]; try discriminate E.
      * destruct (truthy s); [|discriminate E].
        pose proof (decodeURIComponent_throws s) as T.
        destruct (decodeURIComponent s); [discriminate E|].
        cbn in E. injection E as <-. exact T.
      * pose proof (decodeURIComponent_throws (default (js "undefined") (head l))) as T.
        destruct (decodeURIComponent _); [discriminate E|].
        cbn in E. injection E as <-. exact T.
  - intros c calls.
    destruct (match query req (js "saleorApiUrl") with
              | Some (QString s) => _
              | Some (QArray l) => _
              | None => _
              end) as [api|e] eqn:E; [|discriminate].
    destruct (first (query req (js "transactionId"))) as [[|t tx]|]; try discriminate.
    unfold handleAcceptRedirect, handleCancelRedirect.
    repeat case_bool_decide; try discriminate.
    destruct api as [[|a api]|]; try discriminate.
    destruct (handleServerCallback_calls toLowerCase w req (t :: tx) (a :: api))
      as (calls' & ->).
    intros I. injection I as <- <-. split; [assumption|].
    exists (a :: api). split; [reflexivity|]. split; [discriminate|].
    destruct (query req (js "saleorApiUrl")) as [[s|[|s l]]|]; try discriminate E.
    + left. exists s. split; [reflexivity|].
      destruct (truthy s); [|discriminate E].
      destruct (decodeURIComponent s); [|discriminate E].
      cbn in E. now injection E as ->.
    + right; right. split; [reflexivity|].
      vm_compute in E. injection E as <- <-. reflexivity.
    + right; left. exists s, l. split; [reflexivity|].
      change (default (js "undefined") (head (s :: l))) with s in E.
      destruct (decodeURIComponent s); [|discriminate E].
      cbn in E. now injection E as ->.
Qed.

(** X13: how the route names the outcome of a payment.  The event type
    agrees with the helpers of the client: [ChargeSuccess] exactly when
    [isPaymentSuccessful], [ChargeRequest] exactly when [isPaymentPending],
    and [ChargeFailure] otherwise; so among the integer statuses 1 is a
    success, 0 and 2 are requests, and every other one, 3 (additional
    information required) included, is reported as a failure. *)
Theorem classify_agrees_with_client
  (payseraClient : PayseraClient) (callbackData : PayseraCallbackData) :
  let t := fst (classify payseraClient callbackData) in
  (t = ChargeSuccess <-> isPaymentSuccessful callbackData = true)
  /\ (t = ChargeRequest <-> isPaymentPending callbackData = true)
  /\ (t = ChargeFailure
      <-> isPaymentSuccessful callbackData = false
          /\ isPaymentPending callbackData = false)
  /\ (forall n : Z,
        - 2 ^ 53 < n < 2 ^ 53 -> status callbackData = Number_of_Z n ->
        t = if n =? 1 then ChargeSuccess
            else if (n =? 0) || (n =? 2) then ChargeRequest
            else ChargeFailure).
Proof.
  intros t. subst t.
  assert (isPaymentSuccessful callbackData = true ->
          isPaymentPending callbackData = false) as X.
  { intros S. apply isPaymentSuccessful_iff in S.
    unfold isPaymentPending. rewrite S. reflexivity. }
  assert (fst (classify payseraClient callbackData)
          = if isPaymentSuccessful callbackData then ChargeSuccess
            else if isPaymentPending callbackData then ChargeRequest
            else ChargeFailure) as C.
  { unfold classify, isPaymentPending.
    destruct (isPaymentSuccessful callbackData); [reflexivity|].
    destruct (num_eqb (status callbackData) PayseraStatus.PENDING); [reflexivity|].
    destruct (num_eqb (status callbackData) PayseraStatus.ACCEPTED_NOT_EXECUTED);
      reflexivity. }
  rewrite C. split; [|split; [|split]].
  - destruct (isPaymentSuccessful callbackData); [tauto|].
    destruct (isPaymentPending callbackData); split; discriminate.
  - destruct (isPaymentSuccessful callbackData) eqn:S.
    + rewrite (X eq_refl). split; discriminate.
    + destruct (isPaymentPending callbackData); [tauto|]. split; discriminate.
  - destruct (isPaymentSuccessful callbackData) eqn:S.
    + split; [discriminate|]. intros (E & _). discriminate E.
    + destruct (isPaymentPending callbackData); [|tauto].
      split; [discriminate|]. intros (_ & E). discriminate E.
  - intros n B E.
    assert (isPaymentSuccessful callbackData = (n =? 1)) as ->.
    { apply eq_true_iff_eq. rewrite isPaymentSuccessful_iff, E, Z.eqb_eq.
      split; [|now intros ->]. intros N. apply Number_of_Z_inj in N; lia. }
    destruct (Z.eqb_spec n 1); [reflexivity|].
    assert (isPaymentPending callbackData = ((n =? 0) || (n =? 2))) as ->;
      [|reflexivity].
    apply eq_true_iff_eq. rewrite isPaymentPending_iff, E, orb_true_iff, !Z.eqb_eq.
    split.
    + intros [N | [N | N]].
      * left. change pos_zero with (Number_of_Z 0) in N.
        apply Number_of_Z_inj in N; lia.
      * exfalso. destruct n as [|p|p]; [discriminate N| |].
        -- rewrite Number_of_Z_exact in N by (apply digits2_pos_safe; lia).
           discriminate N.
        -- rewrite Number_of_Z_exact_neg, Number_of_Z_exact in N
             by (apply digits2_pos_safe; lia).
           discriminate N.
      * right. apply Number_of_Z_inj in N; lia.
    + intros [-> | ->]; [left; reflexivity|right; right; reflexivity].
Qed.

(** A run of the route on a callback signed with the stored password. *)
Example handler_reports_a_signed_callback :
  let config := {| projectId := js "12345"; password := js "secret";
                   testMode := true |} in
  let signed :=
    match buildRequest [(js "projectid", VString (js "12345"));
                        (js "orderid", VString (js "ORDER-001"));
                        (js "amount", VNumber (Number_of_Z 1000));
                        (js "currency", VString (js "EUR"));
                        (js "status", VNumber (Number_of_Z 1));
                        (js "requestid", VString (js "req123"))] (js "secret") with
    | Ok p => p
    | Throw _ => ([], [])
    end in
  let api := js "https://shop.example/graphql/" in
  let w := {| STOREFRONT_URL := None;
              apl_get := fun url =>
                if bool_decide (url = api) then Some {| token := js "tok" |} else None;
              fetchAppDetails := fun _ _ =>
                {| query_error := None;
                   app := Some {| privateMetadata :=
                                    Some [Config.serializePayseraConfig config] |} |};
              transactionEventReport := fun _ _ _ =>
                {| report_error := None; errors := []; alreadyProcessed := false |};
              fresh := {| unix_ts_ms := 0x0192f3a1b2c3; rand_a := 0xabc;
                          rand_b := 0x123456789abcdef0 |} |} in
  let req := {| query := fun name =>
                  if bool_decide (name = js "action") then Some (QString (js "callback"))
                  else if bool_decide (name = js "transactionId") then
                    Some (QString (js "VHJhbnM6MQ"))
                  else if bool_decide (name = js "saleorApiUrl") then
                    Some (QString (js "https%3A%2F%2Fshop.example%2Fgraphql%2F"))
                  else if bool_decide (name = js "data") then Some (QString (fst signed))
                  else if bool_decide (name = js "ss1") then
                    Some (QArray [snd signed; js "ignored"])
                  else None |} in
  handler toLowerCase_latin w req
  = ([AplGet api; FetchAppDetails api (js "tok");
      TransactionEventReport api (js "tok")
        {| id := js "VHJhbnM6MQ"; amount := Number_of_Z 10; type := ChargeSuccess;
           pspReference := js "0192f3a1-b2c3-7abc-9234-56789abcdef0";
           message := js "Payment completed successfully";
           availableActions := [Refund] |}],
     Ok (Send 200 (js "OK"))).
Proof. vm_compute. reflexivity. Qed.

(* ===================================================================== *)
(** * Properties: the webhook that opens a payment session *)
(* ===================================================================== *)

Lemma lookup_constructs metadata config :
  Config.getPayseraConfigFromMetadata metadata = Ok config ->
  new_PayseraClient config = Ok {| Client.config := config |}.
Proof.
  unfold Config.getPayseraConfigFromMetadata.
  destruct metadata as [[|i items]|]; try discriminate.
  destruct (List.find _ (i :: items)) as [entry|]; [|discriminate].
  destruct (JSON_parse (Config.value entry)) as [v|]; [|discriminate].
  destruct (Config.payseraConfigSchema v) as [c|errors] eqn:S; [|discriminate].
  intros E. injection E as ->.
  apply payseraConfigSchema_accepts in S as (members & _ & _ & _ & Np & Nw & _).
  unfold new_PayseraClient. apply truthy_true in Np, Nw. now rewrite Np, Nw.
Qed.

Lemma lookup_throws metadata e :
  Config.getPayseraConfigFromMetadata metadata = Throw e ->
  exists m, e = PayseraConfigError m.
Proof.
  unfold Config.getPayseraConfigFromMetadata.
  destruct metadata as [[|i items]|];
    try (intros E; injection E as <-; eauto).
  destruct (List.find _ (i :: items)) as [entry|];
    [|intros E; injection E as <-; eauto].
  destruct (JSON_parse (Config.value entry)) as [v|];
    [|intros E; injection E as <-; eauto].
  destruct (Config.payseraConfigSchema v) as [c|errors]; [discriminate|].
  intros E; injection E as <-; eauto.
Qed.

Lemma createPaymentRequest_throws_uri this fresh options e :
  createPaymentRequest this fresh options = Throw e -> e = URIError.
Proof.
  intros E. pose proof (createPaymentRequest_throws this fresh options) as T.
  rewrite E in T. exact T.
Qed.

Lemma encodeURIComponent_Throw s e :
  encodeURIComponent s = Throw e -> e = URIError /\ isWellFormed s = false.
Proof.
  rewrite encodeURIComponent_spec. destruct (isWellFormed s); [discriminate|].
  intros E. now injection E as <-.
Qed.

Import InitializeSession.

(** X14: what the webhook answers.  A configuration that cannot be read
    is answered with status 200 and a failure result carrying the message
    of the [PayseraConfigError] (the stock message of the handler is never
    used); a configuration that is read always makes a client; the only
    exception the handler lets through is the [URIError] of a Saleor API
    URL with an unpaired surrogate; every answer has status 200, the
    reference drawn first and the amount of the request; a payment request
    that is created is answered with [CHARGE_ACTION_REQUIRED], also for an
    authorization, with its redirect URL and its order id, and one that is
    not with a failure result and the message of the [URIError]. *)
Theorem webhook_answers
  (toLowerCase : jsstring -> jsstring) (getTransactionActions : jsstring -> list jsstring)
  (uri_error_message : jsstring)
  (env : Env) (req : Request) (ctx : Context) (fresh1 fresh2 : entropy) :
  let payload := payload ctx in
  let metadata := match recipient payload with
                  | Some r => privateMetadata r
                  | None => None
                  end in
  let r := handler toLowerCase getTransactionActions uri_error_message
             env req ctx fresh1 fresh2 in
  let failed message code :=
    Ok (200, {| pspReference := uuidv7 fresh1;
                result_ := match actionType (action payload) with
                           | Charge => js "CHARGE_FAILURE"
                           | Authorization => js "AUTHORIZATION_FAILURE"
                           end;
                message := message;
                response_amount := amount (action payload);
                actions := [];
                externalUrl := None;
                data := ErrorData code |}) in
  (forall e, Config.getPayseraConfigFromMetadata metadata = Throw e ->
             exists m, e = PayseraConfigError m
                       /\ r = failed m (js "CONFIGURATION_ERROR"))
  /\ (forall config,
        Config.getPayseraConfigFromMetadata metadata = Ok config ->
        match encodeURIComponent (saleorApiUrl ctx) with
        | Throw _ => r = Throw URIError
        | Ok encoded =>
            match createPaymentRequest {| Client.config := config |} fresh2
                    (paymentOptions toLowerCase env req ctx encoded) with
            | Ok paymentRequest =>
                r = Ok (200,
                        {| pspReference := uuidv7 fresh1;
                           result_ := js "CHARGE_ACTION_REQUIRED";
                           message := js "Redirect to Paysera to complete payment";
                           response_amount := amount (action payload);
                           actions := getTransactionActions (js "CHARGE_ACTION_REQUIRED");
                           externalUrl := Some (redirectUrl paymentRequest);
                           data := OrderData (orderId paymentRequest) |})
            | Throw _ => r = failed uri_error_message (js "PAYMENT_REQUEST_ERROR")
            end
        end)
  /\ (forall status body,
        r = Ok (status, body) ->
        status = 200 /\ pspReference body = uuidv7 fresh1
        /\ response_amount body = amount (action payload))
  /\ (forall e, r = Throw e -> e = URIError /\ isWellFormed (saleorApiUrl ctx) = false).
Proof.
  intros payload metadata r failed. subst r failed. unfold handler.
  fold payload. fold metadata. unfold failure.
  destruct (Config.getPayseraConfigFromMetadata metadata) as [config|e] eqn:G.
  - rewrite (lookup_constructs _ _ G). rewrite bind_Ok.
    destruct (encodeURIComponent (saleorApiUrl ctx)) as [encoded|e] eqn:U.
    + rewrite bind_Ok.
      destruct (createPaymentRequest _ fresh2 _) as [pr|e] eqn:C.
      * split; [discriminate|]. split.
        { intros c E. injection E as <-. rewrite C. reflexivity. }
        split; [|discriminate].
        intros st body E. injection E as <- <-. auto.
      * apply createPaymentRequest_throws_uri in C as E. subst e.
        split; [discriminate|]. split.
        { intros c E. injection E as <-. rewrite C. reflexivity. }
        split; [|discriminate].
        intros st body E. injection E as <- <-. auto.
    + apply encodeURIComponent_Throw in U as (-> & W).
      rewrite bind_Throw.
      split; [discriminate|]. split; [reflexivity|]. split; [discriminate|].
      intros e E. injection E as <-. auto.
  - destruct (lookup_throws _ _ G) as (m & ->).
    split.
    { intros e E. injection E as <-. eauto. }
    split; [discriminate|]. split; [|discriminate].
    intros st body E. injection E as <- <-. auto.
Qed.

(** The payload of a payment request, by the fields of the request. *)
Lemma payment_payload this fresh options :
  request_text this options ->
  let oid := generateOrderId fresh (transactionId options) in
  exists d m,
    createPaymentRequest this fresh options
    = Ok {| redirectUrl := getPaymentUrl d (generateSignature d (password (config this)));
            orderId := oid |}
    /\ decodeCallbackData d = Ok m
    /\ m !! js "orderid" = Some oid
    /\ (forall k s, In (k, VString s) (requestParams this oid options) ->
                    k <> [] -> k <> js "__proto__" -> m !! k = nonempty s)
    /\ (forall k x, In (k, VNumber x) (requestParams this oid options) ->
                    k <> [] -> k <> js "__proto__" ->
                    m !! k = Some (Number_toString x))
    /\ (forall k o, In (k, o) (optional_fields options) ->
                    k <> [] -> k <> js "__proto__" -> m !! k = o ≫= nonempty).
Proof.
  intros T oid.
  pose proof (requestParams_text this fresh options T) as F. fold oid in F.
  exists (toUrlSafeBase64
            (join (js "&")
               (map entry_text
                  (List.filter (fun kv => present (snd kv))
                     (requestParams this oid options))))),
         (fields_map (requestParams this oid options)).
  assert (forall k s,
             In (k, VString s) (requestParams this oid options) ->
             k <> [] -> k <> js "__proto__" ->
             fields_map (requestParams this oid options) !! k = nonempty s) as S.
  { intros k s I Hk Hp. rewrite (requestParams_lookup _ _ _ _ _ I Hk Hp).
    apply present_string. }
  split; [|split; [|split; [|split; [|split]]]].
  - unfold createPaymentRequest, buildPaymentUrl, buildRequest. fold oid.
    rewrite encodeParams_text by assumption. reflexivity.
  - now apply decodeCallbackData_encoded.
  - rewrite (S (js "orderid") oid); [|base_field|discriminate..].
    unfold nonempty. destruct (order_id_alnum fresh (transactionId options)) as (_ & NE).
    fold oid in NE. apply truthy_true in NE. now rewrite NE.
  - exact S.
  - intros k x I Hk Hp. now rewrite (requestParams_lookup _ _ _ _ _ I Hk Hp).
  - intros k o I Hk Hp. destruct o as [[|c s]|] eqn:E.
    + apply requestParams_lookup_absent. intros v.
      eapply unset_not_in_requestParams; [exact I|now right].
    + rewrite (S k (c :: s)); [reflexivity| |assumption..].
      apply in_requestParams. right. exists k, (c :: s). now repeat split.
    + apply requestParams_lookup_absent. intros v.
      eapply unset_not_in_requestParams; [exact I|now left].
Qed.

Lemma truthy_string_nonempty v : truthy_string v ≫= nonempty = truthy_string v.
Proof. destruct v as [[|c s]|]; reflexivity. Qed.

Lemma customerEmail_nonempty so : customerEmail so ≫= nonempty = customerEmail so.
Proof.
  unfold customerEmail. destruct so as [so|]; [|reflexivity].
  destruct (truthy_string (email so)) as [e|] eqn:E.
  - rewrite <- E. apply truthy_string_nonempty.
  - apply truthy_string_nonempty.
Qed.

(** X15: what the gateway is told about a session.  When the
    configuration is read, the Saleor API URL is well-formed and the
    strings of the request are strings proper, the webhook answers
    [CHARGE_ACTION_REQUIRED] with a redirect URL whose payload decodes to
    the request: the order id is the one of the answer, the project id is
    the configured one, the callback URL names the [callback] action, the
    transaction id and the percent-encoded Saleor API URL, the amount is in
    minor units, the e-mail is the one of the checkout or else of the
    order, the language is the lowercased first part of the language code,
    and the description names the merchant reference or else the
    transaction id. *)
Theorem webhook_payload_fields
  (toLowerCase : jsstring -> jsstring) (getTransactionActions : jsstring -> list jsstring)
  (uri_error_message : jsstring)
  (env : Env) (req : Request) (ctx : Context) (fresh1 fresh2 : entropy)
  (configuration : PayseraConfig) (encoded : jsstring) :
  let payload := payload ctx in
  let metadata := match recipient payload with
                  | Some r => privateMetadata r
                  | None => None
                  end in
  let options := paymentOptions toLowerCase env req ctx encoded in
  Config.getPayseraConfigFromMetadata metadata = Ok configuration ->
  encodeURIComponent (saleorApiUrl ctx) = Ok encoded ->
  request_text {| Client.config := configuration |} options ->
  exists d m body oid,
    handler toLowerCase getTransactionActions uri_error_message env req ctx fresh1 fresh2
    = Ok (200, body)
    /\ result_ body = js "CHARGE_ACTION_REQUIRED"
    /\ externalUrl body
       = Some (getPaymentUrl d (generateSignature d (password configuration)))
    /\ data body = OrderData oid
    /\ decodeCallbackData d = Ok m
    /\ m !! js "orderid" = Some oid
    /\ m !! js "projectid" = Some (projectId configuration)
    /\ encoded = percent_encode (saleorApiUrl ctx)
    /\ m !! js "callbackurl"
       = Some (getExternalApiBaseUrl env req
               ++ js "/api/paysera/callback?action=callback&transactionId="
               ++ transaction_id payload ++ js "&saleorApiUrl=" ++ encoded)
    /\ m !! js "amount"
       = Some (Number_toString (toMinorUnits (amount (action payload))))
    /\ m !! js "currency" = nonempty (currency (action payload))
    /\ m !! js "p_email" = customerEmail (sourceObject payload)
    /\ m !! js "lang" = language toLowerCase (sourceObject payload) ≫= nonempty
    /\ m !! js "paytext"
       = Some (js "Payment for order "
               ++ default (transaction_id payload)
                    (truthy_string (merchantReference payload))).
Proof.
  intros payload metadata options G U T.
  destruct (payment_payload {| Client.config := configuration |} fresh2 options T)
    as (d & m & C & D & Lo & S & N & O).
  cbn [Client.config] in *.
  exists d, m.
  eexists _, (generateOrderId fresh2 (transactionId options)).
  unfold handler. fold payload. fold metadata. rewrite G.
  rewrite (lookup_constructs _ _ G), bind_Ok, U, bind_Ok. fold options.
  rewrite C. split; [reflexivity|].
  cbn [result_ externalUrl data redirectUrl orderId].
  assert (projectId configuration <> []) as NP.
  { pose proof (lookup_constructs _ _ G) as X. unfold new_PayseraClient in X.
    destruct (truthy (projectId configuration)) eqn:P; [|discriminate X].
    now apply truthy_true. }
  repeat split; try assumption.
  - rewrite (S (js "projectid") (projectId configuration));
      [|base_field|discriminate..].
    unfold nonempty. apply truthy_true in NP. now rewrite NP.
  - rewrite encodeURIComponent_spec in U. destruct (isWellFormed _); [|discriminate].
    now injection U as <-.
  - rewrite (S (js "callbackurl") (callbackUrl (urls options)));
      [|base_field|discriminate..].
    unfold options, paymentOptions. cbn [urls callbackUrl]. unfold callbackUrlFor.
    fold payload.
    unfold nonempty.
    destruct (getExternalApiBaseUrl env req); reflexivity.
  - apply N; [base_field|discriminate..].
  - apply (S (js "currency") (currency (action payload))); [base_field|discriminate..].
  - rewrite (O (js "p_email") (Client.customerEmail options));
      [|cbn [optional_fields In]; auto 6|discriminate..].
    apply customerEmail_nonempty.
  - apply (O (js "lang") (Client.language options));
      [cbn [optional_fields In]; auto 6|discriminate..].
  - rewrite (O (js "paytext") (paymentDescription options));
      [|cbn [optional_fields In]; auto 6|discriminate..].
    reflexivity.
Qed.

Lemma webhook_payload_fields_witness :
  let configuration := {| projectId := js "12345"; password := js "secret";
                          testMode := true |} in
  let env := {| APP_API_BASE_URL := None; NODE_ENV := Some (js "production") |} in
  let req := {| host := Some (js "app.example.com") |} in
  let ctx :=
    {| saleorApiUrl := js "https://shop.example/graphql/";
       payload :=
         {| action := {| actionType := Authorization; amount := ten_and_a_half;
                         currency := js "EUR" |};
            recipient := Some {| privateMetadata :=
                                   Some [Config.serializePayseraConfig configuration] |};
            transaction_id := js "VHJhbnM6MQ==";
            sourceObject := Some {| email := None;
                                    userEmail := Some (js "test@example.com");
                                    billingAddress := Some {| firstName := js "John";
                                                              lastName := [] |};
                                    languageCode := Some (js "EN_US") |};
            merchantReference := None |} |} in
  let fresh1 := {| unix_ts_ms := 1; rand_a := 2; rand_b := 3 |} in
  let fresh2 := {| unix_ts_ms := 0x0192f3a1b2c3; rand_a := 0xabc;
                   rand_b := 0x123456789abcdef0 |} in
  exists d m body,
    handler toLowerCase_latin (fun _ => [js "CHARGE"]) (js "URI malformed")
            env req ctx fresh1 fresh2 = Ok (200, body)
    /\ result_ body = js "CHARGE_ACTION_REQUIRED"
    /\ data body = OrderData (js "VHJhbnM60192f3a1b2c37abc92345678")
    /\ decodeCallbackData d = Ok m
    /\ m !! js "orderid" = Some (js "VHJhbnM60192f3a1b2c37abc92345678")
    /\ m !! js "callbackurl"
       = Some (js "https://app.example.com/api/paysera/callback?action=callback&transactionId=VHJhbnM6MQ==&saleorApiUrl=https%3A%2F%2Fshop.example%2Fgraphql%2F")
    /\ m !! js "amount" = Some (js "1050")
    /\ m !! js "p_email" = Some (js "test@example.com")
    /\ m !! js "lang" = Some (js "en")
    /\ m !! js "paytext" = Some (js "Payment for order VHJhbnM6MQ==").
Proof.
  intros configuration env req ctx fresh1 fresh2.
  destruct (webhook_payload_fields toLowerCase_latin (fun _ => [js "CHARGE"])
              (js "URI malformed") env req ctx fresh1 fresh2 configuration
              (js "https%3A%2F%2Fshop.example%2Fgraphql%2F"))
    as (d & m & body & oid & H & R & _ & Da & De & Lo & _ & _ & Lc & La & _ & Le & Ll & Lp).
  - vm_compute. reflexivity.
  - vm_compute. reflexivity.
  - repeat split; try reflexivity.
    repeat (constructor; [cbn [snd]; try exact I; split; reflexivity|]). constructor.
  - exists d, m, body.
    assert (oid = js "VHJhbnM60192f3a1b2c37abc92345678") as ->.
    { vm_compute in H. injection H as <-. cbn [data] in Da. now injection Da as <-. }
    rewrite Lc, La, Le, Ll, Lp. repeat split; assumption.
Defined.

(* ===================================================================== *)
(** * Properties: the letter case of a signature *)
(* ===================================================================== *)

Lemma hex_lower_latin c :
  is_hex_lower c = true ->
  is_ascii c /\ between (code "A") (code "Z") c = false.
Proof.
  unfold is_hex_lower, is_digit, is_ascii. intros H.
  apply orb_true_iff in H as [H | H]; apply between_spec in H;
    revert H; codes; intros H; (split; [lia|apply between_false; lia]).
Qed.

Lemma toLowerCase_latin_hex s :
  Forall (fun c => is_hex_lower c = true) s -> toLowerCase_latin s = s.
Proof.
  unfold toLowerCase_latin. induction 1 as [|c s Hc _ IH]; [reflexivity|].
  cbn [map]. apply hex_lower_latin in Hc as (_ & ->). now rewrite IH.
Qed.

Lemma lower_upper_hex s :
  Forall (fun c => is_hex_lower c = true) s ->
  toLowerCase_latin (toUpperCase_latin s) = s
  /\ Forall is_ascii (toUpperCase_latin s).
Proof.
  unfold toLowerCase_latin, toUpperCase_latin.
  induction 1 as [|c s Hc _ (IH1 & IH2)]; [split; [reflexivity|constructor]|].
  cbn [map]. rewrite IH1. split; [f_equal|constructor; [|assumption]].
  - unfold is_hex_lower, is_digit in Hc.
    apply orb_true_iff in Hc as [H | H]; apply between_spec in H; revert H;
      unfold between; codes; intros H.
    + replace ((97 <=? c) && (c <=? 122)) with false by lia.
      replace ((65 <=? c) && (c <=? 90)) with false by lia. reflexivity.
    + replace ((97 <=? c) && (c <=? 122)) with true by lia.
      replace ((65 <=? c - 32) && (c - 32 <=? 90)) with true by lia. lia.
  - apply hex_lower_latin in Hc as (Hc & _). unfold is_ascii in *.
    destruct (between _ _ c) eqn:B; [|assumption].
    apply between_spec in B. revert B. codes. lia.
Qed.

(** X16: the letter case of a signature.  Let [toLowerCase] act on Basic
    Latin strings as it does, mapping [A-Z] to [a-z].  Then a Basic Latin
    signature is accepted by [verifySignature] exactly when its lowercase
    form is the MD5 digest of the data and the password in hexadecimal; in
    particular the digest written in capitals is accepted. *)
Theorem verifySignature_ignores_case
  (toLowerCase : jsstring -> jsstring) (data ss1 password : jsstring) :
  (forall s, Forall is_ascii s -> toLowerCase s = toLowerCase_latin s) ->
  Forall is_ascii ss1 ->
  (verifySignature toLowerCase data ss1 password = true
   <-> toLowerCase_latin ss1 = generateSignature data password)
  /\ verifySignature toLowerCase data
       (toUpperCase_latin (generateSignature data password)) password = true.
Proof.
  intros L A.
  pose proof (generateSignature_hex data password) as X.
  assert (Forall is_ascii (generateSignature data password)) as XA.
  { eapply Forall_impl; [exact X|]. intros c Hc. now apply hex_lower_latin in Hc. }
  destruct (lower_upper_hex _ X) as (LU & UA).
  unfold verifySignature, str_eqb. split.
  - rewrite (L _ XA), (L _ A), (toLowerCase_latin_hex _ X).
    rewrite bool_decide_eq_true. split; congruence.
  - rewrite (L _ XA), (L _ UA), (toLowerCase_latin_hex _ X), LU.
    now apply bool_decide_eq_true.
Qed.

Lemma verifySignature_ignores_case_witness :
  verifySignature toLowerCase_latin (js "dGVzdA==")
    (js "D69DE0E4112F9F7D86227427ECA09C4E") (js "secret") = true.
Proof.
  destruct (verifySignature_ignores_case toLowerCase_latin (js "dGVzdA==")
              (js "D69DE0E4112F9F7D86227427ECA09C4E") (js "secret"))
    as (H & _).
  - reflexivity.
  - literal.
  - apply H. vm_compute. reflexivity.
Defined.

(* ===================================================================== *)
(** * Properties: what of a callback is read *)
(* ===================================================================== *)

Lemma check_required_agree (fields : list jsstring) (m1 m2 : gmap jsstring jsstring) :
  (forall k, In k fields -> m1 !! k = m2 !! k) ->
  check_required fields m1 = check_required fields m2.
Proof.
  induction fields as [|f fields IH]; intros H; [reflexivity|].
  cbn [check_required]. rewrite (H f) by now left.
  rewrite IH by (intros k I; apply H; now right). reflexivity.
Qed.

(** X17: what of a callback is read.  [parseCallbackData] depends on the
    six required and the six optional fields it names and on nothing else:
    two mappings that agree on these twelve keys give the same result, be
    it the data or the error.  So a further field of a callback, such as
    the amount actually paid that the gateway sends as [payamount], never
    reaches the result. *)
Theorem parseCallbackData_reads_named_fields (m1 m2 : gmap jsstring jsstring) :
  (forall k, In k callback_keys -> m1 !! k = m2 !! k) ->
  parseCallbackData m1 = parseCallbackData m2.
Proof.
  intros H. unfold parseCallbackData.
  rewrite (check_required_agree required m1 m2)
    by (intros k I; apply H; unfold callback_keys; apply in_or_app; now left).
  rewrite !lookup_total_alt.
  assert (forall k, In k callback_keys -> m1 !! k = m2 !! k) as H' by exact H.
  unfold callback_keys, required in H'. cbn [List.app In] in H'.
  rewrite !(H' (js "amount")), !(H' (js "status")), !(H' (js "projectid")),
    !(H' (js "orderid")), !(H' (js "currency")), !(H' (js "requestid")),
    !(H' (js "paytext")), !(H' (js "name")), !(H' (js "surename")),
    !(H' (js "payment")), !(H' (js "country")), !(H' (js "test")) by auto 20.
  reflexivity.
Qed.

Lemma parseCallbackData_reads_named_fields_witness :
  let complete : gmap jsstring jsstring :=
    <[js "projectid" := js "12345"]> (<[js "orderid" := js "ORDER-001"]>
      (<[js "amount" := js "1000"]> (<[js "currency" := js "EUR"]>
        (<[js "status" := js "1"]> (<[js "requestid" := js "req123"]> ∅))))) in
  parseCallbackData (<[js "payamount" := js "1"]> complete)
  = parseCallbackData complete.
Proof.
  intros complete.
  apply (parseCallbackData_reads_named_fields
           (<[js "payamount" := js "1"]> complete) complete).
  intros k I. apply lookup_insert_ne. intros <-.
  unfold callback_keys, required in I. cbn [List.app In] in I.
  repeat (destruct I as [I | I]; [discriminate I|]). exact I.
Defined.

(* ===================================================================== *)
(** * Properties: the keys a payload can set *)
(* ===================================================================== *)

Lemma utf16_encode_cp_nonempty cp : utf16_encode_cp cp <> [].
Proof. unfold utf16_encode_cp. destruct (_ <? _); discriminate. Qed.

Lemma decode_loop_nonempty n :
  forall s st u,
    (length s <= n)%nat -> s <> [] \/ st <> None ->
    decode_loop st s = Ok u -> u <> [].
Proof.
  induction n as [|n IH]; intros s st u L N.
  - destruct s; [|cbn [length] in L; lia].
    destruct N as [N | N]; [contradiction|].
    destruct st; [discriminate|contradiction].
  - destruct s as [|c s].
    { destruct N as [N | N]; [contradiction|].
      destruct st; [discriminate|contradiction]. }
    cbn [length] in L. cbn [decode_loop]. destruct (c =? code "%").
    + destruct s as [|h1 [|h2 rest]]; try discriminate.
      cbn [length] in L.
      destruct (hex_value h1), (hex_value h2); try discriminate.
      destruct st as [[octs k]|].
      * destruct k as [|[|k]].
        -- destruct (utf8_code_point _); [|discriminate].
           destruct (decode_loop None rest); [|discriminate].
           intros E. injection E as <-. intros X. apply app_eq_nil in X as (X & _).
           now apply utf16_encode_cp_nonempty in X.
        -- destruct (utf8_code_point _); [|discriminate].
           destruct (decode_loop None rest); [|discriminate].
           intros E. injection E as <-. intros X. apply app_eq_nil in X as (X & _).
           now apply utf16_encode_cp_nonempty in X.
        -- apply IH; [lia|now right].
      * destruct (sequence_length _) as [[|[|k]]|]; try discriminate.
        -- destruct (decode_loop None rest); [|discriminate].
           intros E. injection E as <-. discriminate.
        -- apply IH; [lia|now right].
    + destruct st; [discriminate|].
      destruct (decode_loop None s); [|discriminate].
      intros E. injection E as <-. discriminate.
Qed.

Lemma decodeURIComponent_nonempty s u :
  s <> [] -> decodeURIComponent s = Ok u -> u <> [].
Proof.
  intros N. apply (decode_loop_nonempty (length s)); [lia|now left].
Qed.

Lemma parsePair_keys m p m' :
  m !! [] = None -> m !! js "__proto__" = None ->
  parsePair m p = Ok m' ->
  m' !! [] = None /\ m' !! js "__proto__" = None.
Proof.
  intros E P. unfold parsePair.
  destruct (truthy (hd [] (split (code "=") p))) eqn:T;
    [|intros X; injection X as <-; auto].
  apply truthy_true in T.
  destruct (decodeURIComponent (hd [] (split (code "=") p))) as [k|] eqn:K;
    [|discriminate].
  apply decodeURIComponent_nonempty in K; [|assumption].
  rewrite bind_Ok.
  destruct (match split (code "=") p !! 1%nat with
            | Some v => _
            | None => _
            end) as [v|]; [|discriminate].
  rewrite bind_Ok. intros X. injection X as <-.
  unfold set_property. case_bool_decide; [auto|].
  rewrite !lookup_insert_ne by congruence. auto.
Qed.

Lemma forEach_pairs_keys pairs :
  forall m m',
    m !! [] = None -> m !! js "__proto__" = None ->
    forEach_pairs m pairs = Ok m' ->
    m' !! [] = None /\ m' !! js "__proto__" = None.
Proof.
  induction pairs as [|p pairs IH]; intros m m' E P.
  - intros X. injection X as <-. auto.
  - cbn [forEach_pairs]. destruct (parsePair m p) as [m1|] eqn:Q; [|discriminate].
    rewrite bind_Ok. destruct (parsePair_keys _ _ _ E P Q) as (E1 & P1).
    now apply IH.
Qed.

(** X18: the keys a payload can set.  Whatever the payload is, the mapping
    [decodeCallbackData] returns has no property of empty name and no own
    property [__proto__]: a pair with an empty key is skipped, a key read
    from a percent-encoding is never empty, and an assignment to
    [__proto__] creates no property.  The only exception it throws is
    [URIError]. *)
Theorem decodeCallbackData_keys (data : jsstring) :
  throws_only uri_error (decodeCallbackData data)
  /\ (forall m, decodeCallbackData data = Ok m ->
                m !! [] = None /\ m !! js "__proto__" = None).
Proof.
  split; [apply decodeCallbackData_throws|].
  intros m. unfold decodeCallbackData, parseQueryString.
  apply forEach_pairs_keys; apply lookup_empty.
Qed.

(* ===================================================================== *)
(** * The JSON reader does not depend on its fuel *)
(* ===================================================================== *)

Lemma skip_ws_length s : (length (skip_ws s) <= length s)%nat.
Proof.
  induction s as [|c s IH]; cbn [skip_ws length]; [lia|].
  destruct (is_ws c); cbn [length]; lia.
Qed.

Lemma skip_ws_cons s c r : skip_ws s = c :: r -> (length r < length s)%nat.
Proof.
  intros E. pose proof (skip_ws_length s) as L. rewrite E in L.
  cbn [length] in L. lia.
Qed.

Lemma parse_chars_shorter s :
  forall str rest, parse_chars s = Some (str, rest) -> (length rest < length s)%nat.
Proof.
  induction s as [s IH] using (induction_ltof1 _ (@length Z)). unfold ltof in IH.
  intros str rest. destruct s as [|c s]; [discriminate|].
  cbn [parse_chars length]. destruct (c =? quotation_mark).
  { intros E. injection E as _ <-. lia. }
  destruct (c =? reverse_solidus).
  - destruct s as [|e s]; [discriminate|]. cbn [length]. destruct (e =? code "u").
    + destruct s as [|h1 [|h2 [|h3 [|h4 s]]]]; try discriminate. cbn [length].
      destruct (hex_value h1), (hex_value h2), (hex_value h3), (hex_value h4);
        try discriminate.
      destruct (parse_chars s) as [[r rest']|] eqn:P; [|discriminate].
      intros E. injection E as _ <-.
      apply IH in P; [lia|cbn [length]; lia].
    + destruct (escape_char e); [|discriminate].
      destruct (parse_chars s) as [[r rest']|] eqn:P; [|discriminate].
      intros E. injection E as _ <-.
      apply IH in P; [lia|cbn [length]; lia].
  - destruct (c <? 0x20); [discriminate|].
    destruct (parse_chars s) as [[r rest']|] eqn:P; [|discriminate].
    intros E. injection E as _ <-.
    apply IH in P; [lia|cbn [length]; lia].
Qed.

Lemma digits_run_length s : (length (snd (digits_run s)) <= length s)%nat.
Proof.
  induction s as [|c s IH]; cbn [digits_run length snd]; [lia|].
  destruct (is_digit c); [|cbn [snd length]; lia].
  destruct (digits_run s) as [ds rest]. cbn [snd] in *. lia.
Qed.

Lemma after_word_length w :
  forall s rest, after_word w s = Some rest -> (length rest <= length s)%nat.
Proof.
  induction w as [|a w IH]; intros s rest; cbn [after_word].
  - intros E. injection E as <-. lia.
  - destruct s as [|c s]; [discriminate|]. destruct (c =? a); [|discriminate].
    intros E. apply IH in E. cbn [length]. lia.
Qed.

Lemma parse_number_shorter s lit rest :
  parse_number s = Some (lit, rest) -> (length rest < length s)%nat.
Proof.
  unfold parse_number.
  destruct (match s with
            | [] => ([], [])
            | c :: r => if c =? code "-" then ([c], r) else ([], s)
            end) as [sign s1] eqn:S.
  assert (length s1 <= length s)%nat as L1.
  { destruct s as [|c r]; [injection S as _ <-; lia|].
    destruct (c =? code "-"); injection S as _ <-; cbn [length]; lia. }
  destruct s1 as [|c r]; [discriminate|]. cbn [length] in L1.
  destruct (is_digit c) eqn:Dc; [|discriminate].
  destruct (if c =? code "0" then ([c], r) else digits_run (c :: r)) as [int s2] eqn:I.
  assert (length s2 <= length r)%nat as L2.
  { destruct (c =? code "0"); [injection I as _ <-; lia|].
    cbn [digits_run] in I. rewrite Dc in I.
    destruct (digits_run r) as [ds rest'] eqn:R. injection I as _ <-.
    pose proof (digits_run_length r) as Y. rewrite R in Y. exact Y. }
  destruct (match s2 with
            | [] => Some ([], [])
            | p :: r2 => _
            end) as [[fr s3]|] eqn:F; [|discriminate].
  assert (length s3 <= length s2)%nat as L3.
  { destruct s2 as [|p r2]; [injection F as _ <-; lia|].
    destruct (p =? code "."); [|injection F as _ <-; lia].
    pose proof (digits_run_length r2) as X.
    destruct (digits_run r2) as [[|d ds] s3']; [discriminate|].
    injection F as _ <-. cbn [snd length] in *. lia. }
  destruct (match s3 with
            | [] => Some ([], [])
            | e :: r3 => _
            end) as [[ex s4]|] eqn:E; [|discriminate].
  assert (length s4 <= length s3)%nat as L4.
  { destruct s3 as [|e r3]; [injection E as _ <-; lia|].
    destruct ((e =? code "e") || (e =? code "E")); [|injection E as _ <-; lia].
    destruct (match r3 with
              | [] => ([], [])
              | g :: r4 => _
              end) as [sg r4] eqn:G.
    assert (length r4 <= length r3)%nat as L5.
    { destruct r3 as [|g r4']; [injection G as _ <-; lia|].
      destruct ((g =? code "+") || (g =? code "-")); injection G as _ <-;
        cbn [length]; lia. }
    pose proof (digits_run_length r4) as X.
    destruct (digits_run r4) as [[|d ds] s4']; [discriminate|].
    injection E as _ <-. cbn [snd length] in *. lia. }
  intros X. injection X as _ <-. lia.
Qed.

(** A value that is read with some fuel is read, to the same effect, with
    any fuel that is at least the number of characters read. *)
Lemma parse_fuel f :
  (forall s v rest,
      parse_value f s = Some (v, rest) ->
      (length rest < length s)%nat
      /\ forall f', (length s - length rest <= f')%nat ->
                    parse_value f' s = Some (v, rest))
  /\ (forall s ms rest,
        parse_members f s = Some (ms, rest) ->
        (length rest < length s)%nat
        /\ forall f', (length s - length rest <= f')%nat ->
                      parse_members f' s = Some (ms, rest))
  /\ (forall s vs rest,
        parse_elements f s = Some (vs, rest) ->
        (length rest < length s)%nat
        /\ forall f', (length s - length rest <= f')%nat ->
                      parse_elements f' s = Some (vs, rest)).
Proof.
  induction f as [|g (IHv & IHm & IHe)]; [repeat split; discriminate|].
  split; [|split].
  - intros s v rest H. cbn [parse_value] in H.
    destruct (skip_ws s) as [|c r] eqn:W; [discriminate|].
    pose proof (skip_ws_cons _ _ _ W) as LW.
    destruct (c =? quotation_mark) eqn:C1.
    { destruct (parse_chars r) as [[str rest0]|] eqn:P; [|discriminate].
      injection H as <- <-. pose proof (parse_chars_shorter _ _ _ P).
      split; [lia|]. intros [|g'] Hf; [lia|].
      cbn [parse_value]. now rewrite W, C1, P. }
    destruct (c =? code "{") eqn:C2.
    { destruct (skip_ws r) as [|d r'] eqn:W2; [discriminate|].
      pose proof (skip_ws_cons _ _ _ W2). destruct (d =? code "}") eqn:D.
      - injection H as <- <-. split; [lia|]. intros [|g'] Hf; [lia|].
        cbn [parse_value]. now rewrite W, C1, C2, W2, D.
      - destruct (parse_members g (d :: r')) as [[ms rest0]|] eqn:M; [|discriminate].
        injection H as <- <-. destruct (IHm _ _ _ M) as (L & K).
        cbn [length] in L. split; [lia|]. intros [|g'] Hf; [lia|].
        cbn [parse_value]. rewrite W, C1, C2, W2, D.
        rewrite K; [reflexivity|cbn [length]; lia]. }
    destruct (c =? code "[") eqn:C3.
    { destruct (skip_ws r) as [|d r'] eqn:W2; [discriminate|].
      pose proof (skip_ws_cons _ _ _ W2). destruct (d =? code "]") eqn:D.
      - injection H as <- <-. split; [lia|]. intros [|g'] Hf; [lia|].
        cbn [parse_value]. now rewrite W, C1, C2, C3, W2, D.
      - destruct (parse_elements g (d :: r')) as [[vs rest0]|] eqn:M; [|discriminate].
        injection H as <- <-. destruct (IHe _ _ _ M) as (L & K).
        cbn [length] in L. split; [lia|]. intros [|g'] Hf; [lia|].
        cbn [parse_value]. rewrite W, C1, C2, C3, W2, D.
        rewrite K; [reflexivity|cbn [length]; lia]. }
    destruct (c =? code "t") eqn:C4.
    { destruct (after_word (js "rue") r) as [rest0|] eqn:A; [|discriminate].
      injection H as <- <-. pose proof (after_word_length _ _ _ A).
      split; [lia|]. intros [|g'] Hf; [lia|].
      cbn [parse_value]. now rewrite W, C1, C2, C3, C4, A. }
    destruct (c =? code "f") eqn:C5.
    { destruct (after_word (js "alse") r) as [rest0|] eqn:A; [|discriminate].
      injection H as <- <-. pose proof (after_word_length _ _ _ A).
      split; [lia|]. intros [|g'] Hf; [lia|].
      cbn [parse_value]. now rewrite W, C1, C2, C3, C4, C5, A. }
    destruct (c =? code "n") eqn:C6.
    { destruct (after_word (js "ull") r) as [rest0|] eqn:A; [|discriminate].
      injection H as <- <-. pose proof (after_word_length _ _ _ A).
      split; [lia|]. intros [|g'] Hf; [lia|].
      cbn [parse_value]. now rewrite W, C1, C2, C3, C4, C5, C6, A. }
    destruct (parse_number (c :: r)) as [[lit rest0]|] eqn:N; [|discriminate].
    injection H as <- <-. pose proof (parse_number_shorter _ _ _ N) as LN.
    cbn [length] in LN. split; [lia|]. intros [|g'] Hf; [lia|].
    cbn [parse_value]. now rewrite W, C1, C2, C3, C4, C5, C6, N.
  - intros s ms rest H. cbn [parse_members] in H.
    destruct (skip_ws s) as [|c r] eqn:W; [discriminate|].
    pose proof (skip_ws_cons _ _ _ W) as LW.
    destruct (c =? quotation_mark) eqn:C1; [|discriminate].
    destruct (parse_chars r) as [[key s1]|] eqn:P; [|discriminate].
    pose proof (parse_chars_shorter _ _ _ P).
    destruct (skip_ws s1) as [|colon s2] eqn:W1; [discriminate|].
    pose proof (skip_ws_cons _ _ _ W1).
    destruct (colon =? code ":") eqn:C2; [|discriminate].
    destruct (parse_value g s2) as [[v s3]|] eqn:V; [|discriminate].
    destruct (IHv _ _ _ V) as (LV & KV).
    destruct (skip_ws s3) as [|d s4] eqn:W3; [discriminate|].
    pose proof (skip_ws_cons _ _ _ W3).
    destruct (d =? code "}") eqn:D1.
    { injection H as <- <-. split; [lia|]. intros [|g'] Hf; [lia|].
      cbn [parse_members]. rewrite W, C1, P, W1, C2.
      rewrite KV by lia. now rewrite W3, D1. }
    destruct (d =? code ",") eqn:D2; [|discriminate].
    destruct (parse_members g s4) as [[ms0 rest0]|] eqn:M; [|discriminate].
    injection H as <- <-. destruct (IHm _ _ _ M) as (LM & KM).
    split; [lia|]. intros [|g'] Hf; [lia|].
    cbn [parse_members]. rewrite W, C1, P, W1, C2.
    rewrite KV by lia. rewrite W3, D1, D2. now rewrite KM by lia.
  - intros s vs rest H. cbn [parse_elements] in H.
    destruct (parse_value g s) as [[v s1]|] eqn:V; [|discriminate].
    destruct (IHv _ _ _ V) as (LV & KV).
    destruct (skip_ws s1) as [|d s2] eqn:W; [discriminate|].
    pose proof (skip_ws_cons _ _ _ W).
    destruct (d =? code "]") eqn:D1.
    { injection H as <- <-. split; [lia|]. intros [|g'] Hf; [lia|].
      cbn [parse_elements]. rewrite KV by lia. now rewrite W, D1. }
    destruct (d =? code ",") eqn:D2; [|discriminate].
    destruct (parse_elements g s2) as [[vs0 rest0]|] eqn:M; [|discriminate].
    injection H as <- <-. destruct (IHe _ _ _ M) as (LM & KM).
    split; [lia|]. intros [|g'] Hf; [lia|].
    cbn [parse_elements]. rewrite KV by lia. rewrite W, D1, D2.
    now rewrite KM by lia.
Qed.

(** The fuel [JSON_parse] gives is enough: what any fuel reads, it reads. *)
Lemma JSON_parse_fuel fuel text v rest :
  parse_value fuel text = Some (v, rest) ->
  parse_value (S (length text)) text = Some (v, rest).
Proof.
  intros H. destruct (parse_fuel fuel) as (Hv & _).
  destruct (Hv _ _ _ H) as (_ & K). apply K. lia.
Qed.

(* ===================================================================== *)
(** * Properties: saving and showing the configuration *)
(* ===================================================================== *)

Import ConfigurationRouter.

(** An entry written for a valid configuration is read back, wherever it
    stands among entries of other keys. *)
Lemma written_config_reads_back config before after :
  code_units (Types.projectId config) = true ->
  code_units (Types.password config) = true ->
  Types.projectId config <> [] -> Types.password config <> [] ->
  Forall (fun i => Config.key i <> Config.PAYSERA_CONFIG_KEY) before ->
  Config.getPayseraConfigFromMetadata
    (Some (before ++ Config.serializePayseraConfig config :: after))
  = Ok config.
Proof.
  intros Hp Hw Np Nw F. unfold Config.getPayseraConfigFromMetadata.
  rewrite (find_config_entry before _ after F) by reflexivity.
  change (Config.value (Config.serializePayseraConfig config))
    with (Config.JSON_stringify config).
  rewrite JSON_parse_stringify by assumption.
  unfold Config.payseraConfigSchema. cbn [get].
  repeat case_bool_decide; try discriminate; try congruence.
  destruct config as [p w t]. cbn [Types.projectId Types.password Types.testMode] in *.
  destruct p as [|c p]; [contradiction|]. destruct w as [|d w]; [contradiction|].
  unfold string_min_1.
  repeat match goal with
    | |- context [Z.of_nat (length (?x :: ?l)) <? 1] =>
        destruct (Z.ltb_spec (Z.of_nat (length (x :: l))) 1) as [L|_];
        [cbn [length] in L; lia|]
    end.
  destruct before; reflexivity.
Qed.

(** The operations [saveConfig] sends: nothing when the input is refused,
    the query alone when the application is not known, and the query and
    one update otherwise. *)
Lemma saveConfig_calls ctx rawInput :
  match saveConfig_input rawInput with
  | inr _ => fst (saveConfig ctx rawInput) = []
  | inl config =>
      match query_error (fetchAppDetails ctx),
            ConfigurationRouter.app (fetchAppDetails ctx) ≫= ConfigurationRouter.id with
      | None, Some (c :: appId) =>
          fst (saveConfig ctx rawInput)
          = [FetchAppDetails;
             UpdateAppPrivateMetadata (c :: appId)
               [Config.serializePayseraConfig config]]
      | _, _ => fst (saveConfig ctx rawInput) = [FetchAppDetails]
      end
  end.
Proof.
  unfold saveConfig. destruct (saveConfig_input rawInput) as [config|]; [|reflexivity].
  destruct (query_error (fetchAppDetails ctx)); [reflexivity|].
  destruct (ConfigurationRouter.app (fetchAppDetails ctx) ≫= ConfigurationRouter.id)
    as [[|c appId]|]; try reflexivity.
  destruct config as [p w t]. cbn [Types.projectId Types.password Types.testMode].
  destruct (update_error _); [reflexivity|].
  destruct (ConfigurationRouter.errors _) as [[|e es]|]; reflexivity.
Qed.

(** X19: what [saveConfig] writes.  Whatever the client answers and
    whatever [saveConfig] replies, an update it sends is its only one, comes
    after the query, goes to a non-empty application id and carries one
    entry: the serialized input as the schema parsed it, with a project id
    and a password that are not empty.  Read with
    [getPayseraConfigFromMetadata], the entry gives that configuration
    back, so [saveConfig] never stores a configuration that cannot be
    read. *)
Theorem saveConfig_writes_valid_config
  (ctx : ApiClient) (rawInput : json) (appId : jsstring)
  (input : list Config.MetadataItem) :
  In (UpdateAppPrivateMetadata appId input) (fst (saveConfig ctx rawInput)) ->
  exists config,
    saveConfig_input rawInput = inl config
    /\ fst (saveConfig ctx rawInput)
       = [FetchAppDetails; UpdateAppPrivateMetadata appId input]
    /\ appId <> []
    /\ input = [Config.serializePayseraConfig config]
    /\ Types.projectId config <> [] /\ Types.password config <> []
    /\ (code_units (Types.projectId config) = true ->
        code_units (Types.password config) = true ->
        Config.getPayseraConfigFromMetadata (Some input) = Ok config).
Proof.
  intros I. pose proof (saveConfig_calls ctx rawInput) as C.
  destruct (saveConfig_input rawInput) as [config|] eqn:S;
    [|rewrite C in I; destruct I].
  apply payseraConfigSchema_accepts in S as (members & _ & _ & _ & Np & Nw & _).
  destruct (query_error (fetchAppDetails ctx));
    [rewrite C in I; destruct I as [I|[]]; discriminate|].
  destruct (ConfigurationRouter.app (fetchAppDetails ctx) ≫= ConfigurationRouter.id)
    as [[|c a]|];
    try (rewrite C in I; destruct I as [I|[]]; discriminate).
  rewrite C in I |- *. destruct I as [I|[I|[]]]; [discriminate|].
  injection I as <- <-. exists config.
  repeat split; try assumption; try discriminate.
  intros Hp Hw. now apply (written_config_reads_back config [] []).
Qed.

Lemma saveConfig_writes_valid_config_witness :
  let ctx := {| fetchAppDetails :=
                  {| query_error := None;
                     ConfigurationRouter.app :=
                       Some {| ConfigurationRouter.id := Some (js "QXBwOjE=");
                               ConfigurationRouter.privateMetadata := Some [] |} |};
                updateAppPrivateMetadata := fun _ _ =>
                  {| update_error := Some (js "[Network] timeout");
                     ConfigurationRouter.errors := None |} |} in
  let rawInput := JObject [(js "projectId", JString (js "12345"));
                           (js "password", JString (js "se cret"));
                           (js "extra", JNull)] in
  let config := {| Types.projectId := js "12345"; Types.password := js "se cret";
                   Types.testMode := true |} in
  saveConfig ctx rawInput
  = ([FetchAppDetails;
      UpdateAppPrivateMetadata (js "QXBwOjE=") [Config.serializePayseraConfig config]],
     Rejected (INTERNAL_SERVER_ERROR (js "Failed to save configuration")
                 (Some (js "[Network] timeout"))))
  /\ exists config',
      saveConfig_input rawInput = inl config'
      /\ Config.getPayseraConfigFromMetadata
           (Some [Config.serializePayseraConfig config]) = Ok config'.
Proof.
  intros ctx rawInput config. split; [vm_compute; reflexivity|].
  destruct (saveConfig_writes_valid_config ctx rawInput (js "QXBwOjE=")
              [Config.serializePayseraConfig config])
    as (config' & S & _ & _ & _ & _ & _ & R).
  { vm_compute. right. left. reflexivity. }
  exists config'. split; [exact S|].
  apply R; vm_compute in S; injection S as <-; reflexivity.
Defined.

(** A reply of success comes with the update sent. *)
Lemma saveConfig_success ctx rawInput calls r :
  saveConfig ctx rawInput = (calls, Return r) ->
  r = {| success := true |}
  /\ exists config appId,
      saveConfig_input rawInput = inl config
      /\ appId <> []
      /\ calls = [FetchAppDetails;
                  UpdateAppPrivateMetadata appId
                    [Config.serializePayseraConfig config]]
      /\ update_error (updateAppPrivateMetadata ctx appId
                         [Config.serializePayseraConfig config]) = None.
Proof.
  unfold saveConfig. destruct (saveConfig_input rawInput) as [config|]; [|discriminate].
  destruct (query_error (fetchAppDetails ctx)); [discriminate|].
  destruct (ConfigurationRouter.app (fetchAppDetails ctx) ≫= ConfigurationRouter.id)
    as [[|c appId]|]; try discriminate.
  destruct config as [p w t]. cbn [Types.projectId Types.password Types.testMode].
  destruct (update_error _) eqn:U; [discriminate|].
  destruct (ConfigurationRouter.errors _) as [[|e es]|]; try discriminate;
    intros E; injection E as <- <-; (split; [reflexivity|]);
    eexists _, (c :: appId); repeat split; try discriminate; exact U.
Qed.

(** X20: a saved configuration is shown.  When [saveConfig] replies with
    success, it has sent one update with the serialized input; and for
    every later state of the application whose private metadata holds this
    entry as the first of key [paysera_config], [getConfig] sends the one
    query and answers with the project id and the test mode of the saved
    input and [isConfigured] true.  Strings are taken as sequences of
    16-bit code units. *)
Theorem getConfig_shows_saved_config
  (ctx : ApiClient) (rawInput : json) (calls : list Call) (r : SaveResult) :
  saveConfig ctx rawInput = (calls, Return r) ->
  exists config appId,
    saveConfig_input rawInput = inl config
    /\ calls = [FetchAppDetails;
                UpdateAppPrivateMetadata appId [Config.serializePayseraConfig config]]
    /\ forall ctx' a before after,
        code_units (Types.projectId config) = true ->
        code_units (Types.password config) = true ->
        query_error (fetchAppDetails ctx') = None ->
        ConfigurationRouter.app (fetchAppDetails ctx') = Some a ->
        ConfigurationRouter.privateMetadata a
        = Some (before ++ Config.serializePayseraConfig config :: after) ->
        Forall (fun i => Config.key i <> js "paysera_config") before ->
        getConfig ctx'
        = ([FetchAppDetails],
           Return {| projectId := Types.projectId config;
                     testMode := Types.testMode config;
                     isConfigured := true |}).
Proof.
  intros E. apply saveConfig_success in E as (_ & config & appId & S & _ & -> & _).
  exists config, appId. split; [exact S|]. split; [reflexivity|].
  intros ctx' a before after Hp Hw Q A M F.
  apply payseraConfigSchema_accepts in S as (members & _ & _ & _ & Np & Nw & _).
  unfold getConfig. rewrite Q, A. cbn [mbind option_bind]. rewrite M.
  now rewrite written_config_reads_back.
Qed.

Lemma getConfig_shows_saved_config_witness :
  let ctx := {| fetchAppDetails :=
                  {| query_error := None;
                     ConfigurationRouter.app :=
                       Some {| ConfigurationRouter.id := Some (js "QXBwOjE=");
                               ConfigurationRouter.privateMetadata := None |} |};
                updateAppPrivateMetadata := fun _ _ =>
                  {| update_error := None;
                     ConfigurationRouter.errors := Some [] |} |} in
  let rawInput := JObject [(js "testMode", JBool false);
                           (js "projectId", JString (js "12345"));
                           (js "password", JString (js "secret"))] in
  let config := {| Types.projectId := js "12345"; Types.password := js "secret";
                   Types.testMode := false |} in
  let ctx' := {| fetchAppDetails :=
                   {| query_error := None;
                      ConfigurationRouter.app :=
                        Some {| ConfigurationRouter.id := Some (js "QXBwOjE=");
                                ConfigurationRouter.privateMetadata :=
                                  Some [{| Config.key := js "other";
                                           Config.value := js "1" |};
                                        Config.serializePayseraConfig config] |} |};
                 updateAppPrivateMetadata := updateAppPrivateMetadata ctx |} in
  snd (saveConfig ctx rawInput) = Return {| success := true |}
  /\ getConfig ctx'
     = ([FetchAppDetails],
        Return {| projectId := js "12345"; testMode := false; isConfigured := true |}).
Proof.
  intros ctx rawInput config ctx'.
  assert (saveConfig ctx rawInput
          = ([FetchAppDetails;
              UpdateAppPrivateMetadata (js "QXBwOjE=")
                [Config.serializePayseraConfig config]],
             Return {| success := true |})) as E by (vm_compute; reflexivity).
  split; [now rewrite E|].
  destruct (getConfig_shows_saved_config ctx rawInput _ _ E)
    as (config' & appId & S & _ & G).
  vm_compute in S. injection S as <-.
  assert (Forall (fun i => Config.key i <> js "paysera_config")
            [{| Config.key := js "other"; Config.value := js "1" |}]) as F
    by (repeat constructor; vm_compute; discriminate).
  exact (G ctx' _ [{| Config.key := js "other"; Config.value := js "1" |}] []
           eq_refl eq_refl eq_refl eq_refl eq_refl F).
Defined.

(* ===================================================================== *)
(** * Properties: the configuration page *)
(* ===================================================================== *)

Lemma trimStart_split s :
  exists pre, s = pre ++ ConfigurationPage.trimStart s
              /\ forallb ConfigurationPage.stripped pre = true.
Proof.
  induction s as [|c s (pre & E & F)]; [now exists []|].
  cbn [ConfigurationPage.trimStart].
  destruct (ConfigurationPage.stripped c) eqn:C; [|now exists []].
  exists (c :: pre). cbn [List.app forallb]. rewrite C, F. now rewrite <- E.
Qed.

Lemma trimStart_head c s :
  head (ConfigurationPage.trimStart s) = Some c -> ConfigurationPage.stripped c = false.
Proof.
  induction s as [|d s IH]; [discriminate|]. cbn [ConfigurationPage.trimStart].
  destruct (ConfigurationPage.stripped d) eqn:D; [exact IH|].
  intros E. now injection E as <-.
Qed.

(** [trim] takes the white space and the line terminators off both ends
    and nothing else. *)
Lemma trim_split s :
  exists pre post,
    s = pre ++ ConfigurationPage.trim s ++ post
    /\ forallb ConfigurationPage.stripped pre = true
    /\ forallb ConfigurationPage.stripped post = true
    /\ (forall c, head (ConfigurationPage.trim s) = Some c ->
                  ConfigurationPage.stripped c = false)
    /\ (forall c, last (ConfigurationPage.trim s) = Some c ->
                  ConfigurationPage.stripped c = false).
Proof.
  destruct (trimStart_split s) as (pre & E & F).
  destruct (trimStart_split (rev (ConfigurationPage.trimStart s))) as (tsop & E' & F').
  exists pre, (rev tsop). unfold ConfigurationPage.trim, ConfigurationPage.trimEnd.
  assert (ConfigurationPage.trimStart s
          = rev (ConfigurationPage.trimStart (rev (ConfigurationPage.trimStart s)))
            ++ rev tsop) as E''.
  { rewrite <- rev_app_distr, <- E'. now rewrite rev_involutive. }
  split; [now rewrite <- E''|]. split; [exact F|].
  split.
  { apply forallb_forall. intros x I. apply List.in_rev in I.
    exact (proj1 (forallb_forall _ _) F' x I). }
  split.
  - intros c H. apply (trimStart_head c s). rewrite E''.
    destruct (rev (ConfigurationPage.trimStart (rev _))); [discriminate|exact H].
  - intros c H. rewrite List.rev_alt in H.
    change (rev_append ?l []) with (reverse l) in H. rewrite last_reverse in H.
    now apply (trimStart_head c (rev (ConfigurationPage.trimStart s))).
Qed.

Lemma code_units_trim s :
  code_units s = true -> code_units (ConfigurationPage.trim s) = true.
Proof.
  destruct (trim_split s) as (pre & post & E & _). unfold code_units.
  rewrite E at 1. rewrite !forallb_app. intros H.
  apply andb_prop in H as (_ & H). now apply andb_prop in H as (H & _).
Qed.

(** The schema accepts the object literal of three properties when its two
    strings are not empty. *)
Lemma object_literal_accepted p w t :
  p <> [] -> w <> [] ->
  saveConfig_input (JObject [(js "projectId", JString p);
                             (js "password", JString w);
                             (js "testMode", JBool t)])
  = inl {| Types.projectId := p; Types.password := w; Types.testMode := t |}.
Proof.
  intros Np Nw. unfold saveConfig_input, Config.payseraConfigSchema. cbn [get].
  repeat case_bool_decide; try discriminate; try congruence.
  destruct p as [|c p]; [contradiction|]. destruct w as [|d w]; [contradiction|].
  unfold string_min_1.
  repeat match goal with
    | |- context [Z.of_nat (length (?x :: ?l)) <? 1] =>
        destruct (Z.ltb_spec (Z.of_nat (length (x :: l))) 1) as [L|_];
        [cbn [length] in L; lia|]
    end.
  reflexivity.
Qed.

(** X21: what the page sends.  [handleSave] sends nothing, and shows
    "Project ID is required", when the trimmed project id is empty; it
    sends nothing, and shows "Password is required", when the trimmed
    password is empty and the application is not known to be configured.
    Otherwise it calls [mutateAsync] once, first of all, with an input the
    parser of [saveConfig] accepts: the project id is the trimmed one, not
    empty and with no white space or line terminator at either end; the
    password is the trimmed one, or the word "unchanged" when that is
    empty; the test mode is the one of the page.  So the parser never
    refuses what the page sends. *)
Theorem handleSave_sends_valid_input
  (isConfigured : option bool)
  (mutateAsync : json -> option ConfigurationPage.Thrown)
  (s : ConfigurationPage.State) :
  let p := ConfigurationPage.trim (ConfigurationPage.projectId s) in
  let w := ConfigurationPage.trim (ConfigurationPage.password s) in
  let run := ConfigurationPage.handleSave isConfigured mutateAsync s in
  (p = [] ->
   fst run = []
   /\ ConfigurationPage.errorMessage (snd run) = js "Project ID is required"
   /\ ConfigurationPage.saveStatus (snd run) = ConfigurationPage.error)
  /\ (p <> [] -> w = [] -> isConfigured <> Some true ->
      fst run = []
      /\ ConfigurationPage.errorMessage (snd run) = js "Password is required"
      /\ ConfigurationPage.saveStatus (snd run) = ConfigurationPage.error)
  /\ (p <> [] -> w <> [] \/ isConfigured = Some true ->
      exists input,
        fst run
        = ConfigurationPage.MutateAsync input
          :: match mutateAsync input with
             | None => [ConfigurationPage.Refetch; ConfigurationPage.SetTimeout 3000]
             | Some _ => []
             end
        /\ saveConfig_input input
           = inl {| Types.projectId := p;
                    Types.password := if truthy w then w else js "unchanged";
                    Types.testMode := ConfigurationPage.testMode s |}
        /\ (forall c, head p = Some c \/ last p = Some c ->
                      ConfigurationPage.stripped c = false)).
Proof.
  intros p w run. subst run. unfold ConfigurationPage.handleSave. fold p w.
  split; [|split].
  - intros ->. cbn. auto.
  - intros Np -> Nc. destruct p as [|c p'] eqn:P; [contradiction|]. cbn [truthy negb].
    destruct isConfigured as [[|]|]; [contradiction| |]; cbn; auto.
  - intros Np H. destruct p as [|c p'] eqn:P; [contradiction|]. cbn [truthy negb].
    assert (negb (truthy w) && negb (default false isConfigured) = false) as ->.
    { destruct H as [H| ->]; [|apply andb_false_r].
      destruct w; [contradiction|reflexivity]. }
    exists (JObject [(js "projectId", JString (c :: p'));
                     (js "password", JString (if truthy w then w else js "unchanged"));
                     (js "testMode", JBool (ConfigurationPage.testMode s))]).
    split; [|split].
    + destruct (mutateAsync _); reflexivity.
    + apply object_literal_accepted; [discriminate|].
      destruct w; discriminate.
    + destruct (trim_split (ConfigurationPage.projectId s)) as (_ & _ & _ & _ & _ & Hh & Hl).
      fold p in Hh, Hl. rewrite P in Hh, Hl. intros c' [E|E]; auto.
Qed.

(** X22: a password left blank.  When the application is configured, the
    trimmed project id is not empty and the password field holds nothing
    but white space, [handleSave] calls [mutateAsync] with the password
    "unchanged"; and [saveConfig], run on this input for an application
    that is found, sends one update whose entry reads back, with
    [getPayseraConfigFromMetadata], as the configuration of the trimmed
    project id, the test mode of the page and the password "unchanged". *)
Theorem blank_password_is_saved_as_unchanged
  (mutateAsync : json -> option ConfigurationPage.Thrown)
  (s : ConfigurationPage.State) (ctx : ApiClient) (appId : jsstring) :
  code_units (ConfigurationPage.projectId s) = true ->
  ConfigurationPage.trim (ConfigurationPage.projectId s) <> [] ->
  ConfigurationPage.trim (ConfigurationPage.password s) = [] ->
  query_error (fetchAppDetails ctx) = None ->
  ConfigurationRouter.app (fetchAppDetails ctx) ≫= ConfigurationRouter.id = Some appId ->
  appId <> [] ->
  exists input item,
    head (fst (ConfigurationPage.handleSave (Some true) mutateAsync s))
    = Some (ConfigurationPage.MutateAsync input)
    /\ fst (saveConfig ctx input)
       = [FetchAppDetails; UpdateAppPrivateMetadata appId [item]]
    /\ Config.getPayseraConfigFromMetadata (Some [item])
       = Ok {| Types.projectId := ConfigurationPage.trim (ConfigurationPage.projectId s);
               Types.password := js "unchanged";
               Types.testMode := ConfigurationPage.testMode s |}.
Proof.
  intros Hc Np Ew Q A Ni.
  set (config := {| Types.projectId := ConfigurationPage.trim (ConfigurationPage.projectId s);
                    Types.password := js "unchanged";
                    Types.testMode := ConfigurationPage.testMode s |}).
  exists (JObject [(js "projectId", JString (Types.projectId config));
                   (js "password", JString (Types.password config));
                   (js "testMode", JBool (Types.testMode config))]),
         (Config.serializePayseraConfig config).
  split; [|split].
  - unfold ConfigurationPage.handleSave. rewrite Ew.
    destruct (ConfigurationPage.trim (ConfigurationPage.projectId s)) eqn:P;
      [contradiction|].
    cbn [truthy negb default andb]. subst config. cbn [Types.projectId Types.password Types.testMode].
    destruct (mutateAsync _); reflexivity.
  - pose proof (saveConfig_calls ctx
                  (JObject [(js "projectId", JString (Types.projectId config));
                            (js "password", JString (Types.password config));
                            (js "testMode", JBool (Types.testMode config))])) as C.
    rewrite (object_literal_accepted _ _ _ Np) in C by discriminate.
    rewrite Q, A in C. destruct appId; [contradiction|exact C].
  - apply (written_config_reads_back config [] []); try assumption;
      try reflexivity; try discriminate; [|constructor].
    now apply code_units_trim.
Qed.

Lemma blank_password_is_saved_as_unchanged_witness :
  let s := {| ConfigurationPage.projectId := js "  12345 ";
              ConfigurationPage.password := [0x20; 0x09; 0xA0];
              ConfigurationPage.testMode := false;
              ConfigurationPage.saveStatus := ConfigurationPage.idle;
              ConfigurationPage.errorMessage := [] |} in
  let ctx := {| fetchAppDetails :=
                  {| query_error := None;
                     ConfigurationRouter.app :=
                       Some {| ConfigurationRouter.id := Some (js "QXBwOjE=");
                               ConfigurationRouter.privateMetadata := None |} |};
                updateAppPrivateMetadata := fun _ _ =>
                  {| update_error := None;
                     ConfigurationRouter.errors := None |} |} in
  exists input item,
    head (fst (ConfigurationPage.handleSave (Some true) (fun _ => None) s))
    = Some (ConfigurationPage.MutateAsync input)
    /\ fst (saveConfig ctx input)
       = [FetchAppDetails; UpdateAppPrivateMetadata (js "QXBwOjE=") [item]]
    /\ Config.getPayseraConfigFromMetadata (Some [item])
       = Ok {| Types.projectId := js "12345";
               Types.password := js "unchanged";
               Types.testMode := false |}.
Proof.
  intros s ctx.
  apply (blank_password_is_saved_as_unchanged (fun _ => None) s ctx (js "QXBwOjE="));
    try reflexivity; vm_compute; discriminate.
Defined.
